(** * Wheel handling and row reordering of the grid's scroll mixin

    A shallow embedding of [src/vaadin-grid-scroll-mixin.js]: the capacity
    test [_canScroll], the ancestor walk [_hasScrolledAncestor], the wheel
    handler [_onWheel] with its two debounced flags, the page-height observer
    [_scrollViewportHeightUpdated], and the row reorder engine [_reorderRows]
    together with the mouse listeners installed by [ready]. *)

From Stdlib Require Import ZArith List Bool Ascii String DecimalString Permutation Sorted Lia.
Import ListNotations.
Local Open Scope Z_scope.

(** ** JavaScript numbers and values

    Pixel quantities are integers in every scenario considered here, so a
    Number is an integer or NaN.  NaN is kept because it is what arithmetic
    on [undefined] produces, and every comparison against it is false. *)
Module JS.

Inductive number := Num (z : Z) | NaN.

Inductive value :=
  | undefined
  | boolean (b : bool)
  | numeric (n : number).

(** ToNumber, as applied by the arithmetic and relational operators. *)
Definition ToNumber (v : value) : number :=
  match v with
  | undefined => NaN
  | boolean b => Num (if b then 1 else 0)
  | numeric n => n
  end.

(** ToBoolean, as applied by [if], [||] and [&&]. *)
Definition truthy (v : value) : bool :=
  match v with
  | undefined => false
  | boolean b => b
  | numeric (Num z) => negb (z =? 0)
  | numeric NaN => false
  end.

Definition add (a b : number) : number :=
  match a, b with Num x, Num y => Num (x + y) | _, _ => NaN end.

Definition sub (a b : number) : number :=
  match a, b with Num x, Num y => Num (x - y) | _, _ => NaN end.

Definition mul (a b : number) : number :=
  match a, b with Num x, Num y => Num (x * y) | _, _ => NaN end.

(** [Math.abs] *)
Definition abs (a : number) : number :=
  match a with Num x => Num (Z.abs x) | NaN => NaN end.

(** [a < b] *)
Definition lt (a b : number) : bool :=
  match a, b with Num x, Num y => x <? y | _, _ => false end.

(** [a > b] *)
Definition gt (a b : number) : bool := lt b a.

(** [a <= b] *)
Definition le (a b : number) : bool :=
  match a, b with Num x, Num y => x <=? y | _, _ => false end.

Definition isNaN (a : number) : bool :=
  match a with NaN => true | Num _ => false end.

End JS.
Import JS.

(** ** DOM elements

    An element carries the scroll metrics the mixin reads, its tag name, the
    [overflow] of its computed style, a node identity and its parent. *)
#[warnings="-register-all"] Inductive Element : Type := mkElement {
  node : nat;
  localName : string;
  overflow : string;
  scrollTop : Z;
  scrollLeft : Z;
  scrollHeight : Z;
  scrollWidth : Z;
  offsetHeight : Z;
  offsetWidth : Z;
  clientHeight : Z;
  clientWidth : Z;
  parentElement : option Element
}.

(** [_canScroll(el, deltaX, deltaY)] *)
Definition _canScroll (el : Element) (deltaX deltaY : number) : bool :=
  (gt deltaY (Num 0) && (scrollTop el <? scrollHeight el - offsetHeight el))
  || (lt deltaY (Num 0) && (scrollTop el >? 0))
  || (gt deltaX (Num 0) && (scrollLeft el <? scrollWidth el - offsetWidth el))
  || (lt deltaX (Num 0) && (scrollLeft el >? 0)).

(** [['auto', 'scroll'].indexOf(getComputedStyle(el).overflow) !== -1] *)
Definition overflow_scrolls (el : Element) : bool :=
  String.eqb (overflow el) "auto" || String.eqb (overflow el) "scroll".

(** [_hasScrolledAncestor(el, deltaX, deltaY)], for the grid whose host
    element has identity [this].  The last [else if] has no [else]: the call
    then returns [undefined]. *)
Fixpoint _hasScrolledAncestor (this : nat) (el : Element)
    (deltaX deltaY : number) : value :=
  if String.eqb (localName el) "vaadin-grid-cell-content" then boolean false
  else if _canScroll el deltaX deltaY && overflow_scrolls el then boolean true
  else
    if negb (Nat.eqb (node el) this) then
      match parentElement el with
      | Some parent => _hasScrolledAncestor this parent deltaX deltaY
      | None => undefined
      end
    else undefined.

(** ** Component state *)

(** A physical row: its node identity, the logical [index] assigned by the
    virtualization engine, and its [hidden] attribute. *)
Record Row := mkRow { rid : nat; index : Z; hidden : bool }.

(** Callbacks handed to [setTimeout]. *)
Inductive Task :=
  | TReorderRows
  | TRestoreHeaderTransform (transform : string).

(** The fields of [this] (and of the elements under [this.$]) that the
    modelled methods read or write.  A flag that the source leaves
    [undefined] until first written is [false] here. *)
Record Grid := mkGrid {
  self : nat;  (* identity of the host element, [this] *)
  table : Element;  (* [this.$.table], the scroll surface *)
  header_clientHeight : Z;  (* [this.$.header.clientHeight] *)
  footer_clientHeight : Z;  (* [this.$.footer.clientHeight] *)
  header_style_transform : string;  (* [this.$.header.style.transform] *)
  _viewportHeight : value;
  _scrollLineHeight : value;
  _scrollPageHeight : value;
  _deltaYAcc : number;
  _wheelAnimationFrame : bool;
  _debouncerWheelAnimationFrame : bool;  (* its animation-frame callback is pending *)
  _hasResidualMomentum : bool;
  _ignoreNewWheel : bool;
  _debouncerIgnoreNewWheel : option Z;  (* due time of its pending timeout *)
  _previousMomentum : value;
  __mouseDown : bool;
  __pendingReorder : bool;
  rows : list Row;  (* the [tr] elements under [this.$.items], in document order *)
  _rowWithFocusedElement : option Row;
  _virtualStart : Z;
  _vidxOffset : Z;
  _safari : bool;
  timeouts : list (Z * Task)  (* callbacks scheduled with [setTimeout], earliest first *)
}.

(** Field updates. *)
Definition set_table (v : Element) (g : Grid) : Grid :=
  mkGrid (self g) v (header_clientHeight g) (footer_clientHeight g)
    (header_style_transform g) (_viewportHeight g) (_scrollLineHeight g)
    (_scrollPageHeight g) (_deltaYAcc g) (_wheelAnimationFrame g)
    (_debouncerWheelAnimationFrame g) (_hasResidualMomentum g)
    (_ignoreNewWheel g) (_debouncerIgnoreNewWheel g) (_previousMomentum g)
    (__mouseDown g) (__pendingReorder g) (rows g) (_rowWithFocusedElement g)
    (_virtualStart g) (_vidxOffset g) (_safari g) (timeouts g).

Definition set_header_style_transform (v : string) (g : Grid) : Grid :=
  mkGrid (self g) (table g) (header_clientHeight g) (footer_clientHeight g)
    v (_viewportHeight g) (_scrollLineHeight g) (_scrollPageHeight g)
    (_deltaYAcc g) (_wheelAnimationFrame g) (_debouncerWheelAnimationFrame
    g) (_hasResidualMomentum g) (_ignoreNewWheel g)
    (_debouncerIgnoreNewWheel g) (_previousMomentum g) (__mouseDown g)
    (__pendingReorder g) (rows g) (_rowWithFocusedElement g) (_virtualStart
    g) (_vidxOffset g) (_safari g) (timeouts g).

Definition set__viewportHeight (v : value) (g : Grid) : Grid :=
  mkGrid (self g) (table g) (header_clientHeight g) (footer_clientHeight g)
    (header_style_transform g) v (_scrollLineHeight g) (_scrollPageHeight g)
    (_deltaYAcc g) (_wheelAnimationFrame g) (_debouncerWheelAnimationFrame
    g) (_hasResidualMomentum g) (_ignoreNewWheel g)
    (_debouncerIgnoreNewWheel g) (_previousMomentum g) (__mouseDown g)
    (__pendingReorder g) (rows g) (_rowWithFocusedElement g) (_virtualStart
    g) (_vidxOffset g) (_safari g) (timeouts g).

Definition set__scrollPageHeight (v : value) (g : Grid) : Grid :=
  mkGrid (self g) (table g) (header_clientHeight g) (footer_clientHeight g)
    (header_style_transform g) (_viewportHeight g) (_scrollLineHeight g) v
    (_deltaYAcc g) (_wheelAnimationFrame g) (_debouncerWheelAnimationFrame
    g) (_hasResidualMomentum g) (_ignoreNewWheel g)
    (_debouncerIgnoreNewWheel g) (_previousMomentum g) (__mouseDown g)
    (__pendingReorder g) (rows g) (_rowWithFocusedElement g) (_virtualStart
    g) (_vidxOffset g) (_safari g) (timeouts g).

Definition set__deltaYAcc (v : number) (g : Grid) : Grid :=
  mkGrid (self g) (table g) (header_clientHeight g) (footer_clientHeight g)
    (header_style_transform g) (_viewportHeight g) (_scrollLineHeight g)
    (_scrollPageHeight g) v (_wheelAnimationFrame g)
    (_debouncerWheelAnimationFrame g) (_hasResidualMomentum g)
    (_ignoreNewWheel g) (_debouncerIgnoreNewWheel g) (_previousMomentum g)
    (__mouseDown g) (__pendingReorder g) (rows g) (_rowWithFocusedElement g)
    (_virtualStart g) (_vidxOffset g) (_safari g) (timeouts g).

Definition set__wheelAnimationFrame (v : bool) (g : Grid) : Grid :=
  mkGrid (self g) (table g) (header_clientHeight g) (footer_clientHeight g)
    (header_style_transform g) (_viewportHeight g) (_scrollLineHeight g)
    (_scrollPageHeight g) (_deltaYAcc g) v (_debouncerWheelAnimationFrame g)
    (_hasResidualMomentum g) (_ignoreNewWheel g) (_debouncerIgnoreNewWheel
    g) (_previousMomentum g) (__mouseDown g) (__pendingReorder g) (rows g)
    (_rowWithFocusedElement g) (_virtualStart g) (_vidxOffset g) (_safari g)
    (timeouts g).

Definition set__debouncerWheelAnimationFrame (v : bool) (g : Grid) : Grid :=
  mkGrid (self g) (table g) (header_clientHeight g) (footer_clientHeight g)
    (header_style_transform g) (_viewportHeight g) (_scrollLineHeight g)
    (_scrollPageHeight g) (_deltaYAcc g) (_wheelAnimationFrame g) v
    (_hasResidualMomentum g) (_ignoreNewWheel g) (_debouncerIgnoreNewWheel
    g) (_previousMomentum g) (__mouseDown g) (__pendingReorder g) (rows g)
    (_rowWithFocusedElement g) (_virtualStart g) (_vidxOffset g) (_safari g)
    (timeouts g).

Definition set__hasResidualMomentum (v : bool) (g : Grid) : Grid :=
  mkGrid (self g) (table g) (header_clientHeight g) (footer_clientHeight g)
    (header_style_transform g) (_viewportHeight g) (_scrollLineHeight g)
    (_scrollPageHeight g) (_deltaYAcc g) (_wheelAnimationFrame g)
    (_debouncerWheelAnimationFrame g) v (_ignoreNewWheel g)
    (_debouncerIgnoreNewWheel g) (_previousMomentum g) (__mouseDown g)
    (__pendingReorder g) (rows g) (_rowWithFocusedElement g) (_virtualStart
    g) (_vidxOffset g) (_safari g) (timeouts g).

Definition set__ignoreNewWheel (v : bool) (g : Grid) : Grid :=
  mkGrid (self g) (table g) (header_clientHeight g) (footer_clientHeight g)
    (header_style_transform g) (_viewportHeight g) (_scrollLineHeight g)
    (_scrollPageHeight g) (_deltaYAcc g) (_wheelAnimationFrame g)
    (_debouncerWheelAnimationFrame g) (_hasResidualMomentum g) v
    (_debouncerIgnoreNewWheel g) (_previousMomentum g) (__mouseDown g)
    (__pendingReorder g) (rows g) (_rowWithFocusedElement g) (_virtualStart
    g) (_vidxOffset g) (_safari g) (timeouts g).

Definition set__debouncerIgnoreNewWheel (v : option Z) (g : Grid) : Grid :=
  mkGrid (self g) (table g) (header_clientHeight g) (footer_clientHeight g)
    (header_style_transform g) (_viewportHeight g) (_scrollLineHeight g)
    (_scrollPageHeight g) (_deltaYAcc g) (_wheelAnimationFrame g)
    (_debouncerWheelAnimationFrame g) (_hasResidualMomentum g)
    (_ignoreNewWheel g) v (_previousMomentum g) (__mouseDown g)
    (__pendingReorder g) (rows g) (_rowWithFocusedElement g) (_virtualStart
    g) (_vidxOffset g) (_safari g) (timeouts g).

Definition set__previousMomentum (v : value) (g : Grid) : Grid :=
  mkGrid (self g) (table g) (header_clientHeight g) (footer_clientHeight g)
    (header_style_transform g) (_viewportHeight g) (_scrollLineHeight g)
    (_scrollPageHeight g) (_deltaYAcc g) (_wheelAnimationFrame g)
    (_debouncerWheelAnimationFrame g) (_hasResidualMomentum g)
    (_ignoreNewWheel g) (_debouncerIgnoreNewWheel g) v (__mouseDown g)
    (__pendingReorder g) (rows g) (_rowWithFocusedElement g) (_virtualStart
    g) (_vidxOffset g) (_safari g) (timeouts g).

Definition set___mouseDown (v : bool) (g : Grid) : Grid :=
  mkGrid (self g) (table g) (header_clientHeight g) (footer_clientHeight g)
    (header_style_transform g) (_viewportHeight g) (_scrollLineHeight g)
    (_scrollPageHeight g) (_deltaYAcc g) (_wheelAnimationFrame g)
    (_debouncerWheelAnimationFrame g) (_hasResidualMomentum g)
    (_ignoreNewWheel g) (_debouncerIgnoreNewWheel g) (_previousMomentum g) v
    (__pendingReorder g) (rows g) (_rowWithFocusedElement g) (_virtualStart
    g) (_vidxOffset g) (_safari g) (timeouts g).

Definition set___pendingReorder (v : bool) (g : Grid) : Grid :=
  mkGrid (self g) (table g) (header_clientHeight g) (footer_clientHeight g)
    (header_style_transform g) (_viewportHeight g) (_scrollLineHeight g)
    (_scrollPageHeight g) (_deltaYAcc g) (_wheelAnimationFrame g)
    (_debouncerWheelAnimationFrame g) (_hasResidualMomentum g)
    (_ignoreNewWheel g) (_debouncerIgnoreNewWheel g) (_previousMomentum g)
    (__mouseDown g) v (rows g) (_rowWithFocusedElement g) (_virtualStart g)
    (_vidxOffset g) (_safari g) (timeouts g).

Definition set_rows (v : list Row) (g : Grid) : Grid :=
  mkGrid (self g) (table g) (header_clientHeight g) (footer_clientHeight g)
    (header_style_transform g) (_viewportHeight g) (_scrollLineHeight g)
    (_scrollPageHeight g) (_deltaYAcc g) (_wheelAnimationFrame g)
    (_debouncerWheelAnimationFrame g) (_hasResidualMomentum g)
    (_ignoreNewWheel g) (_debouncerIgnoreNewWheel g) (_previousMomentum g)
    (__mouseDown g) (__pendingReorder g) v (_rowWithFocusedElement g)
    (_virtualStart g) (_vidxOffset g) (_safari g) (timeouts g).

Definition set__rowWithFocusedElement (v : option Row) (g : Grid) : Grid :=
  mkGrid (self g) (table g) (header_clientHeight g) (footer_clientHeight g)
    (header_style_transform g) (_viewportHeight g) (_scrollLineHeight g)
    (_scrollPageHeight g) (_deltaYAcc g) (_wheelAnimationFrame g)
    (_debouncerWheelAnimationFrame g) (_hasResidualMomentum g)
    (_ignoreNewWheel g) (_debouncerIgnoreNewWheel g) (_previousMomentum g)
    (__mouseDown g) (__pendingReorder g) (rows g) v (_virtualStart g)
    (_vidxOffset g) (_safari g) (timeouts g).

Definition set_timeouts (v : list (Z * Task)) (g : Grid) : Grid :=
  mkGrid (self g) (table g) (header_clientHeight g) (footer_clientHeight g)
    (header_style_transform g) (_viewportHeight g) (_scrollLineHeight g)
    (_scrollPageHeight g) (_deltaYAcc g) (_wheelAnimationFrame g)
    (_debouncerWheelAnimationFrame g) (_hasResidualMomentum g)
    (_ignoreNewWheel g) (_debouncerIgnoreNewWheel g) (_previousMomentum g)
    (__mouseDown g) (__pendingReorder g) (rows g) (_rowWithFocusedElement g)
    (_virtualStart g) (_vidxOffset g) (_safari g) v.

(** ** Platform services

    What the mixin obtains from the browser and from Polymer rather than
    from its own code. *)

(** [window.parseInt(s)] with no radix: leading white space is skipped, a
    sign is read, a [0x] prefix selects base 16, and the longest run of
    digits is converted; no digit at all gives NaN. *)
Module ParseInt.

Definition is_space (c : Ascii.ascii) : bool :=
  let n := Ascii.nat_of_ascii c in
  (Nat.eqb n 32 || (Nat.leb 9 n && Nat.leb n 13))%bool.

Definition digit_value (c : Ascii.ascii) : option Z :=
  let n := Z.of_nat (Ascii.nat_of_ascii c) in
  if (48 <=? n) && (n <=? 57) then Some (n - 48)
  else if (97 <=? n) && (n <=? 122) then Some (n - 87)
  else if (65 <=? n) && (n <=? 90) then Some (n - 55)
  else None.

Fixpoint skip_spaces (s : string) : string :=
  match s with
  | String c rest => if is_space c then skip_spaces rest else s
  | EmptyString => s
  end.

Fixpoint digits (radix : Z) (s : string) (acc : option Z) : option Z :=
  match s with
  | String c rest =>
      match digit_value c with
      | Some d =>
          if d <? radix
          then digits radix rest
                 (Some (radix * match acc with Some a => a | None => 0 end + d))
          else acc
      | None => acc
      end
  | EmptyString => acc
  end.

Definition unsigned (s : string) : option Z :=
  match s with
  | String "0"%char (String "x"%char rest)
  | String "0"%char (String "X"%char rest) =>
      digits 16 rest None
  | _ => digits 10 s None
  end.

Definition parseInt (s : string) : number :=
  let s := skip_spaces s in
  let (negative, s) :=
    match s with
    | String "-"%char rest => (true, rest)
    | String "+"%char rest => (false, rest)
    | _ => (false, s)
    end in
  match unsigned s with
  | Some z => Num (if negative then - z else z)
  | None => NaN
  end.

End ParseInt.

(** Writing [scrollTop] and [scrollLeft] is a call into the browser, which
    decides what offset the element ends up with. *)
Class Browser := {
  write_scrollTop : Element -> number -> Element;
  write_scrollLeft : Element -> number -> Element
}.

(** The behaviour of a standard scroll box in a left-to-right layout: a
    non-finite offset is taken as 0 and the offset is clamped to the
    scrollable range. *)
Module Cssom.

Definition normalize (y : number) : Z :=
  match y with Num z => z | NaN => 0 end.

Definition clamp (hi z : Z) : Z := Z.max 0 (Z.min (Z.max 0 hi) z).

Definition with_scrollTop (el : Element) (z : Z) : Element :=
  mkElement (node el) (localName el) (overflow el) z (scrollLeft el)
    (scrollHeight el) (scrollWidth el) (offsetHeight el) (offsetWidth el)
    (clientHeight el) (clientWidth el) (parentElement el).

Definition with_scrollLeft (el : Element) (z : Z) : Element :=
  mkElement (node el) (localName el) (overflow el) (scrollTop el) z
    (scrollHeight el) (scrollWidth el) (offsetHeight el) (offsetWidth el)
    (clientHeight el) (clientWidth el) (parentElement el).

#[export] Instance browser : Browser := {|
  write_scrollTop el y :=
    with_scrollTop el (clamp (scrollHeight el - clientHeight el) (normalize y));
  write_scrollLeft el x :=
    with_scrollLeft el (clamp (scrollWidth el - clientWidth el) (normalize x))
|}.

End Cssom.

(** [setTimeout(task, delay)] at time [now]: the queue is kept in firing
    order, a new callback going behind those due at the same time. *)
Fixpoint enqueue (due : Z) (task : Task) (queue : list (Z * Task))
    : list (Z * Task) :=
  match queue with
  | [] => [(due, task)]
  | (d, t) :: rest =>
      if d <=? due then (d, t) :: enqueue due task rest
      else (due, task) :: queue
  end.

Definition setTimeout (now : Z) (task : Task) (delay : Z) (g : Grid) : Grid :=
  set_timeouts (enqueue (now + delay) task (timeouts g)) g.

(** ** The mixin *)

Module timeouts_ms.
Definition SCROLLING : Z := 500.
Definition IGNORE_WHEEL : Z := 500.
End timeouts_ms.

Definition DOM_DELTA_PIXEL : Z := 0.
Definition DOM_DELTA_LINE : Z := 1.
Definition DOM_DELTA_PAGE : Z := 2.

Record WheelEvent := mkWheelEvent {
  ctrlKey : bool;
  target : Element;
  deltaX : number;
  deltaY : number;
  deltaMode : Z
}.

(** [_getScrollLineHeight()], as a function of the [fontSize] that
    [getComputedStyle] reports for the probe element.  The empty string is
    the only falsy string. *)
Definition _getScrollLineHeight (fontSize : string) : value :=
  match fontSize with
  | EmptyString => undefined
  | _ => numeric (ParseInt.parseInt fontSize)
  end.

(** [_scrollViewportHeightUpdated(_viewportHeight)] *)
Definition _scrollViewportHeightUpdated (viewportHeight : value) (g : Grid)
    : Grid :=
  set__scrollPageHeight
    (numeric
       (sub (sub (sub (ToNumber viewportHeight) (Num (header_clientHeight g)))
               (Num (footer_clientHeight g)))
          (ToNumber (_scrollLineHeight g))))
    g.

(** Strict inequality of two property values, NaN counting as equal to
    itself: Polymer's test for a property change. *)
Definition value_changed (old new : value) : bool :=
  match old, new with
  | undefined, undefined => false
  | boolean a, boolean b => negb (Bool.eqb a b)
  | numeric (Num a), numeric (Num b) => negb (a =? b)
  | numeric NaN, numeric NaN => false
  | _, _ => true
  end.

(** Assigning the [_viewportHeight] property: the observer declared in
    [observers] runs when the value changes. *)
Definition assign_viewportHeight (v : value) (g : Grid) : Grid :=
  if value_changed (_viewportHeight g) v
  then _scrollViewportHeightUpdated v (set__viewportHeight v g)
  else g.

(** The pixel value of [deltaY] after the [deltaMode] conversion at the top
    of [_onWheel]. *)
Definition normalizedDeltaY (g : Grid) (e : WheelEvent) : number :=
  if deltaMode e =? DOM_DELTA_LINE
  then mul (deltaY e) (ToNumber (_scrollLineHeight g))
  else if deltaMode e =? DOM_DELTA_PAGE
  then mul (deltaY e) (ToNumber (_scrollPageHeight g))
  else deltaY e.

(** The early exit of [_onWheel]. *)
Definition skipsWheel (g : Grid) (e : WheelEvent) : bool :=
  ctrlKey e
  || truthy (_hasScrolledAncestor (self g) (target e) (deltaX e) (deltaY e)).

(** [deltaY] once the accumulated delta has been folded in, and the
    [momentum] computed from it. *)
Definition foldedDeltaY (g : Grid) (e : WheelEvent) : number :=
  add (normalizedDeltaY g e) (_deltaYAcc g).

Definition momentumOf (g : Grid) (e : WheelEvent) : number :=
  add (abs (deltaX e)) (abs (foldedDeltaY g e)).

(** The mixin extends a [superClass], which provides [_scrollHandler]. *)
Class SuperClass := { _scrollHandler : Grid -> Grid }.

Section ScrollMixin.

Context {browser : Browser} {superClass : SuperClass}.

(** The branch of [_onWheel] that applies the delta to the table. *)
Definition applyWheel (now : Z) (dX dY : number) (g : Grid) : Grid :=
  let g := set_table
             (write_scrollTop (table g) (add (Num (scrollTop (table g))) dY)) g in
  let g := set_table
             (write_scrollLeft (table g) (add (Num (scrollLeft (table g))) dX)) g in
  let g := _scrollHandler g in
  let g := set__hasResidualMomentum true g in
  let g := set__ignoreNewWheel true g in
  set__debouncerIgnoreNewWheel (Some (now + timeouts_ms.IGNORE_WHEEL)) g.

(** [_onWheel(e)] at time [now]; the boolean is the event's
    [defaultPrevented] when the handler returns. *)
Definition _onWheel (now : Z) (e : WheelEvent) (g : Grid) : Grid * bool :=
  if skipsWheel g e then (g, false)
  else
    let dY := normalizedDeltaY g e in
    if _wheelAnimationFrame g then
      (set__deltaYAcc (add (_deltaYAcc g) dY) g, true)
    else
      let dY := add dY (_deltaYAcc g) in
      let g := set__deltaYAcc (Num 0) g in
      let g := set__wheelAnimationFrame true g in
      let g := set__debouncerWheelAnimationFrame true g in
      let momentum := add (abs (deltaX e)) (abs dY) in
      let '(g, prevented) :=
        if _canScroll (table g) (deltaX e) dY then
          (applyWheel now (deltaX e) dY g, true)
        else if (_hasResidualMomentum g
                 && le momentum (ToNumber (_previousMomentum g)))
                || _ignoreNewWheel g then
          (g, true)
        else if gt momentum (ToNumber (_previousMomentum g)) then
          (set__hasResidualMomentum false g, false)
        else (g, false) in
      (set__previousMomentum (numeric momentum) g, prevented).

(** *** Row reordering *)

(** Node identity of rows. *)
Definition same_node (a b : Row) : bool := Nat.eqb (rid a) (rid b).

Definition remove_node (node : Row) (children : list Row) : list Row :=
  filter (fun x => negb (same_node x node)) children.

(** [body.appendChild(node)]: the node leaves its place and becomes the last
    child. *)
Definition appendChild (node : Row) (children : list Row) : list Row :=
  remove_node node children ++ [node].

Fixpoint insert_at_ref (node ref : Row) (children : list Row)
    : option (list Row) :=
  match children with
  | [] => None
  | x :: rest =>
      if same_node x ref then Some (node :: children)
      else option_map (cons x) (insert_at_ref node ref rest)
  end.

(** [body.insertBefore(node, ref)]: [None] when [ref] is not a child (the
    call throws); inserting a node before itself leaves it in place. *)
Definition insertBefore (node ref : Row) (children : list Row)
    : option (list Row) :=
  if same_node node ref then
    if existsb (same_node ref) children then Some children else None
  else insert_at_ref node ref (remove_node node children).

(** [Array.from(items).indexOf(row)] *)
Fixpoint indexOf (row : Row) (items : list Row) : Z :=
  match items with
  | [] => -1
  | x :: rest =>
      if same_node x row then 0
      else let i := indexOf row rest in if i <? 0 then -1 else i + 1
  end.

(** [items[i]]: [None] stands for [undefined]. *)
Definition item (items : list Row) (i : Z) : option Row :=
  if i <? 0 then None else nth_error items (Z.to_nat i).

(** The calls made on the row container. *)
Inductive DomOp :=
  | AppendChild (node : Row)
  | InsertBefore (node ref : Row).

(** [for (let i = start; ...; i++) body], run for [n] rounds; the body gives
    [None] when it throws, which ends the loop with the flag set. *)
Fixpoint for_range {S : Type} (n : nat) (i : Z) (body : Z -> S -> option S)
    (s : S) : S * bool :=
  match n with
  | O => (s, false)
  | Datatypes.S n' =>
      match body i s with
      | Some s' => for_range n' (i + 1) body s'
      | None => (s, true)
      end
  end.

(** The loop bodies: a DOM method called with [undefined] for the node
    throws a TypeError. *)
Definition appendStep (items : list Row) (i : Z)
    (s : list Row * list DomOp) : option (list Row * list DomOp) :=
  match item items i with
  | Some node => Some (appendChild node (fst s), snd s ++ [AppendChild node])
  | None => None
  end.

Definition insertStep (items : list Row) (i : Z)
    (s : list Row * list DomOp) : option (list Row * list DomOp) :=
  match item items i, item items 0 with
  | Some node, Some ref =>
      match insertBefore node ref (fst s) with
      | Some children => Some (children, snd s ++ [InsertBefore node ref])
      | None => None
      end
  | _, _ => None
  end.

(** The row the engine anchors on:
    [this._rowWithFocusedElement || Array.from(items).filter((row) => !row.hidden)[0]] *)
Definition targetRowOf (g : Grid) : option Row :=
  match _rowWithFocusedElement g with
  | Some row => Some row
  | None => hd_error (filter (fun row => negb (hidden row)) (rows g))
  end.

(** [targetRow.index - adjustedVirtualStart] *)
Definition targetPhysicalIndexOf (g : Grid) (targetRow : Row) : Z :=
  index targetRow - (_virtualStart g + _vidxOffset g).

(** What a call of [_reorderRows] leaves behind: the component, the calls it
    made on the row container, and whether it ended by throwing. *)
Record Reordered := mkReordered {
  grid_after : Grid;
  dom_moves : list DomOp;
  threw : bool
}.

(** [_reorderRows()] at time [now]. *)
Definition _reorderRows (now : Z) (g : Grid) : Reordered :=
  if __mouseDown g then mkReordered (set___pendingReorder true g) [] false
  else
    let items := rows g in
    if (List.length items =? 0)%nat then mkReordered g [] false
    else
      match targetRowOf g with
      | None => mkReordered g [] false
      | Some targetRow =>
          let targetPhysicalIndex := targetPhysicalIndexOf g targetRow in
          let delta := indexOf targetRow items - targetPhysicalIndex in
          let '((children, log), failed) :=
            if delta >? 0 then
              for_range (Z.to_nat delta) 0 (appendStep items) (items, [])
            else if delta <? 0 then
              for_range (Z.to_nat (- delta)) (Z.of_nat (List.length items) + delta)
                (insertStep items) (items, [])
            else ((items, []), false) in
          let g := set_rows children g in
          if failed then mkReordered g log true
          else if _safari g then
            let transform := header_style_transform g in
            let g := set_header_style_transform EmptyString g in
            mkReordered (setTimeout now (TRestoreHeaderTransform transform) 0 g)
              log false
          else mkReordered g log false
      end.

(** *** Listeners installed by [ready] *)

Definition on_mousedown (g : Grid) : Grid := set___mouseDown true g.

Definition on_mouseup (now : Z) (g : Grid) : Grid :=
  let g := set___mouseDown false g in
  if __pendingReorder g then
    let g := set___pendingReorder false g in
    setTimeout now TReorderRows timeouts_ms.SCROLLING g
  else g.

(** [focusin] on the row container; [below] is the entry of the composed
    path just before the container, if there is one. *)
Definition on_focusin (below : option Row) (g : Grid) : Grid :=
  set__rowWithFocusedElement below g.

Definition on_focusout (g : Grid) : Grid := set__rowWithFocusedElement None g.

(** *** The event loop *)

Record World := mkWorld { grid : Grid; clock : Z }.

Inductive Input :=
  | Wheel (e : WheelEvent)
  | AnimationFrame
  | Elapse (ms : nat)
  | MouseDown
  | MouseUp
  | FocusIn (below : option Row)
  | FocusOut
  | ReorderRows.

(** The callback of the wheel animation-frame debouncer. *)
Definition flushWheelAnimationFrame (g : Grid) : Grid :=
  if _debouncerWheelAnimationFrame g
  then set__wheelAnimationFrame false (set__debouncerWheelAnimationFrame false g)
  else g.

(** The callback of the ignore-new-wheel debouncer, once its delay is over. *)
Definition expireIgnoreNewWheel (now : Z) (g : Grid) : Grid :=
  match _debouncerIgnoreNewWheel g with
  | Some due =>
      if due <=? now
      then set__ignoreNewWheel false (set__debouncerIgnoreNewWheel None g)
      else g
  | None => g
  end.

Definition runTask (now : Z) (g : Grid) (entry : Z * Task) : Grid :=
  match snd entry with
  | TReorderRows => grid_after (_reorderRows now g)
  | TRestoreHeaderTransform transform => set_header_style_transform transform g
  end.

Definition is_due (now : Z) (entry : Z * Task) : bool := fst entry <=? now.

(** The callbacks whose delay is over run in queue order; what they schedule
    waits for a later turn. *)
Definition runDueTimeouts (now : Z) (g : Grid) : Grid :=
  let due := filter (is_due now) (timeouts g) in
  let later := filter (fun entry => negb (is_due now entry)) (timeouts g) in
  fold_left (runTask now) due (set_timeouts later g).

(** One turn of the event loop; a wheel event reports its
    [defaultPrevented]. *)
Definition step (w : World) (i : Input) : World * option bool :=
  let now := clock w in
  let g := grid w in
  match i with
  | Wheel e =>
      let '(g', prevented) := _onWheel now e g in
      (mkWorld g' now, Some prevented)
  | AnimationFrame => (mkWorld (flushWheelAnimationFrame g) now, None)
  | Elapse ms =>
      let now' := now + Z.of_nat ms in
      (mkWorld (runDueTimeouts now' (expireIgnoreNewWheel now' g)) now', None)
  | MouseDown => (mkWorld (on_mousedown g) now, None)
  | MouseUp => (mkWorld (on_mouseup now g) now, None)
  | FocusIn below => (mkWorld (on_focusin below g) now, None)
  | FocusOut => (mkWorld (on_focusout g) now, None)
  | ReorderRows => (mkWorld (grid_after (_reorderRows now g)) now, None)
  end.

Fixpoint run (w : World) (inputs : list Input) : World * list (option bool) :=
  match inputs with
  | [] => (w, [])
  | i :: rest =>
      let '(w', out) := step w i in
      let '(w'', outs) := run w' rest in
      (w'', out :: outs)
  end.

End ScrollMixin.

(** * Vocabulary of the properties *)

(** ** The capacity test *)

(** A delta is positive (negative) when it is a number above (below) zero;
    NaN is neither. *)
Definition positive (n : number) : Prop := exists z, n = Num z /\ 0 < z.
Definition negative (n : number) : Prop := exists z, n = Num z /\ z < 0.

(** The capacity test in the words of the design notes, measuring the
    viewport by [clientHeight] and [clientWidth]. *)
Definition capacity_by_client_box (el : Element) (dx dy : number) : bool :=
  (gt dy (Num 0) && (scrollTop el <? scrollHeight el - clientHeight el))
  || (lt dy (Num 0) && (scrollTop el >? 0))
  || (gt dx (Num 0) && (scrollLeft el <? scrollWidth el - clientWidth el))
  || (lt dx (Num 0) && (scrollLeft el >? 0)).

(** A scroll box 400 pixels high inside a one-pixel border, showing content
    of 1000 pixels, one pixel short of its end. *)
Definition bordered_box : Element :=
  mkElement 1 "div" "auto" 599 0 1000 300 402 302 400 300 None.

(** The element of the design notes' example, at its top. *)
Definition box_at_top : Element :=
  mkElement 1 "table" "auto" 0 0 1000 300 400 300 400 300 None.

(** ** The ancestor walk *)

Definition is_cell_content (el : Element) : bool :=
  String.eqb (localName el) "vaadin-grid-cell-content".

(** The elements from [el] upwards, ending at the host or at the root. *)
Fixpoint chain (this : nat) (el : Element) : list Element :=
  el ::
  (if Nat.eqb (node el) this then []
   else match parentElement el with
        | Some parent => chain this parent
        | None => []
        end).

Fixpoint depth (el : Element) : nat :=
  match parentElement el with
  | Some parent => S (depth parent)
  | None => O
  end.

(** ** Sample documents *)

(** The grid's host element. *)
Definition host_element : Element :=
  mkElement 0 "vaadin-grid" "visible" 0 0 400 300 400 300 400 300 None.

(** Cell content that could itself scroll the delta: its overflow is auto
    and it has room downwards. *)
Definition scrolling_cell_content : Element :=
  mkElement 7 "vaadin-grid-cell-content" "auto" 0 0 200 100 20 100 20 100
    (Some host_element).

(** A scrolling list rendered into that cell, and a plain paragraph. *)
Definition list_in_cell : Element :=
  mkElement 8 "ul" "auto" 0 0 300 100 50 100 50 100
    (Some scrolling_cell_content).

Definition text_in_cell : Element :=
  mkElement 9 "p" "visible" 0 0 20 100 20 100 20 100
    (Some scrolling_cell_content).

(** ** Sample components *)

(** A superclass whose [_scrollHandler] does nothing. *)
Definition plainSuper : SuperClass := {| _scrollHandler := fun g => g |}.

(** A scroll surface of 400 by 300 pixels over content of 2000 by 600, with
    no border, scrolled 300 pixels down. *)
Definition sample_table : Element :=
  mkElement 2 "table" "auto" 300 0 2000 600 400 300 400 300 None.

(** A grid with a header of 40 pixels, a footer of 30 and a line height
    of 16, before its viewport height is known. *)
Definition sample_grid : Grid :=
  mkGrid 0 sample_table 40 30 "translate(0px, 0px)" undefined
    (numeric (Num 16)) undefined (Num 0) false false false false None
    undefined false false [] None 0 0 false [].

(** The same grid when the geometry probe measured nothing. *)
Definition unmeasured_grid : Grid :=
  mkGrid 0 sample_table 40 30 "translate(0px, 0px)" undefined
    (_getScrollLineHeight EmptyString) undefined (Num 0) false false false false None
    undefined false false [] None 0 0 false [].

(** Content rendered into a cell: the walk from it stops at once. *)
Definition sample_cell_content : Element :=
  mkElement 7 "vaadin-grid-cell-content" "visible" 0 0 20 100 20 100 20 100
    None.

(** One page down. *)
Definition page_down : WheelEvent :=
  mkWheelEvent false sample_cell_content (Num 0) (Num 1) DOM_DELTA_PAGE.

(** Three lines down and one pixel to the right. *)
Definition lines_down_and_right : WheelEvent :=
  mkWheelEvent false sample_cell_content (Num 1) (Num 3) DOM_DELTA_LINE.

(** Zooming: the wheel turned with the control key held. *)
Definition ctrl_wheel : WheelEvent :=
  mkWheelEvent true sample_cell_content (Num 0) (Num 120) DOM_DELTA_PIXEL.

(** One hundred pixels down. *)
Definition pixels_down : WheelEvent :=
  mkWheelEvent false sample_cell_content (Num 0) (Num 100) DOM_DELTA_PIXEL.

(** The sample surface scrolled to its end. *)
Definition bottomed_table : Element :=
  mkElement 2 "table" "auto" 1600 0 2000 300 400 300 400 300 None.

(** The sample grid at the end of its content, 100ms after a wheel event of
    momentum 100 was applied at time 0. *)
Definition bottomed_grid : Grid :=
  mkGrid 0 bottomed_table 40 30 "translate(0px, 0px)" (numeric (Num 600))
    (numeric (Num 16)) (numeric (Num 514)) (Num 0) false false true true
    (Some 500) (numeric (Num 100)) false false [] None 0 0 false [].

(** The same grid once the cooldown is over. *)
Definition rested_grid : Grid :=
  set__debouncerIgnoreNewWheel None (set__ignoreNewWheel false bottomed_grid).

(** Wheel events of growing strength, all downwards. *)
Definition down (pixels : Z) : WheelEvent :=
  mkWheelEvent false sample_cell_content (Num 0) (Num pixels) DOM_DELTA_PIXEL.

(** ** Runs of the event loop *)

(** The state in which [_onWheel] reaches its capacity test: the accumulated
    delta folded in and reset, the animation-frame flag raised. *)
Definition armed (g : Grid) : Grid :=
  set__debouncerWheelAnimationFrame true
    (set__wheelAnimationFrame true (set__deltaYAcc (Num 0) g)).

(** The event gets past the early exit and the scroll surface has no room
    for its delta. *)
Definition beyond_capacity (g : Grid) (e : WheelEvent) : Prop :=
  skipsWheel g e = false
  /\ _canScroll (table g) (deltaX e) (foldedDeltaY g e) = false.

(** A wheel event was reported as handled, or the turn was not a wheel
    event. *)
Definition handled (out : option bool) : Prop := out = None \/ out = Some true.

(** What the momentum gate's cooldown depends on. *)
Definition wheel_view (g : Grid) : Element * bool * option Z :=
  (table g, _ignoreNewWheel g, _debouncerIgnoreNewWheel g).

(** The cooldown is on and cannot end before [horizon]. *)
Definition cooling (horizon : Z) (w : World) : Prop :=
  _ignoreNewWheel (grid w) = true
  /\ horizon <= clock w + timeouts_ms.IGNORE_WHEEL
  /\ forall due, _debouncerIgnoreNewWheel (grid w) = Some due -> horizon <= due.

Section Runs.

Context {browser : Browser} {superClass : SuperClass}.

(** [P] holds of every wheel event of the run, in the state in which the
    event arrives. *)
Fixpoint each_wheel (P : Grid -> WheelEvent -> Prop) (w : World)
    (inputs : list Input) : Prop :=
  match inputs with
  | [] => True
  | i :: rest =>
      match i with Wheel e => P (grid w) e | _ => True end
      /\ each_wheel P (fst (step w i)) rest
  end.

End Runs.

(** ** Row order *)

(** The rows sit in logical index order: the row at physical position [p]
    has index [start + p]. *)
Definition in_index_order (start : Z) (l : list Row) : Prop :=
  forall p row, nth_error l p = Some row -> index row = start + Z.of_nat p.

(** No row of [l] is the node [row]. *)
Definition fresh (row : Row) (l : list Row) : Prop :=
  ~ In (rid row) (map rid l).

(** The first row in physical order that is not hidden. *)
Definition first_visible (l : list Row) : option Row :=
  hd_error (filter (fun row => negb (hidden row)) l).

(** The target in the words of the design notes: the focused row when it is
    present and still rendered, else the first row that is not hidden. *)
Definition target_if_rendered (g : Grid) : option Row :=
  match _rowWithFocusedElement g with
  | Some row =>
      if existsb (same_node row) (rows g) then Some row
      else first_visible (rows g)
  | None => first_visible (rows g)
  end.

(** The number of reorder callbacks waiting in a timeout queue. *)
Definition pending_reorders (queue : list (Z * Task)) : nat :=
  List.length
    (filter (fun entry => match snd entry with
                          | TReorderRows => true
                          | TRestoreHeaderTransform _ => false
                          end) queue).

(** ** Sample rows *)

(** A visible row with node identity [i] and logical index [10 + i]. *)
Definition row (i : nat) : Row := mkRow i (10 + Z.of_nat i) false.

(** Five rows for the indexes 10 to 14, rotated by two, on a component
    whose window starts at index 10. *)
Definition rotated_grid : Grid :=
  mkGrid 0 sample_table 40 30 "translate(0px, 0px)" (numeric (Num 600))
    (numeric (Num 16)) (numeric (Num 514)) (Num 0) false false false false
    None undefined false false [row 3; row 4; row 0; row 1; row 2] None 10 0
    false [].

(** The same component while the scroll bar handle is held, and once a
    reorder was asked for in the meantime. *)
Definition dragged_grid : Grid := set___mouseDown true rotated_grid.

Definition dragged_pending_grid : Grid :=
  set___pendingReorder true dragged_grid.

(** One rendered row, and a focused-row reference to a row that is no
    longer rendered. *)
Definition stale_focus_grid : Grid :=
  set_rows [row 0] (set__rowWithFocusedElement (Some (row 7)) rotated_grid).

(** ** Wheel bookkeeping *)

(** Everything the wheel handler reads or writes. *)
Definition wheel_state (g : Grid)
    : nat * Element * (value * value)
      * (number * bool * bool) * (bool * bool * option Z * value) :=
  (self g, table g, (_scrollLineHeight g, _scrollPageHeight g),
   (_deltaYAcc g, _wheelAnimationFrame g, _debouncerWheelAnimationFrame g),
   (_hasResidualMomentum g, _ignoreNewWheel g, _debouncerIgnoreNewWheel g,
    _previousMomentum g)).

(** The event reaches the momentum gate with no room on the surface and with
    a momentum that has not grown. *)
Definition decaying_at_capacity (g : Grid) (e : WheelEvent) : Prop :=
  beyond_capacity g e
  /\ (_wheelAnimationFrame g = false ->
      le (momentumOf g e) (ToNumber (_previousMomentum g)) = true).

(** The sum of the pixel deltas of a burst of wheel events, on top of what
    was accumulated before. *)
Definition accumulated (g : Grid) (burst : list WheelEvent) : number :=
  fold_left (fun acc e => add acc (normalizedDeltaY g e)) burst (_deltaYAcc g).

(** ** Rotations *)

(** [l] turned so that its element at position [k] comes first. *)
Definition rotate (k : nat) (l : list Row) : list Row :=
  skipn k l ++ firstn k l.

(** The rows on the container are those of the snapshot, each once. *)
Definition same_rows (items : list Row) (s : list Row * list DomOp) : Prop :=
  Permutation (fst s) items.

(** ** Drag sessions *)

(** A superclass whose scroll handler leaves the rows and the drag
    bookkeeping of this mixin alone. *)
Definition keeps_rows (handler : Grid -> Grid) : Prop :=
  forall g,
    rows (handler g) = rows g
    /\ __mouseDown (handler g) = __mouseDown g
    /\ __pendingReorder (handler g) = __pendingReorder g.

(** Pressing the mouse on the scroll surface, [k] requests to reorder, and
    the release. *)
Definition drag_session (k : nat) : list Input :=
  MouseDown :: repeat ReorderRows k ++ [MouseUp].

(** What a drag is concerned with. *)
Definition drag_view (g : Grid) : list Row * bool :=
  (rows g, __mouseDown g).

(** ** The last frozen column *)

Module Columns.

(** A column element: the fields [_updateLastFrozen] reads and writes. *)
Record Column := mkColumn {
  _order : Z;
  frozen : bool;
  hidden : bool;
  _lastFrozen : bool
}.

(** The column elements, by identity.  An array of columns holds
    references, so one element may sit in several rows of the tree, and a
    write through one reference is seen through all. *)
Definition Heap := nat -> Column.

Definition write_lastFrozen (ref : nat) (v : bool) (heap : Heap) : Heap :=
  fun id =>
    if Nat.eqb id ref
    then mkColumn (_order (heap ref)) (frozen (heap ref)) (hidden (heap ref)) v
    else heap id.

(** [columnsRow.sort((a, b) => a._order - b._order)]: the sort is stable, so
    each element goes behind those that do not come after it. *)
Fixpoint insert_by_order (heap : Heap) (ref : nat) (sorted : list nat)
    : list nat :=
  match sorted with
  | [] => [ref]
  | r :: rest =>
      if _order (heap r) <=? _order (heap ref)
      then r :: insert_by_order heap ref rest
      else ref :: sorted
  end.

Definition sort_by_order (heap : Heap) (columnsRow : list nat) : list nat :=
  fold_left (fun sorted ref => insert_by_order heap ref sorted) columnsRow [].

(** The [reduce], from position [index] on: every column visited loses its
    mark, and the position of the last one that is frozen and not hidden is
    kept. *)
Fixpoint reduce_lastFrozen (columnsRow : list nat) (index : nat)
    (prev : option nat) (heap : Heap) : option nat * Heap :=
  match columnsRow with
  | [] => (prev, heap)
  | col :: rest =>
      let heap := write_lastFrozen col false heap in
      reduce_lastFrozen rest (S index)
        (if frozen (heap col) && negb (hidden (heap col))
         then Some index else prev)
        heap
  end.

(** [_updateLastFrozen()], on the heap of column elements and
    [this._columnTree]; the flag tells whether the call threw, which it does
    on a tree with no row ([undefined.slice]). *)
Definition _updateLastFrozen (_columnTree : option (list (list nat)))
    (heap : Heap) : Heap * bool :=
  match _columnTree with
  | None => (heap, false)
  | Some tree =>
      match nth_error tree (List.length tree - 1) with
      | None => (heap, true)
      | Some lastRow =>
          let columnsRow := sort_by_order heap lastRow in
          let '(lastFrozen, heap) :=
            reduce_lastFrozen columnsRow 0 None heap in
          match lastFrozen with
          | Some index =>
              match nth_error columnsRow index with
              | Some col => (write_lastFrozen col true heap, false)
              | None => (heap, true)
              end
          | None => (heap, false)
          end
      end
  end.

(** A column that counts: frozen and not hidden. *)
Definition frozen_visible (c : Column) : bool := frozen c && negb (hidden c).

(** Two heaps hold the same columns. *)
Definition same_heap (h1 h2 : Heap) : Prop := forall id, h1 id = h2 id.

(** What the [reduce] computes, told apart: the position kept ... *)
Fixpoint last_frozen_visible (heap : Heap) (columnsRow : list nat)
    (index : nat) (prev : option nat) : option nat :=
  match columnsRow with
  | [] => prev
  | col :: rest =>
      last_frozen_visible heap rest (S index)
        (if frozen_visible (heap col) then Some index else prev)
  end.

(** ... and the heap with the marks of the visited columns taken off. *)
Definition unmarked (columnsRow : list nat) (heap : Heap) : Heap :=
  fun id =>
    if existsb (Nat.eqb id) columnsRow
    then mkColumn (_order (heap id)) (frozen (heap id)) (hidden (heap id))
           false
    else heap id.

(** In display order: no column comes before one of lower [_order]. *)
Definition by_order (heap : Heap) (a b : nat) : Prop :=
  _order (heap a) <= _order (heap b).

(** A sample: four columns in display order 2, 0, 3, 1, of which the second
    and third are frozen and the third is hidden as well. *)
Definition sample_heap : Heap :=
  fun id =>
    match id with
    | 0%nat => mkColumn 20 false false true
    | 1%nat => mkColumn 0 true false false
    | 2%nat => mkColumn 30 true true false
    | _ => mkColumn 10 true false false
    end.

Definition sample_tree : option (list (list nat)) :=
  Some [[0; 1]; [0; 1; 2; 3]]%nat.

End Columns.

(** ** The host of the visual updates *)

(** A cell of the table: whether it carries the [frozen] attribute, and its
    [style.transform]. *)
Record Cell := mkCell { cell_frozen : bool; cell_style_transform : string }.

(** [this.__scrollerMetrics] *)
Record ScrollerMetrics := mkScrollerMetrics {
  metrics_scrollWidth : Z;
  metrics_clientWidth : Z
}.

(** The further fields of [this] that the visual updates read or write. *)
Record Host := mkHost {
  core : Grid;  (* the state modelled so far *)
  overflow_attribute : option string;  (* the host's [overflow] attribute, if set *)
  reordering_attribute : bool;  (* [this.hasAttribute('reordering')] *)
  scrolling_attribute : bool;  (* the [scrolling] attribute of [this.$.scroller] *)
  _debounceOverflow : option string;  (* pending callback, with the [overflow] string it closed over *)
  _scrollingFrame : option nat;  (* handle returned by [requestAnimationFrame] *)
  animationFrameRequests : list nat;  (* handles whose callback has neither run nor been cancelled *)
  lastFrameHandle : nat;  (* the handle given out last *)
  _debounceScrolling : option Z;  (* due time of its pending timeout *)
  _useSticky : bool;
  __isRTL : bool;
  __scrollerMetrics : option ScrollerMetrics;
  footer_offsetHeight : Z;  (* [this.$.footer.offsetHeight] *)
  footer_offsetTop : Z;  (* [this.$.footer.offsetTop] *)
  footer_style_transform : string;  (* [this.$.footer.style.transform] *)
  items_style_transform : string;  (* [this.$.items.style.transform] *)
  cells : list Cell;  (* the elements matching [part~=cell], in document order *)
  _frozenCells : list nat;  (* references into [cells] *)
  _debouncerCacheElements : bool;  (* its microtask callback is pending *)
  _columnTree : option (list (list nat));  (* references into [columns] *)
  columns : Columns.Heap  (* the column elements *)
}.

Definition with_core (v : Grid) (h : Host) : Host :=
  mkHost v (overflow_attribute h) (reordering_attribute h)
    (scrolling_attribute h) (_debounceOverflow h) (_scrollingFrame h)
    (animationFrameRequests h) (lastFrameHandle h) (_debounceScrolling h)
    (_useSticky h) (__isRTL h) (__scrollerMetrics h) (footer_offsetHeight h)
    (footer_offsetTop h) (footer_style_transform h) (items_style_transform
    h) (cells h) (_frozenCells h) (_debouncerCacheElements h) (_columnTree
    h) (columns h).

Definition with_overflow_attribute (v : option string) (h : Host) : Host :=
  mkHost (core h) v (reordering_attribute h) (scrolling_attribute h)
    (_debounceOverflow h) (_scrollingFrame h) (animationFrameRequests h)
    (lastFrameHandle h) (_debounceScrolling h) (_useSticky h) (__isRTL h)
    (__scrollerMetrics h) (footer_offsetHeight h) (footer_offsetTop h)
    (footer_style_transform h) (items_style_transform h) (cells h)
    (_frozenCells h) (_debouncerCacheElements h) (_columnTree h) (columns h).

Definition with_scrolling_attribute (v : bool) (h : Host) : Host :=
  mkHost (core h) (overflow_attribute h) (reordering_attribute h) v
    (_debounceOverflow h) (_scrollingFrame h) (animationFrameRequests h)
    (lastFrameHandle h) (_debounceScrolling h) (_useSticky h) (__isRTL h)
    (__scrollerMetrics h) (footer_offsetHeight h) (footer_offsetTop h)
    (footer_style_transform h) (items_style_transform h) (cells h)
    (_frozenCells h) (_debouncerCacheElements h) (_columnTree h) (columns h).

Definition with__debounceOverflow (v : option string) (h : Host) : Host :=
  mkHost (core h) (overflow_attribute h) (reordering_attribute h)
    (scrolling_attribute h) v (_scrollingFrame h) (animationFrameRequests h)
    (lastFrameHandle h) (_debounceScrolling h) (_useSticky h) (__isRTL h)
    (__scrollerMetrics h) (footer_offsetHeight h) (footer_offsetTop h)
    (footer_style_transform h) (items_style_transform h) (cells h)
    (_frozenCells h) (_debouncerCacheElements h) (_columnTree h) (columns h).

Definition with__scrollingFrame (v : option nat) (h : Host) : Host :=
  mkHost (core h) (overflow_attribute h) (reordering_attribute h)
    (scrolling_attribute h) (_debounceOverflow h) v (animationFrameRequests
    h) (lastFrameHandle h) (_debounceScrolling h) (_useSticky h) (__isRTL h)
    (__scrollerMetrics h) (footer_offsetHeight h) (footer_offsetTop h)
    (footer_style_transform h) (items_style_transform h) (cells h)
    (_frozenCells h) (_debouncerCacheElements h) (_columnTree h) (columns h).

Definition with_animationFrameRequests (v : list nat) (h : Host) : Host :=
  mkHost (core h) (overflow_attribute h) (reordering_attribute h)
    (scrolling_attribute h) (_debounceOverflow h) (_scrollingFrame h) v
    (lastFrameHandle h) (_debounceScrolling h) (_useSticky h) (__isRTL h)
    (__scrollerMetrics h) (footer_offsetHeight h) (footer_offsetTop h)
    (footer_style_transform h) (items_style_transform h) (cells h)
    (_frozenCells h) (_debouncerCacheElements h) (_columnTree h) (columns h).

Definition with_lastFrameHandle (v : nat) (h : Host) : Host :=
  mkHost (core h) (overflow_attribute h) (reordering_attribute h)
    (scrolling_attribute h) (_debounceOverflow h) (_scrollingFrame h)
    (animationFrameRequests h) v (_debounceScrolling h) (_useSticky h)
    (__isRTL h) (__scrollerMetrics h) (footer_offsetHeight h)
    (footer_offsetTop h) (footer_style_transform h) (items_style_transform
    h) (cells h) (_frozenCells h) (_debouncerCacheElements h) (_columnTree
    h) (columns h).

Definition with__debounceScrolling (v : option Z) (h : Host) : Host :=
  mkHost (core h) (overflow_attribute h) (reordering_attribute h)
    (scrolling_attribute h) (_debounceOverflow h) (_scrollingFrame h)
    (animationFrameRequests h) (lastFrameHandle h) v (_useSticky h) (__isRTL
    h) (__scrollerMetrics h) (footer_offsetHeight h) (footer_offsetTop h)
    (footer_style_transform h) (items_style_transform h) (cells h)
    (_frozenCells h) (_debouncerCacheElements h) (_columnTree h) (columns h).

Definition with___scrollerMetrics (v : option ScrollerMetrics) (h : Host) : Host :=
  mkHost (core h) (overflow_attribute h) (reordering_attribute h)
    (scrolling_attribute h) (_debounceOverflow h) (_scrollingFrame h)
    (animationFrameRequests h) (lastFrameHandle h) (_debounceScrolling h)
    (_useSticky h) (__isRTL h) v (footer_offsetHeight h) (footer_offsetTop
    h) (footer_style_transform h) (items_style_transform h) (cells h)
    (_frozenCells h) (_debouncerCacheElements h) (_columnTree h) (columns h).

Definition with_footer_style_transform (v : string) (h : Host) : Host :=
  mkHost (core h) (overflow_attribute h) (reordering_attribute h)
    (scrolling_attribute h) (_debounceOverflow h) (_scrollingFrame h)
    (animationFrameRequests h) (lastFrameHandle h) (_debounceScrolling h)
    (_useSticky h) (__isRTL h) (__scrollerMetrics h) (footer_offsetHeight h)
    (footer_offsetTop h) v (items_style_transform h) (cells h) (_frozenCells
    h) (_debouncerCacheElements h) (_columnTree h) (columns h).

Definition with_items_style_transform (v : string) (h : Host) : Host :=
  mkHost (core h) (overflow_attribute h) (reordering_attribute h)
    (scrolling_attribute h) (_debounceOverflow h) (_scrollingFrame h)
    (animationFrameRequests h) (lastFrameHandle h) (_debounceScrolling h)
    (_useSticky h) (__isRTL h) (__scrollerMetrics h) (footer_offsetHeight h)
    (footer_offsetTop h) (footer_style_transform h) v (cells h)
    (_frozenCells h) (_debouncerCacheElements h) (_columnTree h) (columns h).

Definition with_cells (v : list Cell) (h : Host) : Host :=
  mkHost (core h) (overflow_attribute h) (reordering_attribute h)
    (scrolling_attribute h) (_debounceOverflow h) (_scrollingFrame h)
    (animationFrameRequests h) (lastFrameHandle h) (_debounceScrolling h)
    (_useSticky h) (__isRTL h) (__scrollerMetrics h) (footer_offsetHeight h)
    (footer_offsetTop h) (footer_style_transform h) (items_style_transform
    h) v (_frozenCells h) (_debouncerCacheElements h) (_columnTree h)
    (columns h).

Definition with__frozenCells (v : list nat) (h : Host) : Host :=
  mkHost (core h) (overflow_attribute h) (reordering_attribute h)
    (scrolling_attribute h) (_debounceOverflow h) (_scrollingFrame h)
    (animationFrameRequests h) (lastFrameHandle h) (_debounceScrolling h)
    (_useSticky h) (__isRTL h) (__scrollerMetrics h) (footer_offsetHeight h)
    (footer_offsetTop h) (footer_style_transform h) (items_style_transform
    h) (cells h) v (_debouncerCacheElements h) (_columnTree h) (columns h).

Definition with__debouncerCacheElements (v : bool) (h : Host) : Host :=
  mkHost (core h) (overflow_attribute h) (reordering_attribute h)
    (scrolling_attribute h) (_debounceOverflow h) (_scrollingFrame h)
    (animationFrameRequests h) (lastFrameHandle h) (_debounceScrolling h)
    (_useSticky h) (__isRTL h) (__scrollerMetrics h) (footer_offsetHeight h)
    (footer_offsetTop h) (footer_style_transform h) (items_style_transform
    h) (cells h) (_frozenCells h) v (_columnTree h) (columns h).

Definition with_columns (v : Columns.Heap) (h : Host) : Host :=
  mkHost (core h) (overflow_attribute h) (reordering_attribute h)
    (scrolling_attribute h) (_debounceOverflow h) (_scrollingFrame h)
    (animationFrameRequests h) (lastFrameHandle h) (_debounceScrolling h)
    (_useSticky h) (__isRTL h) (__scrollerMetrics h) (footer_offsetHeight h)
    (footer_offsetTop h) (footer_style_transform h) (items_style_transform
    h) (cells h) (_frozenCells h) (_debouncerCacheElements h) (_columnTree
    h) v.

(** What the mixin inherits and this file does not define: the
    [_scrollLeft] getter of the scroll-target behaviour and the
    direction-aware [__getNormalizedScrollLeft]. *)
Class Inherited := {
  _scrollLeft : Host -> Z;
  __getNormalizedScrollLeft : Host -> Element -> Z
}.

(** [String.prototype.trim], on ASCII white space. *)
Fixpoint string_rev (s : string) (acc : string) : string :=
  match s with
  | EmptyString => acc
  | String c rest => string_rev rest (String c acc)
  end.

Definition trim (s : string) : string :=
  string_rev
    (ParseInt.skip_spaces (string_rev (ParseInt.skip_spaces s) EmptyString))
    EmptyString.

(** A number in a template literal. *)
Definition decimal (z : Z) : string := NilZero.string_of_int (Z.to_int z).

(** [_getTranslate(x, y)] *)
Definition _getTranslate (x y : Z) : string :=
  ("translate(" ++ decimal x ++ "px, " ++ decimal y ++ "px)")%string.

(** [cells[ref].style.transform = transform] *)
Fixpoint write_cell_transform (ref : nat) (transform : string)
    (cells : list Cell) : list Cell :=
  match cells, ref with
  | [], _ => []
  | c :: rest, O => mkCell (cell_frozen c) transform :: rest
  | c :: rest, S ref' => c :: write_cell_transform ref' transform rest
  end.

(** [querySelectorAll('[frozen]')], as references into [cells], from
    position [at_] on. *)
Fixpoint frozen_refs (at_ : nat) (cells : list Cell) : list nat :=
  match cells with
  | [] => []
  | c :: rest =>
      if cell_frozen c then at_ :: frozen_refs (S at_) rest
      else frozen_refs (S at_) rest
  end.

(** Modelled from the spec: [_toggleAttribute(name, bool, node)] is defined
    outside this file; the design notes have it set the scrolling-in-progress
    indicator when [bool] is true and clear it when false. *)
Definition _toggleAttribute_scrolling (bool : bool) (h : Host) : Host :=
  with_scrolling_attribute bool h.

Section VisualUpdates.

Context {inherited : Inherited}.

(** [_translateStationaryElements()]; the flag tells whether it threw. *)
Definition _translateStationaryElements (h : Host) : Host * bool :=
  let scrollLeft := Z.max 0 (_scrollLeft h) in
  let scrollTop_ := Z.max 0 (scrollTop (table (core h))) in
  let '(leftOffset, topOffset, footerOffset) :=
    if negb (_useSticky h) then
      (scrollLeft, scrollTop_,
       clientHeight (table (core h)) - footer_offsetHeight h
       - footer_offsetTop h)
    else (0, 0, 0) in
  let h := with_core
             (set_header_style_transform
                (_getTranslate (- scrollLeft + leftOffset) topOffset) (core h))
             h in
  let h := with_footer_style_transform
             (_getTranslate (- scrollLeft + leftOffset)
                (topOffset + footerOffset)) h in
  let h := with_items_style_transform
             (_getTranslate (- scrollLeft + leftOffset) 0) h in
  if (0 <? List.length (_frozenCells h))%nat then
    let x :=
      if __isRTL h then
        match __scrollerMetrics h with
        | Some metrics =>
            Some (__getNormalizedScrollLeft h (table (core h))
                  + metrics_clientWidth metrics - metrics_scrollWidth metrics)
        | None => None
        end
      else Some (_scrollLeft h) in
    match x with
    | Some x =>
        let frozenCellTransform := _getTranslate x 0 in
        (with_cells
           (fold_left
              (fun cells ref => write_cell_transform ref frozenCellTransform cells)
              (_frozenCells h) (cells h))
           h, false)
    | None => (h, true)
    end
  else (h, false).

(** [_updateScrollerMeasurements()] *)
Definition _updateScrollerMeasurements (h : Host) : Host :=
  if (0 <? List.length (_frozenCells h))%nat && __isRTL h then
    with___scrollerMetrics
      (Some (mkScrollerMetrics (scrollWidth (table (core h)))
               (clientWidth (table (core h))))) h
  else h.

(** [_updateLastFrozen()] on the host's columns. *)
Definition host_updateLastFrozen (h : Host) : Host * bool :=
  let '(heap, failed) := Columns._updateLastFrozen (_columnTree h) (columns h) in
  (with_columns heap h, failed).

(** [_frozenCellsChanged()]: the cache rebuild is left to a microtask, the
    last frozen column is settled at once. *)
Definition _frozenCellsChanged (h : Host) : Host * bool :=
  host_updateLastFrozen (with__debouncerCacheElements true h).

(** The callback of [_debouncerCacheElements]. *)
Definition rebuildFrozenCells (h : Host) : Host * bool :=
  let h := with_cells
             (map (fun c => mkCell (cell_frozen c) EmptyString) (cells h)) h in
  let h := with__frozenCells (frozen_refs 0 (cells h)) h in
  let h := _updateScrollerMeasurements h in
  _translateStationaryElements h.

(** The string built by [_updateOverflow] before it is trimmed. *)
Definition overflowOf (table : Element) : string :=
  let overflow := EmptyString in
  let overflow :=
    if scrollTop table <? scrollHeight table - clientHeight table
    then (overflow ++ " bottom")%string else overflow in
  let overflow :=
    if scrollTop table >? 0 then (overflow ++ " top")%string else overflow in
  let overflow :=
    if scrollLeft table <? scrollWidth table - clientWidth table
    then (overflow ++ " right")%string else overflow in
  if scrollLeft table >? 0 then (overflow ++ " left")%string else overflow.

(** [_updateOverflow()] *)
Definition _updateOverflow (h : Host) : Host :=
  with__debounceOverflow (Some (overflowOf (table (core h)))) h.

(** The callback of [_debounceOverflow], for the string it closed over;
    [getAttribute] of an absent attribute is [null], which differs from
    every string. *)
Definition applyOverflow (overflow : string) (h : Host) : Host :=
  let value := trim overflow in
  if (0 <? String.length value)%nat
     && negb match overflow_attribute h with
             | Some current => String.eqb current value
             | None => false
             end
  then with_overflow_attribute (Some value) h
  else if (String.length value =? 0)%nat
          && match overflow_attribute h with Some _ => true | None => false end
  then with_overflow_attribute None h
  else h.

(** [_scheduleScrolling()] at time [now] *)
Definition _scheduleScrolling (now : Z) (h : Host) : Host :=
  let h :=
    match _scrollingFrame h with
    | None =>
        let handle := S (lastFrameHandle h) in
        with__scrollingFrame (Some handle)
          (with_animationFrameRequests (animationFrameRequests h ++ [handle])
             (with_lastFrameHandle handle h))
    | Some _ => h
    end in
  with__debounceScrolling (Some (now + timeouts_ms.SCROLLING)) h.

(** [cancelAnimationFrame(handle)]; cancelling [undefined] does nothing. *)
Definition cancelAnimationFrame (handle : option nat) (h : Host) : Host :=
  match handle with
  | Some id =>
      with_animationFrameRequests
        (filter (fun r => negb (Nat.eqb r id)) (animationFrameRequests h)) h
  | None => h
  end.

(** The callback of [_debounceScrolling] at time [now]. *)
Definition settleScrolling (now : Z) (h : Host) : Host :=
  let h := cancelAnimationFrame (_scrollingFrame h) h in
  let h := with__scrollingFrame None h in
  let h := _toggleAttribute_scrolling false h in
  with_core (grid_after (_reorderRows now (core h))) h.

(** [_afterScroll()] at time [now] *)
Definition _afterScroll (now : Z) (h : Host) : Host * bool :=
  let '(h, failed) := _translateStationaryElements h in
  if failed then (h, true)
  else
    let h := if negb (reordering_attribute h) then _scheduleScrolling now h
             else h in
    (_updateOverflow h, false).

(** *** The event loop of the visual updates *)

Record HostWorld := mkHostWorld { host : Host; time : Z }.

Inductive HostInput :=
  | AfterScroll
  | FrozenCellsChanged
  | Microtasks
  | Frame
  | Wait (ms : nat)
  | Press
  | Release.

(** An animation frame: the requested callbacks run, each raising the
    [scrolling] attribute, then the overflow debouncer's. *)
Definition runFrame (h : Host) : Host :=
  let h :=
    match animationFrameRequests h with
    | [] => h
    | _ :: _ =>
        with_animationFrameRequests [] (_toggleAttribute_scrolling true h)
    end in
  let h :=
    match _debounceOverflow h with
    | Some overflow => applyOverflow overflow (with__debounceOverflow None h)
    | None => h
    end in
  with_core (flushWheelAnimationFrame (core h)) h.

(** Time passing: the plain timeouts that came due run, then the settle
    callback if its delay is over. *)
Definition runTimers (now : Z) (h : Host) : Host :=
  let h := with_core
             (runDueTimeouts now (expireIgnoreNewWheel now (core h))) h in
  match _debounceScrolling h with
  | Some due =>
      if due <=? now
      then settleScrolling now (with__debounceScrolling None h)
      else h
  | None => h
  end.

Definition host_step (w : HostWorld) (i : HostInput) : HostWorld :=
  let now := time w in
  let h := host w in
  match i with
  | AfterScroll => mkHostWorld (fst (_afterScroll now h)) now
  | FrozenCellsChanged => mkHostWorld (fst (_frozenCellsChanged h)) now
  | Microtasks =>
      mkHostWorld
        (if _debouncerCacheElements h
         then fst (rebuildFrozenCells (with__debouncerCacheElements false h))
         else h) now
  | Frame => mkHostWorld (runFrame h) now
  | Wait ms => mkHostWorld (runTimers (now + Z.of_nat ms) h) (now + Z.of_nat ms)
  | Press => mkHostWorld (with_core (on_mousedown (core h)) h) now
  | Release => mkHostWorld (with_core (on_mouseup now (core h)) h) now
  end.

Definition host_run (w : HostWorld) (inputs : list HostInput) : HostWorld :=
  fold_left host_step inputs w.

End VisualUpdates.

(** ** Vocabulary of the visual updates *)

(** The edges towards which a scroll surface can still move, in the order
    in which [_updateOverflow] names them. *)
Definition edges (table : Element) : list string :=
  (if scrollTop table <? scrollHeight table - clientHeight table
   then ["bottom"%string] else [])
  ++ (if scrollTop table >? 0 then ["top"%string] else [])
  ++ (if scrollLeft table <? scrollWidth table - clientWidth table
      then ["right"%string] else [])
  ++ (if scrollLeft table >? 0 then ["left"%string] else []).

(** Words separated by single spaces. *)
Fixpoint spaced (words : list string) : string :=
  match words with
  | [] => EmptyString
  | [word] => word
  | word :: rest => (word ++ " " ++ spaced rest)%string
  end.

(** The [overflow] attribute that fits a scroll surface: absent when no edge
    is left. *)
Definition overflow_for (table : Element) : option string :=
  match edges table with
  | [] => None
  | words => Some (spaced words)
  end.

(** The element's box is at least as large as its client area. *)
Definition box_covers_client (el : Element) : Prop :=
  clientHeight el <= offsetHeight el /\ clientWidth el <= offsetWidth el.

(** [_translateStationaryElements] finds what it reads: there are no frozen
    cells, or the direction is left-to-right, or the scroller metrics have
    been taken. *)
Definition translate_safe (h : Host) : Prop :=
  _frozenCells h = [] \/ __isRTL h = false \/ __scrollerMetrics h <> None.

(** What the scrolling-state scheduler keeps. *)
Definition scheduler_view (h : Host)
    : option nat * list nat * nat * option Z * (bool * bool) :=
  (_scrollingFrame h, animationFrameRequests h, lastFrameHandle h,
   _debounceScrolling h, (scrolling_attribute h, reordering_attribute h)).

(** What decides whether the translation can throw. *)
Definition frozen_view (h : Host)
    : list nat * bool * option ScrollerMetrics :=
  (_frozenCells h, __isRTL h, __scrollerMetrics h).

(** A burst of scrolling: after each pause, possibly an animation frame, and
    then the next call of [_afterScroll]. *)
Definition scroll_burst (pauses : list (nat * bool)) : list HostInput :=
  flat_map
    (fun pause : nat * bool =>
       Wait (fst pause) :: (if snd pause then [Frame] else []) ++ [AfterScroll])
    pauses.

Definition total_pause (pauses : list (nat * bool)) : Z :=
  fold_right (fun (pause : nat * bool) sum => Z.of_nat (fst pause) + sum) 0
    pauses.

(** The state of the scheduler in the middle of a burst. *)
Definition scrolling_since (first : nat) (w : HostWorld) : Prop :=
  _debounceScrolling (host w) = Some (time w + timeouts_ms.SCROLLING)
  /\ _scrollingFrame (host w) = Some first
  /\ lastFrameHandle (host w) = first
  /\ reordering_attribute (host w) = false
  /\ translate_safe (host w).


(** A cell with its transform replaced. *)
Definition translated (transform : string) (c : Cell) : Cell :=
  mkCell (cell_frozen c) transform.

(** ** Sample data of the visual updates *)

(** A superclass whose horizontal position is the table's. *)
Definition plainInherited : Inherited :=
  {| _scrollLeft := fun h => scrollLeft (table (core h));
     __getNormalizedScrollLeft := fun _ el => scrollLeft el |}.

(** The rotated grid with four cells, the first and the third frozen, in a
    left-to-right layout with sticky positioning, at rest. *)
Definition sample_host : Host :=
  mkHost rotated_grid None false false None None [] 0 None true false None
    30 270 EmptyString EmptyString
    [mkCell true EmptyString; mkCell false EmptyString;
     mkCell true EmptyString; mkCell false EmptyString]
    [0; 2]%nat false Columns.sample_tree Columns.sample_heap.

(** The same host in the scrolling state: frame 1 requested, the settle
    timer due at 500. *)
Definition scrolling_host : Host :=
  with__debounceScrolling (Some 500)
    (with__scrollingFrame (Some 1%nat)
       (with_animationFrameRequests [1%nat]
          (with_lastFrameHandle 1 (with_scrolling_attribute true sample_host)))).

(** The scrolling host while the scroll bar handle is held. *)
Definition dragged_host : Host := with_core dragged_grid scrolling_host.

(** A fresh grid whose surface is at the end of its content. *)
Definition fresh_bottomed_grid : Grid := set_table bottomed_table sample_grid.

(** * Properties *)

(** ** Numbers *)

Lemma gt_zero_Num (n : number) :
  gt n (Num 0) = true <-> exists z, n = Num z /\ 0 < z.
Proof.
  destruct n as [z|]; unfold gt; simpl.
  - rewrite Z.ltb_lt. split.
    + intros H. exists z. split; [reflexivity | exact H].
    + intros [z' [E H]]. injection E as ->. exact H.
  - split; [discriminate | intros [z [E _]]; discriminate].
Qed.

Lemma lt_zero_Num (n : number) :
  lt n (Num 0) = true <-> exists z, n = Num z /\ z < 0.
Proof.
  destruct n as [z|]; simpl.
  - rewrite Z.ltb_lt. split.
    + intros H. exists z. split; [reflexivity | exact H].
    + intros [z' [E H]]. injection E as ->. exact H.
  - split; [discriminate | intros [z [E _]]; discriminate].
Qed.

Lemma mul_NaN_r (n : number) : mul n NaN = NaN.
Proof. destruct n; reflexivity. Qed.

Lemma add_NaN_l (n : number) : add NaN n = NaN.
Proof. reflexivity. Qed.

(** ** The capacity test *)

Lemma _canScroll_NaN (el : Element) (dx : number) :
  _canScroll el dx NaN = _canScroll el dx (Num 0).
Proof. reflexivity. Qed.

(** C1, as the code has it: the test is a function of the element's scroll
    metrics alone and holds exactly when the delta points up or left and the
    offset is above zero, or points down or right and the offset is below
    the scroll size minus the element's OFFSET height or width (border and
    scroll bar included).  At scrollTop = 0 with scrollHeight = 1000 and a
    height of 400, a delta of dy = -50 is refused. *)
Theorem canScroll_characterization :
  (forall el dx dy,
      _canScroll el dx dy = true <->
      (positive dy /\ scrollTop el < scrollHeight el - offsetHeight el)
      \/ (negative dy /\ scrollTop el > 0)
      \/ (positive dx /\ scrollLeft el < scrollWidth el - offsetWidth el)
      \/ (negative dx /\ scrollLeft el > 0))
  /\ (forall el,
        scrollTop el = 0 -> _canScroll el (Num 0) (Num (-50)) = false).
Proof.
  split.
  - intros el dx dy. unfold _canScroll, positive, negative.
    rewrite !orb_true_iff, !andb_true_iff.
    rewrite !gt_zero_Num, !lt_zero_Num, !Z.ltb_lt, !Z.gtb_gt.
    tauto.
  - intros el Htop. unfold _canScroll. rewrite Htop. reflexivity.
Qed.

Lemma canScroll_characterization_witness :
  _canScroll box_at_top (Num 0) (Num (-50)) = false.
Proof. exact (proj2 canScroll_characterization box_at_top eq_refl). Defined.

(** C1 as worded fails: with a border, the client-box test still sees one
    pixel of room where [_canScroll] sees none. *)
Lemma canScroll_not_client_box :
  capacity_by_client_box bordered_box (Num 0) (Num 1) = true
  /\ _canScroll bordered_box (Num 0) (Num 1) = false.
Proof. split; reflexivity. Qed.

(** ** The ancestor walk *)

Lemma depth_parent (el parent : Element) :
  parentElement el = Some parent -> depth el = S (depth parent).
Proof. destruct el as [? ? ? ? ? ? ? ? ? ? ? p]; simpl. intros ->. reflexivity. Qed.

(** Induction along [parentElement]. *)
Lemma Element_parent_ind (P : Element -> Prop) :
  (forall el,
      (forall parent, parentElement el = Some parent -> P parent) -> P el) ->
  forall el, P el.
Proof.
  intros step el.
  remember (depth el) as n eqn:Hn.
  revert el Hn. induction n as [|n IH]; intros el Hn; apply step;
    intros parent Hp; rewrite (depth_parent _ _ Hp) in Hn.
  - discriminate.
  - apply IH. congruence.
Qed.

Lemma _hasScrolledAncestor_unfold (this : nat) (el : Element) (dx dy : number) :
  _hasScrolledAncestor this el dx dy =
  if is_cell_content el then boolean false
  else if _canScroll el dx dy && overflow_scrolls el then boolean true
  else if negb (Nat.eqb (node el) this) then
    match parentElement el with
    | Some parent => _hasScrolledAncestor this parent dx dy
    | None => undefined
    end
  else undefined.
Proof. destruct el; reflexivity. Qed.

Lemma chain_unfold (this : nat) (el : Element) :
  chain this el =
  el :: (if Nat.eqb (node el) this then []
         else match parentElement el with
              | Some parent => chain this parent
              | None => []
              end).
Proof. destruct el; reflexivity. Qed.

(** The walk answers [true] exactly when some element of the chain scrolls
    the delta and no element up to and including it is cell content. *)
Lemma _hasScrolledAncestor_true_iff (this : nat) (dx dy : number) :
  forall el,
    _hasScrolledAncestor this el dx dy = boolean true <->
    exists before x after,
      chain this el = before ++ x :: after
      /\ Forall (fun y => is_cell_content y = false) (before ++ [x])
      /\ _canScroll x dx dy = true
      /\ overflow_scrolls x = true.
Proof.
  induction el as [el IH] using Element_parent_ind.
  rewrite _hasScrolledAncestor_unfold, chain_unfold.
  destruct (is_cell_content el) eqn:Hcell.
  { split; [discriminate|].
    intros (before & x & after & Hc & Hall & _).
    exfalso. destruct before as [|b before]; simpl in Hc, Hall;
      injection Hc as <- _; inversion Hall; congruence. }
  destruct (_canScroll el dx dy && overflow_scrolls el) eqn:Hcan.
  { split; [intros _|reflexivity].
    apply andb_true_iff in Hcan as [Hc Ho].
    exists [], el. eexists. repeat split; [|exact Hc|exact Ho].
    constructor; [exact Hcell|constructor]. }
  assert (Hhere : forall x, x = el ->
            ~ (_canScroll x dx dy = true /\ overflow_scrolls x = true)).
  { intros x -> [Hc Ho]. rewrite Hc, Ho in Hcan. discriminate. }
  destruct (Nat.eqb (node el) this); simpl.
  { split; [discriminate|].
    intros (before & x & after & Hc & _ & Hcs & Hos).
    exfalso. destruct before as [|b before]; simpl in Hc.
    - injection Hc as <- _. exact (Hhere _ eq_refl (conj Hcs Hos)).
    - injection Hc as _ Hc. destruct before; discriminate. }
  destruct (parentElement el) as [parent|] eqn:Hp.
  - rewrite (IH parent eq_refl). split.
    + intros (before & x & after & Hc & Hall & Hcs & Hos).
      exists (el :: before), x, after. rewrite Hc.
      repeat split; [|exact Hcs|exact Hos].
      simpl. constructor; [exact Hcell|exact Hall].
    + intros (before & x & after & Hc & Hall & Hcs & Hos).
      destruct before as [|b before]; simpl in Hc, Hall.
      * injection Hc as <- _. exfalso. exact (Hhere _ eq_refl (conj Hcs Hos)).
      * injection Hc as <- Hc. exists before, x, after.
        inversion Hall; subst. repeat split; assumption.
  - split; [discriminate|].
    intros (before & x & after & Hc & _ & Hcs & Hos).
    exfalso. destruct before as [|b before]; simpl in Hc.
    + injection Hc as <- _. exact (Hhere _ eq_refl (conj Hcs Hos)).
    + injection Hc as _ Hc. destruct before; discriminate.
Qed.

(** A walk that arrives at cell content answers [false]. *)
Lemma _hasScrolledAncestor_reaches_cell (this : nat) (dx dy : number) :
  forall el before cell after,
    chain this el = before ++ cell :: after ->
    is_cell_content cell = true ->
    Forall (fun y => is_cell_content y = false
                     /\ _canScroll y dx dy && overflow_scrolls y = false)
      before ->
    _hasScrolledAncestor this el dx dy = boolean false.
Proof.
  induction el as [el IH] using Element_parent_ind.
  intros before cell after Hc Hcell Hall.
  rewrite _hasScrolledAncestor_unfold. rewrite chain_unfold in Hc.
  destruct before as [|b before]; simpl in Hc.
  - injection Hc as <- _. rewrite Hcell. reflexivity.
  - injection Hc as <- Hc. inversion Hall as [|? ? [Hb1 Hb2] Hrest]; subst.
    rewrite Hb1, Hb2.
    destruct (Nat.eqb (node el) this); simpl.
    + destruct before; discriminate.
    + destruct (parentElement el) as [parent|] eqn:Hp.
      * exact (IH parent eq_refl before cell after Hc Hcell Hrest).
      * destruct before; discriminate.
Qed.

(** C9: a walk that arrives at the cell-content element answers [false],
    whatever that element's scroll capacity and computed overflow are; the
    answer [true] is given only for an element of the walk that has capacity
    for the delta and a computed overflow of auto or scroll, with no cell
    content at or before it. *)
Theorem hasScrolledAncestor_stops_at_cell_content :
  forall this dx dy el,
    (is_cell_content el = true ->
     _hasScrolledAncestor this el dx dy = boolean false)
    /\ (forall before cell after,
           chain this el = before ++ cell :: after ->
           is_cell_content cell = true ->
           Forall (fun y => is_cell_content y = false
                            /\ _canScroll y dx dy && overflow_scrolls y = false)
             before ->
           _hasScrolledAncestor this el dx dy = boolean false)
    /\ (_hasScrolledAncestor this el dx dy = boolean true <->
        exists before x after,
          chain this el = before ++ x :: after
          /\ Forall (fun y => is_cell_content y = false) (before ++ [x])
          /\ _canScroll x dx dy = true
          /\ overflow_scrolls x = true).
Proof.
  intros this dx dy el. split; [|split].
  - intros Hcell. rewrite _hasScrolledAncestor_unfold, Hcell. reflexivity.
  - apply _hasScrolledAncestor_reaches_cell.
  - apply _hasScrolledAncestor_true_iff.
Qed.

Lemma hasScrolledAncestor_stops_at_cell_content_witness :
  _hasScrolledAncestor 0 scrolling_cell_content (Num 0) (Num 10)
  = boolean false
  /\ _hasScrolledAncestor 0 list_in_cell (Num 0) (Num 10) = boolean true
  /\ _hasScrolledAncestor 0 text_in_cell (Num 0) (Num 10) = boolean false.
Proof.
  split; [|split].
  - exact (proj1 (hasScrolledAncestor_stops_at_cell_content 0 (Num 0) (Num 10)
                    scrolling_cell_content) eq_refl).
  - apply (proj2 (proj2 (hasScrolledAncestor_stops_at_cell_content 0 (Num 0)
                           (Num 10) list_in_cell))).
    exists [], list_in_cell, [scrolling_cell_content; host_element].
    repeat split. repeat constructor.
  - apply (proj1 (proj2 (hasScrolledAncestor_stops_at_cell_content 0 (Num 0)
                           (Num 10) text_in_cell))
             [text_in_cell] scrolling_cell_content [host_element]);
      [reflexivity|reflexivity|].
    constructor; [split; reflexivity|constructor].
Defined.

(** ** The wheel handler *)

Section WheelHandler.

Context {browser : Browser} {superClass : SuperClass}.

Lemma skipsWheel_ctrl (g : Grid) (e : WheelEvent) :
  ctrlKey e = true -> skipsWheel g e = true.
Proof. intros H. unfold skipsWheel. rewrite H. reflexivity. Qed.

(** C10: a wheel event with the control key set makes the handler return at
    once: the default is not prevented and the component is left as it was,
    scroll offsets, accumulated delta, residual-momentum flag and previous
    momentum included. *)
Theorem ctrl_wheel_returns_at_once :
  forall now g e,
    ctrlKey e = true ->
    _onWheel now e g = (g, false)
    /\ scrollTop (table (fst (_onWheel now e g))) = scrollTop (table g)
    /\ scrollLeft (table (fst (_onWheel now e g))) = scrollLeft (table g)
    /\ _deltaYAcc (fst (_onWheel now e g)) = _deltaYAcc g
    /\ _hasResidualMomentum (fst (_onWheel now e g)) = _hasResidualMomentum g
    /\ _previousMomentum (fst (_onWheel now e g)) = _previousMomentum g.
Proof.
  intros now g e Hctrl.
  assert (E : _onWheel now e g = (g, false)).
  { unfold _onWheel. rewrite (skipsWheel_ctrl g e Hctrl). reflexivity. }
  rewrite E. repeat split.
Qed.

(** The handler leaves the table alone unless it gets to the capacity test
    and the test succeeds. *)
Lemma _onWheel_table_untouched (now : Z) (g : Grid) (e : WheelEvent) :
  skipsWheel g e = true
  \/ _wheelAnimationFrame g = true
  \/ _canScroll (table g) (deltaX e) (foldedDeltaY g e) = false ->
  table (fst (_onWheel now e g)) = table g.
Proof.
  unfold _onWheel, foldedDeltaY. intros H.
  destruct (skipsWheel g e); [reflexivity|].
  destruct (_wheelAnimationFrame g); [reflexivity|].
  destruct H as [H|[H|H]]; try discriminate.
  simpl. rewrite H.
  destruct ((_hasResidualMomentum g
             && le (add (abs (deltaX e))
                      (abs (add (normalizedDeltaY g e) (_deltaYAcc g))))
                  (ToNumber (_previousMomentum g)))
            || _ignoreNewWheel g); [reflexivity|].
  destruct (gt _ _); reflexivity.
Qed.

(** *** Delta normalisation *)

(** C7: when the viewport height changes, the page height becomes the
    viewport height minus the header height, the footer height and the line
    height; a viewport of 600 with a header of 40, a footer of 30 and a line
    height of 16 gives 514, and a PAGE-mode event with a raw delta of 1 is
    then normalised to a pixel delta of 514. *)
Theorem page_height_follows_viewport :
  forall g v line,
    _scrollLineHeight g = numeric (Num line) ->
    _viewportHeight g <> numeric (Num v) ->
    _scrollPageHeight (assign_viewportHeight (numeric (Num v)) g)
    = numeric (Num (v - header_clientHeight g - footer_clientHeight g - line))
    /\ (forall e,
          deltaMode e = DOM_DELTA_PAGE ->
          deltaY e = Num 1 ->
          normalizedDeltaY (assign_viewportHeight (numeric (Num v)) g) e
          = Num (v - header_clientHeight g - footer_clientHeight g - line)).
Proof.
  intros g v line Hline Hchanged.
  assert (Hobs : assign_viewportHeight (numeric (Num v)) g
                 = _scrollViewportHeightUpdated (numeric (Num v))
                     (set__viewportHeight (numeric (Num v)) g)).
  { unfold assign_viewportHeight.
    destruct (_viewportHeight g) as [|b|[z|]]; simpl; try reflexivity.
    destruct (Z.eqb_spec z v) as [->|]; [congruence|reflexivity]. }
  rewrite Hobs.
  assert (Hpage : _scrollPageHeight
                    (_scrollViewportHeightUpdated (numeric (Num v))
                       (set__viewportHeight (numeric (Num v)) g))
                  = numeric (Num (v - header_clientHeight g
                                  - footer_clientHeight g - line))).
  { unfold _scrollViewportHeightUpdated. simpl. rewrite Hline. reflexivity. }
  split; [exact Hpage|].
  intros e Hmode Hdelta. unfold normalizedDeltaY.
  rewrite Hmode, Hdelta, Hpage. simpl. f_equal.
  destruct (v - header_clientHeight g - footer_clientHeight g - line);
    reflexivity.
Qed.

End WheelHandler.

Lemma ctrl_wheel_returns_at_once_witness :
  @_onWheel Cssom.browser plainSuper 0 ctrl_wheel sample_grid
  = (sample_grid, false).
Proof.
  exact (proj1 (@ctrl_wheel_returns_at_once Cssom.browser plainSuper 0
                  sample_grid ctrl_wheel eq_refl)).
Defined.

(** C7 on the sample grid: page height 514, normalised delta 514, and the
    scroll surface moved from 300 to 814. *)
Lemma page_height_follows_viewport_witness :
  let g := assign_viewportHeight (numeric (Num 600)) sample_grid in
  _scrollPageHeight g = numeric (Num 514)
  /\ normalizedDeltaY g page_down = Num 514
  /\ scrollTop
       (table (fst (@_onWheel Cssom.browser plainSuper 0 page_down g))) = 814.
Proof.
  assert (Hline : _scrollLineHeight sample_grid = numeric (Num 16))
    by reflexivity.
  assert (Hnew : _viewportHeight sample_grid <> numeric (Num 600))
    by discriminate.
  destruct (page_height_follows_viewport sample_grid 600 16 Hline Hnew)
    as [Hpage Hdelta].
  split; [exact Hpage|].
  split; [exact (Hdelta page_down eq_refl eq_refl)|].
  vm_compute. reflexivity.
Defined.

(** *** A probe that measured nothing *)

Section UnmeasuredLineHeight.

Context {browser : Browser} {superClass : SuperClass}.

(** C4, as the code has it: when the geometry probe returns [undefined], a
    LINE-mode delta is normalised to NaN, the multiplication being
    unguarded.  A NaN delta fails both vertical comparisons of the capacity
    test, so the handler leaves the scroll surface alone unless the event
    also carries a horizontal delta that the surface has room for. *)
Theorem line_delta_without_line_height :
  forall now g e,
    _scrollLineHeight g = _getScrollLineHeight EmptyString ->
    deltaMode e = DOM_DELTA_LINE ->
    normalizedDeltaY g e = NaN
    /\ (_canScroll (table g) (deltaX e) (Num 0) = false ->
        table (fst (_onWheel now e g)) = table g).
Proof.
  intros now g e Hprobe Hmode.
  assert (Hnan : normalizedDeltaY g e = NaN).
  { unfold normalizedDeltaY. rewrite Hmode, Hprobe. simpl. apply mul_NaN_r. }
  split; [exact Hnan|].
  intros Hflat. apply _onWheel_table_untouched. right. right.
  unfold foldedDeltaY. rewrite Hnan, add_NaN_l, _canScroll_NaN. exact Hflat.
Qed.

End UnmeasuredLineHeight.

Lemma line_delta_without_line_height_witness :
  let e := mkWheelEvent false sample_cell_content (Num 0) (Num 3)
             DOM_DELTA_LINE in
  normalizedDeltaY unmeasured_grid e = NaN
  /\ table (fst (@_onWheel Cssom.browser plainSuper 0 e unmeasured_grid))
     = table unmeasured_grid.
Proof.
  intros e.
  destruct (@line_delta_without_line_height Cssom.browser plainSuper 0
              unmeasured_grid e eq_refl eq_refl) as [Hnan Hkeep].
  split; [exact Hnan|]. apply Hkeep. reflexivity.
Defined.

(** C4 as worded fails: with no line height measured, a LINE-mode event of
    three lines down and one pixel right has a NaN vertical delta, passes
    the capacity test on its horizontal part, and has NaN added to
    [scrollTop]; a standard scroll box then jumps from 300 to the top. *)
Lemma line_delta_NaN_is_applied :
  _getScrollLineHeight EmptyString = undefined
  /\ normalizedDeltaY unmeasured_grid lines_down_and_right = NaN
  /\ (forall browser : Browser,
        let written := write_scrollTop (table unmeasured_grid) NaN in
        table (fst (@_onWheel browser plainSuper 0 lines_down_and_right
                      unmeasured_grid))
        = write_scrollLeft written (add (Num (scrollLeft written)) (Num 1)))
  /\ scrollTop (table unmeasured_grid) = 300
  /\ scrollTop
       (table (fst (@_onWheel Cssom.browser plainSuper 0 lines_down_and_right
                      unmeasured_grid))) = 0.
Proof.
  repeat split.
Qed.

(** ** The event loop *)

Section EventLoop.

Context {browser : Browser} {superClass : SuperClass}.

Lemma _reorderRows_wheel_view (now : Z) (g : Grid) :
  wheel_view (grid_after (_reorderRows now g)) = wheel_view g.
Proof.
  unfold _reorderRows.
  destruct (__mouseDown g); [reflexivity|].
  destruct (List.length (rows g) =? 0)%nat; [reflexivity|].
  destruct (targetRowOf g) as [t|]; [|reflexivity].
  match goal with
  | |- context [let '(_, _) := ?scrutinee in _] =>
      destruct scrutinee as [[children log] failed]
  end.
  destruct failed; [reflexivity|].
  simpl. destruct (_safari g); reflexivity.
Qed.

Lemma runTask_wheel_view (now : Z) (g : Grid) (entry : Z * Task) :
  wheel_view (runTask now g entry) = wheel_view g.
Proof.
  unfold runTask. destruct (snd entry).
  - apply _reorderRows_wheel_view.
  - reflexivity.
Qed.

Lemma runDueTimeouts_wheel_view (now : Z) (g : Grid) :
  wheel_view (runDueTimeouts now g) = wheel_view g.
Proof.
  unfold runDueTimeouts.
  change (wheel_view g)
    with (wheel_view
            (set_timeouts
               (filter (fun entry => negb (is_due now entry)) (timeouts g)) g)).
  generalize (set_timeouts
                (filter (fun entry => negb (is_due now entry)) (timeouts g)) g).
  induction (filter (is_due now) (timeouts g)) as [|entry due IH];
    intros g0; simpl; [reflexivity|].
  rewrite IH. apply runTask_wheel_view.
Qed.

Lemma expireIgnoreNewWheel_early (now : Z) (g : Grid) :
  (forall due, _debouncerIgnoreNewWheel g = Some due -> now < due) ->
  expireIgnoreNewWheel now g = g.
Proof.
  unfold expireIgnoreNewWheel. intros H.
  destruct (_debouncerIgnoreNewWheel g) as [due|]; [|reflexivity].
  specialize (H due eq_refl).
  destruct (Z.leb_spec due now); [lia|reflexivity].
Qed.

(** The clock never runs backwards. *)
Lemma step_clock (w : World) (i : Input) : clock w <= clock (fst (step w i)).
Proof.
  destruct i; simpl; try lia.
  destruct (_onWheel (clock w) e (grid w)); simpl; lia.
Qed.

Lemma run_cons (w : World) (i : Input) (rest : list Input) :
  run w (i :: rest)
  = (fst (run (fst (step w i)) rest),
     snd (step w i) :: snd (run (fst (step w i)) rest)).
Proof.
  simpl. destruct (step w i) as [w' out]. simpl.
  destruct (run w' rest) as [w'' outs]. reflexivity.
Qed.

Lemma run_clock (inputs : list Input) :
  forall w, clock w <= clock (fst (run w inputs)).
Proof.
  induction inputs as [|i rest IH]; intros w; [simpl; lia|].
  rewrite run_cons. simpl.
  pose proof (step_clock w i). pose proof (IH (fst (step w i))). lia.
Qed.

Lemma step_Wheel (w : World) (e : WheelEvent) :
  step w (Wheel e)
  = (mkWorld (fst (_onWheel (clock w) e (grid w))) (clock w),
     Some (snd (_onWheel (clock w) e (grid w)))).
Proof. simpl. destruct (_onWheel (clock w) e (grid w)). reflexivity. Qed.

(** Turns other than wheel events leave the cooldown and the table as they
    are, as long as the cooldown's timeout is not due. *)
Lemma step_other_wheel_view (w : World) (i : Input) :
  (forall e, i <> Wheel e) ->
  (forall due, _debouncerIgnoreNewWheel (grid w) = Some due ->
               clock (fst (step w i)) < due) ->
  wheel_view (grid (fst (step w i))) = wheel_view (grid w).
Proof.
  intros Hother Hearly. destruct i; simpl in *.
  - exfalso. exact (Hother e eq_refl).
  - unfold flushWheelAnimationFrame.
    destruct (_debouncerWheelAnimationFrame (grid w)); reflexivity.
  - rewrite runDueTimeouts_wheel_view, expireIgnoreNewWheel_early;
      [reflexivity|exact Hearly].
  - reflexivity.
  - unfold on_mouseup. simpl.
    destruct (__pendingReorder (grid w)); reflexivity.
  - reflexivity.
  - reflexivity.
  - apply _reorderRows_wheel_view.
Qed.

(** What the handler does to the cooldown. *)
Lemma _onWheel_cooldown (now : Z) (g : Grid) (e : WheelEvent) :
  let g' := fst (_onWheel now e g) in
  (_ignoreNewWheel g' = _ignoreNewWheel g
   /\ _debouncerIgnoreNewWheel g' = _debouncerIgnoreNewWheel g)
  \/ (_ignoreNewWheel g' = true
      /\ _debouncerIgnoreNewWheel g' = Some (now + timeouts_ms.IGNORE_WHEEL)).
Proof.
  unfold _onWheel.
  destruct (skipsWheel g e); [left; split; reflexivity|].
  destruct (_wheelAnimationFrame g); [left; split; reflexivity|].
  simpl.
  destruct (_canScroll (table g) (deltaX e)
              (add (normalizedDeltaY g e) (_deltaYAcc g))).
  { right. split; reflexivity. }
  destruct ((_hasResidualMomentum g && _) || _ignoreNewWheel g);
    [left; split; reflexivity|].
  destruct (gt _ _); left; split; reflexivity.
Qed.

(** An event that gets past the early exit during the cooldown is marked
    as handled. *)
Lemma _onWheel_cooldown_prevents (now : Z) (g : Grid) (e : WheelEvent) :
  _ignoreNewWheel g = true ->
  skipsWheel g e = false ->
  snd (_onWheel now e g) = true.
Proof.
  intros Hignore Hskip. unfold _onWheel. rewrite Hskip.
  destruct (_wheelAnimationFrame g); [reflexivity|].
  simpl. rewrite Hignore, orb_true_r.
  destruct (_canScroll _ _ _); reflexivity.
Qed.

Lemma cooling_step (horizon : Z) (w : World) (i : Input) :
  cooling horizon w ->
  clock (fst (step w i)) < horizon ->
  cooling horizon (fst (step w i)).
Proof.
  intros (Hflag & Hnear & Hdue) Hclock.
  pose proof (step_clock w i) as Hmono.
  destruct i as [e| |ms| | |below| |].
  { rewrite step_Wheel in *. simpl in *.
    destruct (_onWheel_cooldown (clock w) (grid w) e) as [[Hi Hd]|[Hi Hd]];
      unfold cooling; simpl; rewrite Hi, Hd.
    - repeat split; [exact Hflag|exact Hnear|exact Hdue].
    - repeat split; [exact Hnear|].
      intros due E. injection E as <-. exact Hnear. }
  all: match goal with
       | |- cooling _ (fst (step _ ?i)) =>
           assert (Hview : wheel_view (grid (fst (step w i)))
                           = wheel_view (grid w))
             by (apply step_other_wheel_view;
                 [intros e; discriminate
                 |intros due Hd; specialize (Hdue due Hd); lia]);
           set (w' := fst (step w i)) in *
       end;
    clearbody w'; unfold wheel_view in Hview; injection Hview as _ Hi Hd;
    unfold cooling; rewrite Hi, Hd;
    repeat split; [exact Hflag|lia|exact Hdue].
Qed.

Lemma cooling_run (horizon : Z) (inputs : list Input) :
  forall w,
    cooling horizon w ->
    clock (fst (run w inputs)) < horizon ->
    cooling horizon (fst (run w inputs)).
Proof.
  induction inputs as [|i rest IH]; intros w Hcool Hclock; [exact Hcool|].
  rewrite run_cons in *. simpl in *.
  apply IH; [|exact Hclock].
  apply cooling_step; [exact Hcool|].
  pose proof (run_clock rest (fst (step w i))). lia.
Qed.

End EventLoop.

(** ** The momentum gate over time *)

Section MomentumGate.

Context {browser : Browser} {superClass : SuperClass}.

(** An event that gets past the early exit, finds no frame in flight and
    finds room on the scroll surface is applied. *)
Lemma _onWheel_applied (now : Z) (g : Grid) (e : WheelEvent) :
  skipsWheel g e = false ->
  _wheelAnimationFrame g = false ->
  _canScroll (table g) (deltaX e) (foldedDeltaY g e) = true ->
  _onWheel now e g
  = (set__previousMomentum (numeric (momentumOf g e))
       (applyWheel now (deltaX e) (foldedDeltaY g e) (armed g)),
     true).
Proof.
  intros Hskip Hframe Hcan. unfold _onWheel. rewrite Hskip, Hframe.
  unfold foldedDeltaY in Hcan. simpl. rewrite Hcan. reflexivity.
Qed.

(** C2, as the code has it: a wheel event whose delta is applied turns the
    cooldown on and schedules its end 500ms later.  Until then the cooldown
    stays on whatever happens, and every wheel event that gets past the
    early exit is marked as handled.  Its delta is left unapplied when an
    animation frame is in flight or the scroll surface has no room for it;
    when the surface has room, the delta is applied as outside the
    cooldown, and the cooldown starts afresh. *)
Theorem cooldown_after_applied_wheel :
  forall w e inputs e',
    skipsWheel (grid w) e = false ->
    _wheelAnimationFrame (grid w) = false ->
    _canScroll (table (grid w)) (deltaX e) (foldedDeltaY (grid w) e) = true ->
    let w1 := fst (step w (Wheel e)) in
    let w2 := fst (run w1 inputs) in
    clock w2 < clock w + timeouts_ms.IGNORE_WHEEL ->
    skipsWheel (grid w2) e' = false ->
    _ignoreNewWheel (grid w1) = true
    /\ _debouncerIgnoreNewWheel (grid w1)
       = Some (clock w + timeouts_ms.IGNORE_WHEEL)
    /\ _ignoreNewWheel (grid w2) = true
    /\ snd (step w2 (Wheel e')) = Some true
    /\ (_wheelAnimationFrame (grid w2) = true
        \/ _canScroll (table (grid w2)) (deltaX e')
             (foldedDeltaY (grid w2) e') = false ->
        table (grid (fst (step w2 (Wheel e')))) = table (grid w2))
    /\ (_wheelAnimationFrame (grid w2) = false ->
        _canScroll (table (grid w2)) (deltaX e')
          (foldedDeltaY (grid w2) e') = true ->
        table (grid (fst (step w2 (Wheel e'))))
        = table (applyWheel (clock w2) (deltaX e')
                   (foldedDeltaY (grid w2) e') (armed (grid w2)))
        /\ _debouncerIgnoreNewWheel (grid (fst (step w2 (Wheel e'))))
           = Some (clock w2 + timeouts_ms.IGNORE_WHEEL)).
Proof.
  intros w e inputs e' Hskip Hframe Hcan w1 w2 Hclock Hskip'.
  assert (Hw1 : w1 = mkWorld
                  (set__previousMomentum (numeric (momentumOf (grid w) e))
                     (applyWheel (clock w) (deltaX e)
                        (foldedDeltaY (grid w) e) (armed (grid w))))
                  (clock w)).
  { unfold w1. rewrite step_Wheel, (_onWheel_applied _ _ _ Hskip Hframe Hcan).
    reflexivity. }
  assert (Hcool1 : cooling (clock w + timeouts_ms.IGNORE_WHEEL) w1).
  { rewrite Hw1. unfold cooling. simpl. repeat split; [lia|].
    intros due E. injection E as <-. lia. }
  assert (Hcool2 : cooling (clock w + timeouts_ms.IGNORE_WHEEL) w2)
    by (apply cooling_run; assumption).
  destruct Hcool2 as (Hflag2 & _ & _).
  split; [rewrite Hw1; reflexivity|].
  split; [rewrite Hw1; reflexivity|].
  split; [exact Hflag2|].
  rewrite step_Wheel. simpl.
  split; [f_equal; apply _onWheel_cooldown_prevents; assumption|].
  split.
  - intros H. apply _onWheel_table_untouched. right. exact H.
  - intros Hframe' Hcan'.
    rewrite (_onWheel_applied _ _ _ Hskip' Hframe' Hcan').
    split; reflexivity.
Qed.

(** The gate below capacity: the component changes in nothing the cooldown
    or the scroll surface depend on. *)
Lemma _onWheel_beyond_capacity (now : Z) (g : Grid) (e : WheelEvent) :
  beyond_capacity g e ->
  wheel_view (fst (_onWheel now e g)) = wheel_view g.
Proof.
  intros [Hskip Hcan]. unfold _onWheel. rewrite Hskip.
  destruct (_wheelAnimationFrame g); [reflexivity|].
  unfold foldedDeltaY in Hcan. simpl. rewrite Hcan.
  destruct ((_hasResidualMomentum g && _) || _ignoreNewWheel g);
    [reflexivity|].
  destruct (gt _ _); reflexivity.
Qed.

(** While the cooldown lasts, a run of wheel events that find the scroll
    surface at capacity is swallowed whole. *)
Lemma swallowed_during_cooldown (due : Z) (inputs : list Input) :
  forall w,
    _ignoreNewWheel (grid w) = true ->
    _debouncerIgnoreNewWheel (grid w) = Some due ->
    each_wheel beyond_capacity w inputs ->
    clock (fst (run w inputs)) < due ->
    Forall handled (snd (run w inputs))
    /\ wheel_view (grid (fst (run w inputs))) = wheel_view (grid w).
Proof.
  induction inputs as [|i rest IH]; intros w Hflag Hdue Heach Hclock.
  { simpl. split; [constructor|reflexivity]. }
  rewrite run_cons in *. simpl in *. destruct Heach as [Hhere Hrest].
  pose proof (run_clock rest (fst (step w i))) as Hmono.
  assert (Hview : wheel_view (grid (fst (step w i))) = wheel_view (grid w)
                  /\ handled (snd (step w i))).
  { destruct i as [e| |ms| | |below| |];
      try (split; [|left; reflexivity];
           apply step_other_wheel_view;
           [intros e; discriminate
           |intros due' E; rewrite Hdue in E; injection E as <-; lia]).
    rewrite step_Wheel. simpl. split.
    - apply _onWheel_beyond_capacity. exact Hhere.
    - right. f_equal. apply _onWheel_cooldown_prevents;
        [exact Hflag|exact (proj1 Hhere)]. }
  destruct Hview as [Hview Hout].
  assert (Hflag' : _ignoreNewWheel (grid (fst (step w i))) = true).
  { unfold wheel_view in Hview. injection Hview as _ Hi _. congruence. }
  assert (Hdue' : _debouncerIgnoreNewWheel (grid (fst (step w i))) = Some due).
  { unfold wheel_view in Hview. injection Hview as _ _ Hd. congruence. }
  destruct (IH (fst (step w i)) Hflag' Hdue' Hrest Hclock) as [Hall Hfinal].
  split; [constructor; assumption|congruence].
Qed.

(** C8: once the scroll surface has no room left in the direction of the
    gesture, every wheel event is swallowed (marked as handled, the surface
    left alone) for as long as the cooldown lasts, rising momentum included;
    outside the cooldown, an event whose momentum exceeds the previous one
    clears the residual-momentum flag and passes through unhandled. *)
Theorem momentum_gate_at_capacity :
  (forall w inputs due,
      _ignoreNewWheel (grid w) = true ->
      _debouncerIgnoreNewWheel (grid w) = Some due ->
      each_wheel beyond_capacity w inputs ->
      clock (fst (run w inputs)) < due ->
      Forall handled (snd (run w inputs))
      /\ table (grid (fst (run w inputs))) = table (grid w))
  /\ (forall now g e,
        beyond_capacity g e ->
        _wheelAnimationFrame g = false ->
        _ignoreNewWheel g = false ->
        gt (momentumOf g e) (ToNumber (_previousMomentum g)) = true ->
        snd (_onWheel now e g) = false
        /\ _hasResidualMomentum (fst (_onWheel now e g)) = false
        /\ _previousMomentum (fst (_onWheel now e g))
           = numeric (momentumOf g e)).
Proof.
  split.
  - intros w inputs due Hflag Hdue Heach Hclock.
    destruct (swallowed_during_cooldown due inputs w Hflag Hdue Heach Hclock)
      as [Hall Hview].
    split; [exact Hall|].
    unfold wheel_view in Hview. injection Hview as Ht _ _. exact Ht.
  - intros now g e [Hskip Hcan] Hframe Hignore Hgt.
    unfold _onWheel. rewrite Hskip, Hframe.
    unfold foldedDeltaY in Hcan. unfold momentumOf, foldedDeltaY in Hgt.
    simpl. rewrite Hcan, Hignore, orb_false_r.
    assert (Hle : le (add (abs (deltaX e))
                        (abs (add (normalizedDeltaY g e) (_deltaYAcc g))))
                    (ToNumber (_previousMomentum g)) = false).
    { revert Hgt. unfold gt.
      destruct (add (abs (deltaX e)) _) as [m|],
               (ToNumber (_previousMomentum g)) as [p|]; simpl;
        try discriminate.
      rewrite Z.ltb_lt, Z.leb_gt. lia. }
    rewrite Hle, andb_false_r, Hgt. repeat split.
Qed.

End MomentumGate.

Lemma cooldown_after_applied_wheel_witness :
  let w := mkWorld sample_grid 0 in
  let w2 := fst (@run Cssom.browser plainSuper
                   (fst (@step Cssom.browser plainSuper w (Wheel pixels_down)))
                   [AnimationFrame; Elapse 100]) in
  _ignoreNewWheel (grid w2) = true
  /\ snd (@step Cssom.browser plainSuper w2 (Wheel pixels_down)) = Some true.
Proof.
  intros w w2.
  assert (Hclock : clock w2 < clock w + timeouts_ms.IGNORE_WHEEL)
    by (vm_compute; reflexivity).
  destruct (@cooldown_after_applied_wheel Cssom.browser plainSuper w
              pixels_down [AnimationFrame; Elapse 100] pixels_down
              eq_refl eq_refl eq_refl Hclock eq_refl)
    as (_ & _ & Hflag & Hhandled & _).
  split; [exact Hflag|exact Hhandled].
Defined.

(** C2 as worded fails: a wheel event of 100 pixels is applied at time 0
    and starts the cooldown; after the animation frame, 100ms into the
    cooldown, a second event of 100 pixels is marked as handled and its
    delta is applied all the same, the surface moving from 400 to 500. *)
Lemma cooldown_wheel_is_applied :
  let w := mkWorld sample_grid 0 in
  let w1 := fst (@step Cssom.browser plainSuper w (Wheel pixels_down)) in
  let w2 := fst (@run Cssom.browser plainSuper w1
                   [AnimationFrame; Elapse 100]) in
  let w3 := fst (@step Cssom.browser plainSuper w2 (Wheel pixels_down)) in
  scrollTop (table (grid w1)) = 400
  /\ _ignoreNewWheel (grid w2) = true
  /\ _debouncerIgnoreNewWheel (grid w2) = Some 500
  /\ clock w2 = 100
  /\ snd (@step Cssom.browser plainSuper w2 (Wheel pixels_down)) = Some true
  /\ scrollTop (table (grid w2)) = 400
  /\ scrollTop (table (grid w3)) = 500.
Proof. repeat split. Qed.

Lemma momentum_gate_at_capacity_witness :
  (let w := mkWorld bottomed_grid 100 in
   let inputs := [Wheel (down 120); AnimationFrame; Elapse 50;
                  Wheel (down 150); Wheel (down 200)] in
   Forall handled (snd (@run Cssom.browser plainSuper w inputs))
   /\ table (grid (fst (@run Cssom.browser plainSuper w inputs)))
      = bottomed_table)
  /\ snd (@_onWheel Cssom.browser plainSuper 600 (down 120) rested_grid)
     = false
  /\ _hasResidualMomentum
       (fst (@_onWheel Cssom.browser plainSuper 600 (down 120) rested_grid))
     = false.
Proof.
  destruct (@momentum_gate_at_capacity Cssom.browser plainSuper)
    as [Hswallow Hescape].
  split.
  - intros w inputs.
    assert (Heach : @each_wheel Cssom.browser plainSuper beyond_capacity w
                      inputs)
      by (repeat split).
    assert (Hclock : clock (fst (@run Cssom.browser plainSuper w inputs)) < 500)
      by (vm_compute; reflexivity).
    exact (Hswallow w inputs 500 eq_refl eq_refl Heach Hclock).
  - assert (Hbeyond : beyond_capacity rested_grid (down 120))
      by (split; reflexivity).
    destruct (Hescape 600 rested_grid (down 120) Hbeyond eq_refl eq_refl
                eq_refl) as (Hout & Hflag & _).
    split; [exact Hout|exact Hflag].
Defined.

(** ** Row reordering *)

Lemma same_node_fresh_head (x row : Row) (l : list Row) :
  fresh row (x :: l) -> same_node x row = false /\ fresh row l.
Proof.
  unfold fresh, same_node. simpl. intros H. split.
  - apply Nat.eqb_neq. intros E. apply H. left. exact E.
  - intros Hin. apply H. right. exact Hin.
Qed.

Lemma same_node_refl (row : Row) : same_node row row = true.
Proof. apply Nat.eqb_refl. Qed.

Lemma same_node_sym (a b : Row) : same_node a b = same_node b a.
Proof. apply Nat.eqb_sym. Qed.

Lemma fresh_app (row : Row) (l1 l2 : list Row) :
  fresh row (l1 ++ l2) <-> fresh row l1 /\ fresh row l2.
Proof. unfold fresh. rewrite map_app, in_app_iff. tauto. Qed.

Lemma NoDup_rid_middle (X Y : list Row) (row : Row) :
  NoDup (map rid (X ++ row :: Y)) -> fresh row X /\ fresh row Y.
Proof.
  rewrite map_app. simpl. intros H. apply NoDup_remove_2 in H.
  unfold fresh. rewrite in_app_iff in H. tauto.
Qed.

Lemma remove_node_fresh (row : Row) (l : list Row) :
  fresh row l -> remove_node row l = l.
Proof.
  induction l as [|x l IH]; intros H; [reflexivity|].
  apply same_node_fresh_head in H as [Hx Hl].
  unfold remove_node in *. simpl. rewrite Hx. simpl. f_equal. exact (IH Hl).
Qed.

Lemma remove_node_middle (row : Row) (X Y : list Row) :
  fresh row X -> fresh row Y -> remove_node row (X ++ row :: Y) = X ++ Y.
Proof.
  intros HX HY. unfold remove_node. rewrite filter_app. simpl.
  rewrite same_node_refl. simpl.
  fold (remove_node row X). fold (remove_node row Y).
  rewrite (remove_node_fresh _ _ HX), (remove_node_fresh _ _ HY). reflexivity.
Qed.

Lemma insert_at_ref_fresh (node ref : Row) (X Y : list Row) :
  fresh ref X ->
  insert_at_ref node ref (X ++ ref :: Y) = Some (X ++ node :: ref :: Y).
Proof.
  induction X as [|x X IH]; intros H; simpl.
  - rewrite same_node_refl. reflexivity.
  - apply same_node_fresh_head in H as [Hx HX].
    rewrite Hx, (IH HX). reflexivity.
Qed.

Lemma indexOf_middle (row : Row) (X Y : list Row) :
  fresh row X -> indexOf row (X ++ row :: Y) = Z.of_nat (List.length X).
Proof.
  induction X as [|x X IH]; intros H.
  - simpl. rewrite same_node_refl. reflexivity.
  - apply same_node_fresh_head in H as [Hx HX].
    cbn [app indexOf]. rewrite Hx, (IH HX).
    destruct (Z.ltb_spec (Z.of_nat (List.length X)) 0); [lia|].
    cbn [List.length]. lia.
Qed.

Lemma item_of_nat (l : list Row) (n : nat) :
  item l (Z.of_nat n) = nth_error l n.
Proof.
  unfold item. destruct (Z.ltb_spec (Z.of_nat n) 0); [lia|].
  rewrite Nat2Z.id. reflexivity.
Qed.

Lemma nth_error_middle {A : Type} (X Y : list A) (x : A) :
  nth_error (X ++ x :: Y) (List.length X) = Some x.
Proof.
  rewrite nth_error_app2 by lia. rewrite Nat.sub_diag. reflexivity.
Qed.

(** The forward loop: the first rows, taken in their original order, go to
    the end one by one. *)
Lemma append_loop (B : list Row) :
  forall A2 A1 log,
    NoDup (map rid (A1 ++ A2 ++ B)) ->
    for_range (List.length A2) (Z.of_nat (List.length A1))
      (appendStep (A1 ++ A2 ++ B)) (A2 ++ B ++ A1, log)
    = ((B ++ A1 ++ A2, log ++ map AppendChild A2), false).
Proof.
  induction A2 as [|a A2 IH]; intros A1 log Hnd.
  - simpl. rewrite !app_nil_r. reflexivity.
  - cbn [List.length for_range app]. cbn [app] in Hnd.
    unfold appendStep at 1.
    rewrite item_of_nat, nth_error_middle. cbn [fst snd].
    destruct (NoDup_rid_middle _ _ _ Hnd) as [HA1 Hrest].
    apply fresh_app in Hrest as [HA2 HB].
    assert (Happ : appendChild a (a :: A2 ++ B ++ A1)
                   = A2 ++ B ++ (A1 ++ [a])).
    { unfold appendChild.
      change (a :: A2 ++ B ++ A1) with ([] ++ a :: A2 ++ B ++ A1).
      rewrite (remove_node_middle a [] (A2 ++ B ++ A1)).
      - simpl. rewrite <- !app_assoc. reflexivity.
      - unfold fresh. simpl. tauto.
      - rewrite !fresh_app. tauto. }
    cbn [app]. rewrite Happ.
    replace (A1 ++ a :: A2 ++ B) with ((A1 ++ [a]) ++ A2 ++ B) in *
      by (rewrite <- app_assoc; reflexivity).
    replace (Z.of_nat (List.length A1) + 1)
      with (Z.of_nat (List.length (A1 ++ [a])))
      by (rewrite length_app; simpl; lia).
    rewrite (IH (A1 ++ [a]) (log ++ [AppendChild a]) Hnd).
    rewrite <- !app_assoc. reflexivity.
Qed.

(** The backward loop: the last rows go in front of the original first row
    one by one, which keeps their order. *)
Lemma insert_loop (a0 : Row) (A : list Row) :
  forall B2 B1 log,
    NoDup (map rid ((a0 :: A) ++ B1 ++ B2)) ->
    for_range (List.length B2)
      (Z.of_nat (List.length (a0 :: A) + List.length B1))
      (insertStep ((a0 :: A) ++ B1 ++ B2)) (B1 ++ (a0 :: A) ++ B2, log)
    = ((B1 ++ B2 ++ a0 :: A, log ++ map (fun b => InsertBefore b a0) B2),
       false).
Proof.
  induction B2 as [|b B2 IH]; intros B1 log Hnd.
  - simpl. rewrite !app_nil_r. reflexivity.
  - cbn [List.length]. cbn [for_range]. unfold insertStep at 1.
    assert (Hi : item ((a0 :: A) ++ B1 ++ b :: B2)
                   (Z.of_nat (S (List.length A) + List.length B1)) = Some b).
    { rewrite item_of_nat.
      replace ((a0 :: A) ++ B1 ++ b :: B2) with (((a0 :: A) ++ B1) ++ b :: B2)
        by (rewrite <- app_assoc; reflexivity).
      replace (S (List.length A) + List.length B1)%nat
        with (List.length ((a0 :: A) ++ B1))
        by (rewrite length_app; reflexivity).
      apply nth_error_middle. }
    rewrite Hi. change (item ((a0 :: A) ++ B1 ++ b :: B2) 0) with (Some a0).
    cbn [fst snd].
    assert (Hb : fresh b ((a0 :: A) ++ B1) /\ fresh b B2).
    { apply NoDup_rid_middle. rewrite <- app_assoc. exact Hnd. }
    destruct Hb as [HbAB HbB2].
    apply fresh_app in HbAB as [HbA HbB1].
    assert (Hba : same_node b a0 = false).
    { rewrite same_node_sym. exact (proj1 (same_node_fresh_head _ _ _ HbA)). }
    assert (Ha0 : fresh a0 B1).
    { change ((a0 :: A) ++ B1 ++ b :: B2) with ([] ++ a0 :: (A ++ B1 ++ b :: B2))
        in Hnd.
      apply NoDup_rid_middle in Hnd as [_ H].
      rewrite !fresh_app in H. tauto. }
    assert (Hins : insertBefore b a0 (B1 ++ (a0 :: A) ++ b :: B2)
                   = Some ((B1 ++ [b]) ++ (a0 :: A) ++ B2)).
    { unfold insertBefore. rewrite Hba.
      replace (B1 ++ (a0 :: A) ++ b :: B2) with ((B1 ++ a0 :: A) ++ b :: B2)
        by (rewrite <- app_assoc; reflexivity).
      rewrite remove_node_middle;
        [|rewrite fresh_app; tauto|exact HbB2].
      rewrite <- app_assoc. cbn [app].
      rewrite (insert_at_ref_fresh b a0 B1 (A ++ B2) Ha0).
      rewrite <- app_assoc. reflexivity. }
    rewrite Hins.
    replace ((a0 :: A) ++ B1 ++ b :: B2) with ((a0 :: A) ++ (B1 ++ [b]) ++ B2)
      in *
      by (rewrite <- (app_assoc B1); reflexivity).
    replace (Z.of_nat (S (List.length A) + List.length B1) + 1)
      with (Z.of_nat (List.length (a0 :: A) + List.length (B1 ++ [b])))
      by (rewrite length_app; simpl; lia).
    rewrite (IH (B1 ++ [b]) (log ++ [InsertBefore b a0]) Hnd).
    rewrite <- !app_assoc. reflexivity.
Qed.

Lemma set_rows_same (g : Grid) : set_rows (rows g) g = g.
Proof. destruct g; reflexivity. Qed.

Lemma NoDup_rid_swap (A B : list Row) :
  NoDup (map rid (A ++ B)) -> NoDup (map rid (B ++ A)).
Proof.
  rewrite !map_app.
  apply Permutation_NoDup, Permutation_app_comm.
Qed.

Lemma first_visible_In (l : list Row) (t : Row) :
  first_visible l = Some t -> In t l.
Proof.
  unfold first_visible. intros H.
  destruct (filter (fun row => negb (hidden row)) l) as [|x rest] eqn:E;
    [discriminate|].
  injection H as ->.
  assert (Hin : In t (filter (fun row => negb (hidden row)) l))
    by (rewrite E; left; reflexivity).
  apply filter_In in Hin. tauto.
Qed.

(** Where a row of a list in index order sits, and where it should sit. *)
Lemma in_order_position (g : Grid) (t : Row) (X Y : list Row) :
  in_index_order (_virtualStart g + _vidxOffset g) (X ++ t :: Y) ->
  targetPhysicalIndexOf g t = Z.of_nat (List.length X).
Proof.
  intros Hord. unfold targetPhysicalIndexOf.
  rewrite (Hord (List.length X) t (nth_error_middle X Y t)). lia.
Qed.

(** On rows already in index order the engine moves nothing. *)
Lemma _reorderRows_in_order (now : Z) (g : Grid) :
  __mouseDown g = false ->
  NoDup (map rid (rows g)) ->
  in_index_order (_virtualStart g + _vidxOffset g) (rows g) ->
  (forall t, _rowWithFocusedElement g = Some t -> In t (rows g)) ->
  dom_moves (_reorderRows now g) = []
  /\ threw (_reorderRows now g) = false
  /\ rows (grid_after (_reorderRows now g)) = rows g
  /\ (_safari g = false -> grid_after (_reorderRows now g) = g).
Proof.
  intros Hmouse Hnd Hord Hfocus. unfold _reorderRows. rewrite Hmouse.
  destruct (List.length (rows g) =? 0)%nat; [repeat split|].
  destruct (targetRowOf g) as [t|] eqn:Ht; [|repeat split].
  assert (Hin : In t (rows g)).
  { unfold targetRowOf in Ht.
    destruct (_rowWithFocusedElement g) as [f|].
    - injection Ht as <-. apply Hfocus. reflexivity.
    - apply first_visible_In. exact Ht. }
  apply in_split in Hin as (X & Y & E).
  assert (Hdelta : indexOf t (rows g) - targetPhysicalIndexOf g t = 0).
  { rewrite E in Hnd, Hord. rewrite E at 1.
    rewrite (indexOf_middle t X Y (proj1 (NoDup_rid_middle X Y t Hnd))).
    rewrite (in_order_position g t X Y Hord). lia. }
  rewrite Hdelta. simpl.
  rewrite set_rows_same.
  destruct (_safari g); repeat split. discriminate.
Qed.

(** C3: with the rows a rotation [A ++ B] of the index order [B ++ A], the
    target row at physical position P and its desired position D, the
    engine makes exactly |P - D| calls on the row container, none of them
    failing, and leaves the rows in index order; called again, it makes no
    call and the row order stays as it is (on a browser other than Safari
    the whole component stays as it is). *)
Theorem reorder_restores_index_order :
  forall now now' g A B t,
    __mouseDown g = false ->
    rows g = A ++ B ->
    NoDup (map rid (rows g)) ->
    in_index_order (_virtualStart g + _vidxOffset g) (B ++ A) ->
    targetRowOf g = Some t ->
    In t (rows g) ->
    let first := _reorderRows now g in
    let second := _reorderRows now' (grid_after first) in
    Z.of_nat (List.length (dom_moves first))
    = Z.abs (indexOf t (rows g) - targetPhysicalIndexOf g t)
    /\ threw first = false
    /\ rows (grid_after first) = B ++ A
    /\ in_index_order (_virtualStart g + _vidxOffset g)
         (rows (grid_after first))
    /\ dom_moves second = []
    /\ threw second = false
    /\ rows (grid_after second) = rows (grid_after first)
    /\ (_safari g = false -> grid_after second = grid_after first).
Proof.
  intros now now' g A B t Hmouse Hrows Hnd Hord Ht Hin first second.
  (* the first call *)
  assert (Hfirst :
    Z.of_nat (List.length (dom_moves first))
    = Z.abs (indexOf t (rows g) - targetPhysicalIndexOf g t)
    /\ threw first = false
    /\ (grid_after first = set_rows (B ++ A) g
        \/ exists queue,
             grid_after first
             = set_timeouts queue
                 (set_header_style_transform EmptyString (set_rows (B ++ A) g)))
    /\ (_safari g = false -> grid_after first = set_rows (B ++ A) g)).
  { unfold first, _reorderRows. rewrite Hmouse, Ht.
    assert (Hlen : (List.length (rows g) =? 0)%nat = false).
    { apply Nat.eqb_neq. destruct (rows g); [contradiction|discriminate]. }
    rewrite Hlen. rewrite Hrows in *.
    assert (Hloop :
      exists log,
        (if indexOf t (A ++ B) - targetPhysicalIndexOf g t >? 0
         then for_range
                (Z.to_nat (indexOf t (A ++ B) - targetPhysicalIndexOf g t)) 0
                (appendStep (A ++ B)) (A ++ B, [])
         else if indexOf t (A ++ B) - targetPhysicalIndexOf g t <? 0
         then for_range
                (Z.to_nat (- (indexOf t (A ++ B) - targetPhysicalIndexOf g t)))
                (Z.of_nat (List.length (A ++ B))
                 + (indexOf t (A ++ B) - targetPhysicalIndexOf g t))
                (insertStep (A ++ B)) (A ++ B, [])
         else ((A ++ B, []), false))
        = ((B ++ A, log), false)
        /\ Z.of_nat (List.length log)
           = Z.abs (indexOf t (A ++ B) - targetPhysicalIndexOf g t)).
    { apply in_app_or in Hin as [HinA|HinB].
      - (* the target is among the leading rows: rotate backwards by |B| *)
        apply in_split in HinA as (A1 & A2 & EA). subst A.
        assert (HP : indexOf t ((A1 ++ t :: A2) ++ B)
                     = Z.of_nat (List.length A1)).
        { rewrite <- app_assoc. cbn [app].
          apply indexOf_middle.
          rewrite <- app_assoc in Hnd. cbn [app] in Hnd.
          exact (proj1 (NoDup_rid_middle _ _ _ Hnd)). }
        assert (HD : targetPhysicalIndexOf g t
                     = Z.of_nat (List.length (B ++ A1))).
        { apply (in_order_position g t (B ++ A1) A2).
          rewrite <- app_assoc. exact Hord. }
        rewrite HP, HD, length_app.
        destruct B as [|b B].
        + exists []. simpl. rewrite Z.sub_diag. simpl.
          rewrite app_nil_r. split; reflexivity.
        + destruct (Z.gtb_spec
                      (Z.of_nat (List.length A1)
                       - Z.of_nat (List.length (b :: B) + List.length A1)) 0)
            as [Hpos|_]; [cbn [List.length] in Hpos; lia|].
          destruct (Z.ltb_spec
                      (Z.of_nat (List.length A1)
                       - Z.of_nat (List.length (b :: B) + List.length A1)) 0)
            as [_|Hneg]; [|cbn [List.length] in Hneg; lia].
          destruct A1 as [|a0 A1]; cbn [app] in *.
          * exists (map (fun x => InsertBefore x t) (b :: B)).
            replace (Z.to_nat _) with (List.length (b :: B))
              by (cbn [List.length]; lia).
            replace (Z.of_nat (List.length ((t :: A2) ++ b :: B)) + _)
              with (Z.of_nat (List.length (t :: A2) + List.length (@nil Row)))
              by (rewrite length_app; cbn [List.length]; lia).
            pose proof (insert_loop t A2 (b :: B) [] [] Hnd) as Hloop.
            cbn [app] in Hloop. rewrite Hloop.
            split; [reflexivity|].
            rewrite length_map. cbn [List.length]. lia.
          * exists (map (fun x => InsertBefore x a0) (b :: B)).
            replace (Z.to_nat _) with (List.length (b :: B))
              by (cbn [List.length]; lia).
            replace (Z.of_nat
                       (List.length ((a0 :: A1 ++ t :: A2) ++ b :: B)) + _)
              with (Z.of_nat (List.length (a0 :: A1 ++ t :: A2)
                              + List.length (@nil Row)))
              by (rewrite length_app; cbn [List.length]; lia).
            pose proof (insert_loop a0 (A1 ++ t :: A2) (b :: B) [] [] Hnd)
              as Hloop.
            cbn [app] in Hloop. rewrite Hloop.
            split; [reflexivity|].
            rewrite length_map. cbn [List.length]. lia.
      - (* the target is among the trailing rows: rotate forwards by |A| *)
        apply in_split in HinB as (B1 & B2 & EB). subst B.
        assert (HP : indexOf t (A ++ B1 ++ t :: B2)
                     = Z.of_nat (List.length (A ++ B1))).
        { rewrite app_assoc. apply indexOf_middle.
          rewrite app_assoc in Hnd.
          exact (proj1 (NoDup_rid_middle _ _ _ Hnd)). }
        assert (HD : targetPhysicalIndexOf g t = Z.of_nat (List.length B1)).
        { apply (in_order_position g t B1 (B2 ++ A)).
          rewrite <- app_assoc in Hord. exact Hord. }
        rewrite HP, HD, length_app.
        destruct A as [|a A].
        + exists []. simpl. rewrite Z.sub_diag. simpl.
          rewrite app_nil_r. split; reflexivity.
        + destruct (Z.gtb_spec
                      (Z.of_nat (List.length (a :: A) + List.length B1)
                       - Z.of_nat (List.length B1)) 0)
            as [_|Hneg]; [|cbn [List.length] in Hneg; lia].
          exists (map AppendChild (a :: A)).
          replace (Z.to_nat _) with (List.length (a :: A))
            by (cbn [List.length]; lia).
          pose proof (append_loop (B1 ++ t :: B2) (a :: A) [] []) as Hloop.
          cbn [app List.length] in Hloop. rewrite app_nil_r in Hloop.
          split; [exact (Hloop Hnd)|].
          rewrite length_map. cbn [List.length]. lia. }
    destruct Hloop as (log & -> & Hcount).
    simpl. destruct (_safari g); simpl.
    - repeat split; [exact Hcount| |discriminate].
      right. eexists. reflexivity.
    - repeat split; [exact Hcount|left; reflexivity]. }
  destruct Hfirst as (Hcount & Hthrew & Hafter & Hplain).
  (* whatever Safari needed, the rows are in index order now *)
  assert (Hshape : rows (grid_after first) = B ++ A
                   /\ __mouseDown (grid_after first) = false
                   /\ _virtualStart (grid_after first) = _virtualStart g
                   /\ _vidxOffset (grid_after first) = _vidxOffset g
                   /\ _rowWithFocusedElement (grid_after first)
                      = _rowWithFocusedElement g
                   /\ (_safari g = false -> _safari (grid_after first) = false)).
  { destruct Hafter as [->|[queue ->]]; simpl; repeat split; auto. }
  destruct Hshape as (Hr & Hm & Hvs & Hvo & Hf & Hs).
  assert (Hagain := _reorderRows_in_order now' (grid_after first)).
  rewrite Hr, Hvs, Hvo, Hf in Hagain.
  destruct (Hagain Hm) as (Hmoves2 & Hthrew2 & Hrows2 & Hsame2).
  - apply NoDup_rid_swap. rewrite <- Hrows. exact Hnd.
  - exact Hord.
  - intros f Hfocused. unfold targetRowOf in Ht. rewrite Hfocused in Ht.
    injection Ht as ->. rewrite Hrows in Hin.
    apply in_or_app. apply in_app_or in Hin. tauto.
  - repeat split; try assumption.
    + rewrite Hr. exact Hord.
    + unfold second. rewrite Hrows2. symmetry. exact Hr.
    + intros Hsafari. apply Hsame2. apply Hs. exact Hsafari.
Qed.

Lemma reorder_restores_index_order_witness :
  let first := _reorderRows 0 rotated_grid in
  let second := _reorderRows 500 (grid_after first) in
  Z.of_nat (List.length (dom_moves first)) = 3
  /\ rows (grid_after first) = [row 0; row 1; row 2; row 3; row 4]
  /\ dom_moves second = []
  /\ grid_after second = grid_after first.
Proof.
  assert (Hnd : NoDup (map rid (rows rotated_grid))).
  { simpl. repeat constructor; simpl; intuition discriminate. }
  assert (Hord : in_index_order
                   (_virtualStart rotated_grid + _vidxOffset rotated_grid)
                   ([row 0; row 1; row 2] ++ [row 3; row 4])).
  { intros p r. do 5 (destruct p as [|p]; [intros [= <-]; reflexivity|]).
    destruct p; discriminate. }
  assert (Hin : In (row 3) (rows rotated_grid)) by (left; reflexivity).
  destruct (reorder_restores_index_order 0 500 rotated_grid
              [row 3; row 4] [row 0; row 1; row 2] (row 3)
              eq_refl eq_refl Hnd Hord eq_refl Hin)
    as (Hcount & _ & Hrows & _ & Hmoves & _ & _ & Hsame).
  split; [exact Hcount|]. split; [exact Hrows|].
  split; [exact Hmoves|exact (Hsame eq_refl)].
Defined.

(** *** Deferral during a drag *)

Section Deferral.

Context {browser : Browser} {superClass : SuperClass}.

Lemma expireIgnoreNewWheel_frame (now : Z) (g : Grid) :
  let g' := expireIgnoreNewWheel now g in
  rows g' = rows g /\ timeouts g' = timeouts g
  /\ __mouseDown g' = __mouseDown g
  /\ __pendingReorder g' = __pendingReorder g.
Proof.
  unfold expireIgnoreNewWheel.
  destruct (_debouncerIgnoreNewWheel g) as [due|]; [|repeat split].
  destruct (due <=? now); repeat split.
Qed.

Lemma pending_reorders_enqueue (due : Z) (queue : list (Z * Task)) :
  pending_reorders (enqueue due TReorderRows queue)
  = S (pending_reorders queue).
Proof.
  unfold pending_reorders.
  induction queue as [|[d t] queue IH]; [reflexivity|].
  cbn [enqueue]. destruct (d <=? due).
  - cbn [filter snd]. destruct t; cbn [List.length]; rewrite IH; reflexivity.
  - reflexivity.
Qed.

(** C5: a reorder asked for while the pointer-drag flag is set makes no call
    on the row container and raises the pending flag; releasing the drag
    with the pending flag raised clears both flags and schedules exactly one
    reorder, 500ms ahead, and moves no row itself; with nothing else queued,
    no row moves before the 500ms are over, and then the engine runs once. *)
Theorem reorder_deferred_during_drag :
  (forall now g,
      __mouseDown g = true ->
      _reorderRows now g = mkReordered (set___pendingReorder true g) [] false
      /\ dom_moves (_reorderRows now g) = []
      /\ rows (grid_after (_reorderRows now g)) = rows g
      /\ __pendingReorder (grid_after (_reorderRows now g)) = true)
  /\ (forall w,
        __pendingReorder (grid w) = true ->
        let w1 := fst (step w MouseUp) in
        __mouseDown (grid w1) = false
        /\ __pendingReorder (grid w1) = false
        /\ rows (grid w1) = rows (grid w)
        /\ timeouts (grid w1)
           = enqueue (clock w + timeouts_ms.SCROLLING) TReorderRows
               (timeouts (grid w))
        /\ pending_reorders (timeouts (grid w1))
           = S (pending_reorders (timeouts (grid w))))
  /\ (forall w ms,
        __pendingReorder (grid w) = true ->
        timeouts (grid w) = [] ->
        let w1 := fst (step w MouseUp) in
        let w2 := fst (step w1 (Elapse ms)) in
        (Z.of_nat ms < timeouts_ms.SCROLLING ->
         rows (grid w2) = rows (grid w)
         /\ pending_reorders (timeouts (grid w2)) = 1%nat)
        /\ (timeouts_ms.SCROLLING <= Z.of_nat ms ->
            grid w2
            = grid_after
                (_reorderRows (clock w2)
                   (set_timeouts []
                      (expireIgnoreNewWheel (clock w2) (grid w1))))
            /\ pending_reorders (timeouts (grid w2)) = 0%nat)).
Proof.
  split; [|split].
  - intros now g Hdown. unfold _reorderRows. rewrite Hdown. repeat split.
  - intros w Hpending w1. unfold w1. simpl. unfold on_mouseup. simpl.
    rewrite Hpending. simpl. repeat split.
    apply pending_reorders_enqueue.
  - intros w ms Hpending Hempty w1 w2.
    assert (Hw1 : timeouts (grid w1)
                  = [(clock w + timeouts_ms.SCROLLING, TReorderRows)]
                  /\ rows (grid w1) = rows (grid w)).
    { unfold w1. simpl. unfold on_mouseup. simpl. rewrite Hpending. simpl.
      rewrite Hempty. split; reflexivity. }
    destruct Hw1 as [Hqueue Hrows1].
    assert (Hclock : clock w2 = clock w + Z.of_nat ms) by reflexivity.
    destruct (expireIgnoreNewWheel_frame (clock w2) (grid w1))
      as (Hrows & Htimeouts & _ & _).
    assert (Hgrid : grid w2
                    = runDueTimeouts (clock w2)
                        (expireIgnoreNewWheel (clock w2) (grid w1)))
      by reflexivity.
    clearbody w2 w1.
    set (g1 := expireIgnoreNewWheel (clock w2) (grid w1)) in *.
    clearbody g1.
    unfold runDueTimeouts in Hgrid. rewrite Htimeouts, Hqueue in Hgrid.
    unfold is_due in Hgrid. cbn [filter fst] in Hgrid.
    rewrite Hgrid. clear Hgrid.
    split; intros Hms.
    + destruct (Z.leb_spec (clock w + timeouts_ms.SCROLLING) (clock w2));
        [lia|].
      cbn [negb fold_left]. simpl.
      rewrite Hrows, Hrows1. split; reflexivity.
    + destruct (Z.leb_spec (clock w + timeouts_ms.SCROLLING) (clock w2));
        [|lia].
      cbn [negb fold_left runTask snd].
      split; [reflexivity|].
      (* the engine schedules no reorder of its own *)
      set (g' := set_timeouts [] _).
      assert (Hq : timeouts g' = []) by reflexivity.
      clearbody g'. unfold _reorderRows.
      destruct (__mouseDown g'); [simpl; rewrite Hq; reflexivity|].
      destruct (List.length (rows g') =? 0)%nat; [simpl; rewrite Hq; reflexivity|].
      destruct (targetRowOf g'); [|simpl; rewrite Hq; reflexivity].
      match goal with
      | |- context [let '(_, _) := ?scrutinee in _] =>
          destruct scrutinee as [[children log] failed]
      end.
      destruct failed; [simpl; rewrite Hq; reflexivity|].
      simpl. destruct (_safari g'); simpl; rewrite Hq; reflexivity.
Qed.

End Deferral.

Lemma reorder_deferred_during_drag_witness :
  dom_moves (_reorderRows 0 dragged_grid) = []
  /\ __pendingReorder (grid_after (_reorderRows 0 dragged_grid)) = true
  /\ (let w1 := fst (@step Cssom.browser plainSuper
                       (mkWorld dragged_pending_grid 0) MouseUp) in
      let w2 := fst (@step Cssom.browser plainSuper w1 (Elapse 500)) in
      pending_reorders (timeouts (grid w1)) = 1%nat
      /\ rows (grid w1) = [row 3; row 4; row 0; row 1; row 2]
      /\ rows (grid w2) = [row 0; row 1; row 2; row 3; row 4]
      /\ pending_reorders (timeouts (grid w2)) = 0%nat).
Proof.
  destruct (@reorder_deferred_during_drag Cssom.browser plainSuper)
    as (Hdefer & Hrelease & Hlater).
  destruct (Hdefer 0 dragged_grid eq_refl) as (_ & Hmoves & _ & Hflag).
  split; [exact Hmoves|]. split; [exact Hflag|].
  intros w1 w2.
  destruct (Hrelease (mkWorld dragged_pending_grid 0) eq_refl)
    as (_ & _ & Hrows1 & _ & Hcount).
  destruct (Hlater (mkWorld dragged_pending_grid 0) 500%nat eq_refl eq_refl)
    as [_ Hdue].
  assert (H500 : timeouts_ms.SCROLLING <= Z.of_nat 500)
    by (vm_compute; discriminate).
  destruct (Hdue H500) as [Hgrid Hnone].
  split; [exact Hcount|]. split; [exact Hrows1|].
  split; [|exact Hnone].
  unfold w2, w1. rewrite Hgrid. vm_compute. reflexivity.
Defined.

(** *** The target row *)

Lemma first_visible_iff (l : list Row) (t : Row) :
  first_visible l = Some t <->
  exists before after,
    l = before ++ t :: after
    /\ hidden t = false
    /\ Forall (fun x => hidden x = true) before.
Proof.
  unfold first_visible. induction l as [|x l IH]; simpl.
  - split; [discriminate|].
    intros (before & after & E & _). destruct before; discriminate.
  - destruct (hidden x) eqn:Hx; simpl.
    + rewrite IH. split.
      * intros (before & after & -> & Ht & Hall).
        exists (x :: before), after. repeat split; [exact Ht|].
        constructor; assumption.
      * intros (before & after & E & Ht & Hall).
        destruct before as [|b before]; simpl in E; injection E as <- E.
        -- congruence.
        -- exists before, after. inversion Hall; subst. repeat split; assumption.
    + split.
      * intros [= <-]. exists [], l. repeat split; [exact Hx|constructor].
      * intros (before & after & E & Ht & Hall).
        destruct before as [|b before]; simpl in E; injection E as <- E.
        -- reflexivity.
        -- inversion Hall; congruence.
Qed.

Lemma first_visible_all_hidden (l : list Row) :
  Forall (fun x => hidden x = true) l -> first_visible l = None.
Proof.
  unfold first_visible. induction 1 as [|x l Hx _ IH]; [reflexivity|].
  simpl. rewrite Hx. exact IH.
Qed.

(** C6, as the code has it: the target is the focused row whenever a
    focused-row reference is held, rendered or not; without one it is the
    first row in physical order that is not hidden.  With no row rendered,
    or with every rendered row hidden and no focused row, the engine makes
    no call on the row container and leaves the rows as they are (and,
    unless a drag defers it, the component as it is). *)
Theorem reorder_target_and_noops :
  forall now g,
    (forall focused,
        _rowWithFocusedElement g = Some focused ->
        targetRowOf g = Some focused)
    /\ (_rowWithFocusedElement g = None ->
        forall t,
          targetRowOf g = Some t <->
          exists before after,
            rows g = before ++ t :: after
            /\ hidden t = false
            /\ Forall (fun x => hidden x = true) before)
    /\ (rows g = []
        \/ (_rowWithFocusedElement g = None
            /\ Forall (fun x => hidden x = true) (rows g)) ->
        dom_moves (_reorderRows now g) = []
        /\ threw (_reorderRows now g) = false
        /\ rows (grid_after (_reorderRows now g)) = rows g
        /\ (__mouseDown g = false -> grid_after (_reorderRows now g) = g)).
Proof.
  intros now g. split; [|split].
  - intros focused H. unfold targetRowOf. rewrite H. reflexivity.
  - intros H t. unfold targetRowOf. rewrite H. apply first_visible_iff.
  - intros Hnone. unfold _reorderRows.
    destruct (__mouseDown g); [repeat split; discriminate|].
    destruct Hnone as [Hempty|[Hfocus Hhidden]].
    + rewrite Hempty. simpl. repeat split; auto.
    + destruct (List.length (rows g) =? 0)%nat; [repeat split; auto|].
      unfold targetRowOf. rewrite Hfocus.
      fold (first_visible (rows g)).
      rewrite (first_visible_all_hidden _ Hhidden). repeat split; auto.
Qed.

Lemma reorder_target_and_noops_witness :
  targetRowOf stale_focus_grid = Some (row 7)
  /\ targetRowOf rotated_grid = Some (row 3)
  /\ grid_after (_reorderRows 0 (set_rows [] rotated_grid))
     = set_rows [] rotated_grid.
Proof.
  destruct (reorder_target_and_noops 0 stale_focus_grid) as (Hfocus & _ & _).
  destruct (reorder_target_and_noops 0 rotated_grid) as (_ & Hfirst & _).
  destruct (reorder_target_and_noops 0 (set_rows [] rotated_grid))
    as (_ & _ & Hnoop).
  split; [exact (Hfocus (row 7) eq_refl)|].
  split.
  - apply (Hfirst eq_refl). exists [], [row 4; row 0; row 1; row 2].
    repeat split. constructor.
  - destruct (Hnoop (or_introl eq_refl)) as (_ & _ & _ & Hsame).
    exact (Hsame eq_refl).
Defined.

(** C6 as worded fails: with a focused-row reference to a row that is no
    longer rendered, the words pick the first visible row, which already
    sits where it belongs, while the engine anchors on the stale row, finds
    it at position -1 and fails on its first DOM call. *)
Lemma stale_focus_is_the_target :
  existsb (same_node (row 7)) (rows stale_focus_grid) = false
  /\ target_if_rendered stale_focus_grid = Some (row 0)
  /\ targetRowOf stale_focus_grid = Some (row 7)
  /\ indexOf (row 7) (rows stale_focus_grid) = -1
  /\ threw (_reorderRows 0 stale_focus_grid) = true.
Proof. repeat split. Qed.

(** * Further properties of the wheel handler *)

Section WheelHandlerMore.

Context {browser : Browser} {superClass : SuperClass}.

(** X1: the handler never moves the scroll surface without marking the
    event as handled: an event whose default is not prevented leaves the
    table, the cooldown flag and its timeout as they were. *)
Theorem unhandled_wheel_moves_nothing :
  forall now g e,
    snd (_onWheel now e g) = false ->
    table (fst (_onWheel now e g)) = table g
    /\ rows (fst (_onWheel now e g)) = rows g
    /\ _ignoreNewWheel (fst (_onWheel now e g)) = _ignoreNewWheel g
    /\ _debouncerIgnoreNewWheel (fst (_onWheel now e g))
       = _debouncerIgnoreNewWheel g.
Proof.
  intros now g e. unfold _onWheel.
  destruct (skipsWheel g e); [repeat split|].
  destruct (_wheelAnimationFrame g); [discriminate|].
  simpl.
  destruct (_canScroll (table g) (deltaX e)
              (add (normalizedDeltaY g e) (_deltaYAcc g))); [discriminate|].
  destruct ((_hasResidualMomentum g && _) || _ignoreNewWheel g);
    [discriminate|].
  destruct (gt _ _); repeat split.
Qed.

Lemma set__deltaYAcc_same (g : Grid) : set__deltaYAcc (_deltaYAcc g) g = g.
Proof. destruct g; reflexivity. Qed.

Lemma run_burst (now : Z) (burst : list WheelEvent) :
  forall g,
    _wheelAnimationFrame g = true ->
    Forall (fun e => skipsWheel g e = false) burst ->
    run (mkWorld g now) (map Wheel burst)
    = (mkWorld (set__deltaYAcc (accumulated g burst) g) now,
       map (fun _ => Some true) burst).
Proof.
  induction burst as [|e burst IH]; intros g Hframe Hall.
  - simpl. unfold accumulated. simpl. rewrite set__deltaYAcc_same.
    reflexivity.
  - inversion Hall as [|? ? Hskip Hrest]; subst.
    cbn [map]. rewrite run_cons, step_Wheel. cbn [fst snd grid clock].
    assert (Hstep : _onWheel now e g
                    = (set__deltaYAcc
                         (add (_deltaYAcc g) (normalizedDeltaY g e)) g, true)).
    { unfold _onWheel. rewrite Hskip, Hframe. reflexivity. }
    rewrite Hstep. cbn [fst snd].
    rewrite (IH (set__deltaYAcc
                   (add (_deltaYAcc g) (normalizedDeltaY g e)) g));
      [reflexivity|exact Hframe|exact Hrest].
Qed.

(** X2: wheel events that arrive while an animation frame is in flight are
    all marked as handled and change nothing but the accumulated delta,
    which grows by the pixel delta of each; after the frame, the next event
    is folded together with that sum, so no delta of the burst is lost. *)
Theorem burst_within_a_frame_accumulates :
  forall now burst g,
    _wheelAnimationFrame g = true ->
    Forall (fun e => skipsWheel g e = false) burst ->
    let result := run (mkWorld g now) (map Wheel burst) in
    Forall (fun out => out = Some true) (snd result)
    /\ grid (fst result) = set__deltaYAcc (accumulated g burst) g
    /\ table (grid (fst result)) = table g
    /\ (_debouncerWheelAnimationFrame g = true ->
        forall e,
          let g' := grid (fst (step (fst result) AnimationFrame)) in
          _wheelAnimationFrame g' = false
          /\ foldedDeltaY g' e
             = add (normalizedDeltaY g e) (accumulated g burst)).
Proof.
  intros now burst g Hframe Hall result.
  unfold result. rewrite (run_burst now burst g Hframe Hall).
  cbn [fst snd grid].
  split; [|split; [reflexivity|split; [reflexivity|]]].
  - apply Forall_forall. intros out Hin.
    apply in_map_iff in Hin as (e & <- & _). reflexivity.
  - intros Hpending e. simpl. unfold flushWheelAnimationFrame. simpl.
    rewrite Hpending. split; reflexivity.
Qed.

(** What the other turns of the event loop leave alone. *)
Lemma _reorderRows_wheel_state (now : Z) (g : Grid) :
  wheel_state (grid_after (_reorderRows now g)) = wheel_state g.
Proof.
  unfold _reorderRows.
  destruct (__mouseDown g); [reflexivity|].
  destruct (List.length (rows g) =? 0)%nat; [reflexivity|].
  destruct (targetRowOf g) as [t|]; [|reflexivity].
  match goal with
  | |- context [let '(_, _) := ?scrutinee in _] =>
      destruct scrutinee as [[children log] failed]
  end.
  destruct failed; [reflexivity|].
  simpl. destruct (_safari g); reflexivity.
Qed.

Lemma runDueTimeouts_wheel_state (now : Z) (g : Grid) :
  wheel_state (runDueTimeouts now g) = wheel_state g.
Proof.
  unfold runDueTimeouts.
  change (wheel_state g)
    with (wheel_state
            (set_timeouts
               (filter (fun entry => negb (is_due now entry)) (timeouts g)) g)).
  generalize (set_timeouts
                (filter (fun entry => negb (is_due now entry)) (timeouts g)) g).
  induction (filter (is_due now) (timeouts g)) as [|entry due IH];
    intros g0; simpl; [reflexivity|].
  rewrite IH. unfold runTask. destruct (snd entry).
  - apply _reorderRows_wheel_state.
  - reflexivity.
Qed.

Lemma step_other_momentum (w : World) (i : Input) :
  (forall e, i <> Wheel e) ->
  table (grid (fst (step w i))) = table (grid w)
  /\ _hasResidualMomentum (grid (fst (step w i)))
     = _hasResidualMomentum (grid w)
  /\ _previousMomentum (grid (fst (step w i))) = _previousMomentum (grid w).
Proof.
  intros Hother. destruct i as [e| |ms| | |below| |]; simpl.
  - exfalso. exact (Hother e eq_refl).
  - unfold flushWheelAnimationFrame.
    destruct (_debouncerWheelAnimationFrame (grid w)); repeat split.
  - pose proof (runDueTimeouts_wheel_state (clock w + Z.of_nat ms)
                  (expireIgnoreNewWheel (clock w + Z.of_nat ms) (grid w)))
      as H.
    unfold wheel_state in H.
    injection H as _ Ht _ _ _ _ _ Hr _ _ Hp.
    rewrite Ht, Hr, Hp. unfold expireIgnoreNewWheel.
    destruct (_debouncerIgnoreNewWheel (grid w)) as [due|]; [|repeat split].
    destruct (due <=? clock w + Z.of_nat ms); repeat split.
  - repeat split.
  - unfold on_mouseup. simpl.
    destruct (__pendingReorder (grid w)); repeat split.
  - repeat split.
  - repeat split.
  - pose proof (_reorderRows_wheel_state (clock w) (grid w)) as H.
    unfold wheel_state in H.
    injection H as _ Ht _ _ _ _ _ Hr _ _ Hp.
    rewrite Ht, Hr, Hp. repeat split.
Qed.

(** X3: at the end of the scroll range, wheel events whose momentum does not
    grow are swallowed for as long as the residual-momentum flag is up,
    cooldown or not: each is marked as handled, the surface stays where it
    is and the flag stays up. *)
Theorem decaying_momentum_is_swallowed :
  forall inputs w,
    _hasResidualMomentum (grid w) = true ->
    each_wheel decaying_at_capacity w inputs ->
    Forall handled (snd (run w inputs))
    /\ table (grid (fst (run w inputs))) = table (grid w)
    /\ _hasResidualMomentum (grid (fst (run w inputs))) = true.
Proof.
  induction inputs as [|i rest IH]; intros w Hres Heach.
  { simpl. repeat split; [constructor|exact Hres]. }
  rewrite run_cons. cbn [fst snd]. simpl in Heach.
  destruct Heach as [Hhere Hrest].
  assert (Hstep : handled (snd (step w i))
                  /\ table (grid (fst (step w i))) = table (grid w)
                  /\ _hasResidualMomentum (grid (fst (step w i))) = true).
  { destruct i as [e| |ms| | |below| |].
    { destruct Hhere as [[Hskip Hcan] Hdecay].
      rewrite step_Wheel. cbn [fst snd grid]. unfold _onWheel. rewrite Hskip.
      destruct (_wheelAnimationFrame (grid w)).
      - split; [right; reflexivity|split; [reflexivity|exact Hres]].
      - specialize (Hdecay eq_refl).
        unfold foldedDeltaY in Hcan. unfold momentumOf, foldedDeltaY in Hdecay.
        simpl. rewrite Hcan, Hres, Hdecay. simpl.
        split; [right; reflexivity|split; [reflexivity|exact Hres]]. }
    all: match goal with
         | |- handled (snd (step _ ?i)) /\ _ =>
             destruct (step_other_momentum w i) as (Ht & Hr & _);
               [intros e; discriminate|]
         end;
      (split; [left; reflexivity|split; [exact Ht|congruence]]). }
  destruct Hstep as (Hout & Ht & Hr).
  destruct (IH (fst (step w i)) Hr Hrest) as (Hall & Ht' & Hr').
  split; [constructor; assumption|]. split; [congruence|exact Hr'].
Qed.

(** X4: a momentum that cannot be compared, because it is NaN or because no
    previous momentum was recorded yet, never holds an event back: outside
    the cooldown, at the end of the scroll range, the event passes through
    unhandled and the residual-momentum flag stays as it is. *)
Theorem incomparable_momentum_passes_through :
  forall now g e,
    beyond_capacity g e ->
    _wheelAnimationFrame g = false ->
    _ignoreNewWheel g = false ->
    isNaN (momentumOf g e) = true
    \/ isNaN (ToNumber (_previousMomentum g)) = true ->
    snd (_onWheel now e g) = false
    /\ _hasResidualMomentum (fst (_onWheel now e g)) = _hasResidualMomentum g
    /\ _previousMomentum (fst (_onWheel now e g)) = numeric (momentumOf g e).
Proof.
  intros now g e [Hskip Hcan] Hframe Hignore Hnan.
  unfold _onWheel. rewrite Hskip, Hframe.
  unfold foldedDeltaY in Hcan. unfold momentumOf, foldedDeltaY in Hnan.
  simpl. rewrite Hcan, Hignore, orb_false_r.
  assert (Hcmp : le (add (abs (deltaX e))
                       (abs (add (normalizedDeltaY g e) (_deltaYAcc g))))
                   (ToNumber (_previousMomentum g)) = false
                 /\ gt (add (abs (deltaX e))
                          (abs (add (normalizedDeltaY g e) (_deltaYAcc g))))
                      (ToNumber (_previousMomentum g)) = false).
  { unfold gt.
    destruct (add (abs (deltaX e)) _) as [m|],
             (ToNumber (_previousMomentum g)) as [p|];
      simpl in *; try (split; reflexivity);
      destruct Hnan; discriminate. }
  destruct Hcmp as [Hle Hgt]. rewrite Hle, Hgt, andb_false_r. repeat split.
Qed.

(** X5: the cooldown started by an applied wheel event is still on at every
    moment before 500ms have passed and is over, flag and timeout cleared,
    once they have. *)
Theorem cooldown_ends_after_500ms :
  forall w e ms,
    skipsWheel (grid w) e = false ->
    _wheelAnimationFrame (grid w) = false ->
    _canScroll (table (grid w)) (deltaX e) (foldedDeltaY (grid w) e) = true ->
    let w2 := fst (step (fst (step w (Wheel e))) (Elapse ms)) in
    (Z.of_nat ms < timeouts_ms.IGNORE_WHEEL ->
     _ignoreNewWheel (grid w2) = true)
    /\ (timeouts_ms.IGNORE_WHEEL <= Z.of_nat ms ->
        _ignoreNewWheel (grid w2) = false
        /\ _debouncerIgnoreNewWheel (grid w2) = None).
Proof.
  intros w e ms Hskip Hframe Hcan w2.
  unfold w2. rewrite step_Wheel, (_onWheel_applied _ _ _ Hskip Hframe Hcan).
  cbn [fst]. cbn [step fst grid clock].
  match goal with
  | |- context [runDueTimeouts ?t ?g0] =>
      pose proof (runDueTimeouts_wheel_view t g0) as Hview
  end.
  unfold wheel_view in Hview. injection Hview as _ Hi Hd.
  rewrite Hi, Hd. unfold expireIgnoreNewWheel. simpl.
  split; intros Hms.
  - destruct (Z.leb_spec (clock w + timeouts_ms.IGNORE_WHEEL)
                (clock w + Z.of_nat ms)); [lia|reflexivity].
  - destruct (Z.leb_spec (clock w + timeouts_ms.IGNORE_WHEEL)
                (clock w + Z.of_nat ms)); [split; reflexivity|lia].
Qed.

End WheelHandlerMore.

Lemma unhandled_wheel_moves_nothing_witness :
  table (fst (@_onWheel Cssom.browser plainSuper 600 (down 120) rested_grid))
  = table rested_grid.
Proof.
  exact (proj1 (@unhandled_wheel_moves_nothing Cssom.browser plainSuper 600
                  rested_grid (down 120) eq_refl)).
Defined.

(** * Further properties of the row reorder engine *)

Lemma item_In (l : list Row) (i : Z) (x : Row) : item l i = Some x -> In x l.
Proof.
  unfold item. destruct (i <? 0); [discriminate|]. apply nth_error_In.
Qed.

Lemma item_in_range (l : list Row) (i : Z) :
  0 <= i < Z.of_nat (List.length l) -> exists x, item l i = Some x.
Proof.
  intros Hi. unfold item. destruct (Z.ltb_spec i 0); [lia|].
  destruct (nth_error l (Z.to_nat i)) as [x|] eqn:E; [exists x; reflexivity|].
  apply nth_error_None in E. lia.
Qed.

Lemma item_out_of_range (l : list Row) (i : Z) :
  i < 0 \/ Z.of_nat (List.length l) <= i -> item l i = None.
Proof.
  intros Hi. unfold item. destruct (Z.ltb_spec i 0); [reflexivity|].
  apply nth_error_None. lia.
Qed.

Lemma remove_node_perm (x : Row) (l : list Row) :
  In x l -> NoDup (map rid l) -> Permutation (x :: remove_node x l) l.
Proof.
  intros Hin Hnd. apply in_split in Hin as (X & Y & ->).
  destruct (NoDup_rid_middle X Y x Hnd) as [HX HY].
  rewrite (remove_node_middle x X Y HX HY).
  apply Permutation_middle.
Qed.

Lemma appendChild_perm (x : Row) (l : list Row) :
  In x l -> NoDup (map rid l) -> Permutation (appendChild x l) l.
Proof.
  intros Hin Hnd. unfold appendChild.
  rewrite <- (remove_node_perm x l Hin Hnd) at 2.
  rewrite Permutation_app_comm. reflexivity.
Qed.

Lemma insert_at_ref_perm (x ref : Row) :
  forall m l', insert_at_ref x ref m = Some l' -> Permutation l' (x :: m).
Proof.
  induction m as [|y m IH]; intros l' H; simpl in H; [discriminate|].
  destruct (same_node y ref).
  - injection H as <-. reflexivity.
  - destruct (insert_at_ref x ref m) as [l''|]; [|discriminate].
    injection H as <-. rewrite (IH l'' eq_refl). apply perm_swap.
Qed.

Lemma insert_at_ref_found (x ref : Row) :
  forall m, existsb (same_node ref) m = true ->
            exists l', insert_at_ref x ref m = Some l'.
Proof.
  induction m as [|y m IH]; intros H; simpl in H; [discriminate|].
  simpl. rewrite (same_node_sym y ref).
  destruct (same_node ref y); [eexists; reflexivity|].
  destruct (IH H) as [l' ->]. eexists. reflexivity.
Qed.

Lemma existsb_same_node_In (ref : Row) (l : list Row) :
  In ref l -> existsb (same_node ref) l = true.
Proof.
  intros H. apply existsb_exists. exists ref.
  split; [exact H|apply same_node_refl].
Qed.

Lemma existsb_remove_node (x ref : Row) (l : list Row) :
  same_node x ref = false ->
  existsb (same_node ref) l = true ->
  existsb (same_node ref) (remove_node x l) = true.
Proof.
  intros Hne H. apply existsb_exists in H as (y & Hy & Hsame).
  apply existsb_exists. exists y. split; [|exact Hsame].
  apply filter_In. split; [exact Hy|].
  apply Bool.negb_true_iff. unfold same_node in *.
  apply Nat.eqb_eq in Hsame. apply Nat.eqb_neq in Hne. apply Nat.eqb_neq.
  congruence.
Qed.

Lemma insertBefore_perm (x ref : Row) (l l' : list Row) :
  In x l -> NoDup (map rid l) ->
  insertBefore x ref l = Some l' -> Permutation l' l.
Proof.
  intros Hin Hnd. unfold insertBefore.
  destruct (same_node x ref).
  - destruct (existsb (same_node ref) l); [|discriminate].
    intros [= <-]. reflexivity.
  - intros H. apply insert_at_ref_perm in H. rewrite H.
    apply remove_node_perm; assumption.
Qed.

Lemma insertBefore_defined (x ref : Row) (l : list Row) :
  In ref l -> exists l', insertBefore x ref l = Some l'.
Proof.
  intros Href. unfold insertBefore.
  pose proof (existsb_same_node_In ref l Href) as Hex.
  destruct (same_node x ref) eqn:Hsame.
  - rewrite Hex. eexists. reflexivity.
  - apply insert_at_ref_found. apply existsb_remove_node; assumption.
Qed.

Lemma Permutation_NoDup_rid (l l' : list Row) :
  Permutation l l' -> NoDup (map rid l') -> NoDup (map rid l).
Proof.
  intros Hp Hnd. apply (Permutation_NoDup (l := map rid l'));
    [apply Permutation_map; symmetry; exact Hp|exact Hnd].
Qed.

Lemma appendStep_same_rows (items : list Row) (i : Z)
    (s s' : list Row * list DomOp) :
  NoDup (map rid items) ->
  same_rows items s -> appendStep items i s = Some s' -> same_rows items s'.
Proof.
  unfold same_rows, appendStep. intros Hnd Hperm.
  destruct (item items i) as [x|] eqn:Hx; [|discriminate].
  intros [= <-]. cbn [fst].
  rewrite appendChild_perm; [exact Hperm| |].
  - apply (Permutation_in x (Permutation_sym Hperm)).
    exact (item_In _ _ _ Hx).
  - exact (Permutation_NoDup_rid _ _ Hperm Hnd).
Qed.

Lemma insertStep_same_rows (items : list Row) (i : Z)
    (s s' : list Row * list DomOp) :
  NoDup (map rid items) ->
  same_rows items s -> insertStep items i s = Some s' -> same_rows items s'.
Proof.
  unfold same_rows, insertStep. intros Hnd Hperm.
  destruct (item items i) as [x|] eqn:Hx; [|discriminate].
  destruct (item items 0) as [ref|]; [|discriminate].
  destruct (insertBefore x ref (fst s)) as [l'|] eqn:Hins; [|discriminate].
  intros [= <-]. cbn [fst].
  rewrite (insertBefore_perm x ref (fst s) l'); [exact Hperm| | |exact Hins].
  - apply (Permutation_in x (Permutation_sym Hperm)).
    exact (item_In _ _ _ Hx).
  - exact (Permutation_NoDup_rid _ _ Hperm Hnd).
Qed.

Lemma for_range_invariant {St : Type} (Inv : St -> Prop)
    (body : Z -> St -> option St) :
  (forall i s s', Inv s -> body i s = Some s' -> Inv s') ->
  forall n i s, Inv s -> Inv (fst (for_range n i body s)).
Proof.
  intros Hbody. induction n as [|n IH]; intros i s Hs; [exact Hs|].
  simpl. destruct (body i s) as [s'|] eqn:E; [|exact Hs].
  apply IH. exact (Hbody i s s' Hs E).
Qed.

(** A loop whose body succeeds on every index it visits does not fail. *)
Lemma for_range_succeeds {St : Type} (Inv : St -> Prop)
    (body : Z -> St -> option St) :
  forall n i s,
    Inv s ->
    (forall j s0, i <= j < i + Z.of_nat n -> Inv s0 ->
                  exists s', body j s0 = Some s' /\ Inv s') ->
    snd (for_range n i body s) = false.
Proof.
  induction n as [|n IH]; intros i s Hs Hbody; [reflexivity|].
  simpl. destruct (Hbody i s ltac:(lia) Hs) as (s' & -> & Hs').
  apply IH; [exact Hs'|].
  intros j s0 Hj Hs0. apply Hbody; [lia|exact Hs0].
Qed.

(** A loop that starts on an index with no item fails at once. *)
Lemma for_range_fails_at_once {St : Type} (body : Z -> St -> option St)
    (n : nat) (i : Z) (s : St) :
  body i s = None -> for_range (S n) i body s = (s, true).
Proof. intros H. simpl. rewrite H. reflexivity. Qed.

Lemma for_range_add {St : Type} (body : Z -> St -> option St) :
  forall n m i s,
    for_range (n + m) i body s
    = if snd (for_range n i body s) then for_range n i body s
      else for_range m (i + Z.of_nat n) body (fst (for_range n i body s)).
Proof.
  induction n as [|n IH]; intros m i s.
  - simpl. rewrite Z.add_0_r. reflexivity.
  - cbn [Nat.add for_range]. destruct (body i s) as [s'|]; [|reflexivity].
    rewrite IH. replace (i + 1 + Z.of_nat n) with (i + Z.of_nat (S n)) by lia.
    reflexivity.
Qed.

(** What the engine hands back, in terms of its loops. *)
Lemma _reorderRows_unfold (now : Z) (g : Grid) (t : Row) :
  __mouseDown g = false ->
  rows g <> [] ->
  targetRowOf g = Some t ->
  let delta := indexOf t (rows g) - targetPhysicalIndexOf g t in
  let loop :=
    if delta >? 0 then
      for_range (Z.to_nat delta) 0 (appendStep (rows g)) (rows g, [])
    else if delta <? 0 then
      for_range (Z.to_nat (- delta)) (Z.of_nat (List.length (rows g)) + delta)
        (insertStep (rows g)) (rows g, [])
    else ((rows g, []), false) in
  rows (grid_after (_reorderRows now g)) = fst (fst loop)
  /\ dom_moves (_reorderRows now g) = snd (fst loop)
  /\ threw (_reorderRows now g) = snd loop
  /\ (snd loop = true ->
      grid_after (_reorderRows now g) = set_rows (fst (fst loop)) g).
Proof.
  intros Hmouse Hrows Ht delta loop. unfold _reorderRows.
  rewrite Hmouse, Ht.
  assert (Hlen : (List.length (rows g) =? 0)%nat = false).
  { apply Nat.eqb_neq. destruct (rows g); [contradiction|discriminate]. }
  rewrite Hlen. fold delta. fold loop.
  destruct loop as [[children log] failed]. cbn [fst snd].
  destruct failed; [repeat split|].
  simpl. destruct (_safari g); repeat split; discriminate.
Qed.

(** X6: the engine creates and destroys no row: whatever the target, and
    also when a DOM call fails half way, the rows on the container
    afterwards are the rows it found, each exactly once. *)
Theorem reorder_keeps_the_rows :
  forall now g,
    NoDup (map rid (rows g)) ->
    Permutation (rows (grid_after (_reorderRows now g))) (rows g)
    /\ NoDup (map rid (rows (grid_after (_reorderRows now g))))
    /\ List.length (rows (grid_after (_reorderRows now g)))
       = List.length (rows g).
Proof.
  intros now g Hnd.
  assert (Hperm : Permutation (rows (grid_after (_reorderRows now g)))
                    (rows g)).
  { destruct (__mouseDown g) eqn:Hmouse.
    { unfold _reorderRows. rewrite Hmouse. reflexivity. }
    destruct (List.length (rows g) =? 0)%nat eqn:Hlen.
    { unfold _reorderRows. rewrite Hmouse, Hlen. reflexivity. }
    destruct (targetRowOf g) as [t|] eqn:Ht.
    2:{ unfold _reorderRows. rewrite Hmouse, Hlen, Ht. reflexivity. }
    assert (Hne : rows g <> []).
    { intros E. rewrite E in Hlen. discriminate. }
    destruct (_reorderRows_unfold now g t Hmouse Hne Ht) as (-> & _).
    destruct (indexOf t (rows g) - targetPhysicalIndexOf g t >? 0).
    - apply (for_range_invariant (same_rows (rows g)));
        [|unfold same_rows; reflexivity].
      intros i s s' Hs. apply appendStep_same_rows; assumption.
    - destruct (indexOf t (rows g) - targetPhysicalIndexOf g t <? 0);
        [|reflexivity].
      apply (for_range_invariant (same_rows (rows g)));
        [|unfold same_rows; reflexivity].
      intros i s s' Hs. apply insertStep_same_rows; assumption. }
  split; [exact Hperm|]. split.
  - exact (Permutation_NoDup_rid _ _ Hperm Hnd).
  - apply Permutation_length. exact Hperm.
Qed.

Lemma rotate_length (k : nat) (l : list Row) :
  List.length (rotate k l) = List.length l.
Proof.
  unfold rotate. rewrite length_app, Nat.add_comm, <- length_app, firstn_skipn.
  reflexivity.
Qed.

Lemma rotate_perm (k : nat) (l : list Row) : Permutation (rotate k l) l.
Proof.
  unfold rotate. rewrite Permutation_app_comm, firstn_skipn. reflexivity.
Qed.

Lemma indexOf_nth_error (l : list Row) (p : nat) (t : Row) :
  NoDup (map rid l) -> nth_error l p = Some t -> indexOf t l = Z.of_nat p.
Proof.
  intros Hnd Hp. apply nth_error_split in Hp as (l1 & l2 & -> & <-).
  apply indexOf_middle. exact (proj1 (NoDup_rid_middle l1 l2 t Hnd)).
Qed.

Lemma In_indexOf (l : list Row) (t : Row) :
  NoDup (map rid l) -> In t l ->
  exists p, nth_error l p = Some t /\ indexOf t l = Z.of_nat p
            /\ (p < List.length l)%nat.
Proof.
  intros Hnd Hin. apply In_nth_error in Hin as [p Hp]. exists p.
  split; [exact Hp|]. split; [exact (indexOf_nth_error l p t Hnd Hp)|].
  apply nth_error_Some. congruence.
Qed.

(** Turning the list forward by [d] brings position [p] to [p - d] ... *)
Lemma nth_error_rotate_front (l : list Row) (d p : nat) :
  (d <= p)%nat -> (p < List.length l)%nat ->
  nth_error (rotate d l) (p - d) = nth_error l p.
Proof.
  intros Hd Hp. unfold rotate.
  rewrite nth_error_app1 by (rewrite length_skipn; lia).
  rewrite nth_error_skipn. f_equal. lia.
Qed.

(** ... and the positions before [d] to the end. *)
Lemma nth_error_rotate_back (l : list Row) (d p : nat) :
  (p < d)%nat -> (d <= List.length l)%nat ->
  nth_error (rotate d l) (List.length l - d + p) = nth_error l p.
Proof.
  intros Hp Hd. unfold rotate.
  rewrite nth_error_app2 by (rewrite length_skipn; lia).
  rewrite length_skipn, nth_error_firstn.
  replace (List.length l - d + p - (List.length l - d))%nat with p by lia.
  destruct (Nat.ltb_spec p d); [reflexivity|lia].
Qed.

(** The forward loop of [d] rounds is a rotation by [d]. *)
Lemma append_rotation (l : list Row) (d : nat) :
  NoDup (map rid l) -> (d <= List.length l)%nat ->
  for_range d 0 (appendStep l) (l, [])
  = ((rotate d l, map AppendChild (firstn d l)), false).
Proof.
  intros Hnd Hd.
  pose proof (append_loop (skipn d l) (firstn d l) [] []) as H.
  cbn [app List.length] in H.
  rewrite app_nil_r, firstn_skipn, (firstn_length_le l Hd) in H.
  exact (H Hnd).
Qed.

(** The backward loop of [k] rounds is a rotation by the other [N - k]. *)
Lemma insert_rotation (a0 : Row) (l' : list Row) (k : nat) :
  NoDup (map rid (a0 :: l')) -> (k <= List.length l')%nat ->
  for_range k (Z.of_nat (List.length (a0 :: l') - k))
    (insertStep (a0 :: l')) (a0 :: l', [])
  = ((rotate (List.length (a0 :: l') - k) (a0 :: l'),
      map (fun b => InsertBefore b a0)
        (skipn (List.length (a0 :: l') - k) (a0 :: l'))),
     false).
Proof.
  intros Hnd Hk.
  set (l := a0 :: l') in *.
  set (m := (List.length l - k)%nat).
  assert (Hm : m = S (List.length l' - k))
    by (unfold m, l; cbn [List.length]; lia).
  assert (Hfirst : firstn m l = a0 :: firstn (List.length l' - k) l')
    by (rewrite Hm; reflexivity).
  pose proof (insert_loop a0 (firstn (List.length l' - k) l') (skipn m l)
                [] []) as H.
  rewrite <- Hfirst in H. cbn [app List.length] in H.
  rewrite firstn_skipn in H.
  assert (Hlen : List.length (firstn m l) = m).
  { apply firstn_length_le. unfold m. lia. }
  rewrite Hlen, Nat.add_0_r in H.
  assert (Hrounds : List.length (skipn m l) = k).
  { rewrite length_skipn. unfold m, l. cbn [List.length]. lia. }
  rewrite Hrounds in H.
  unfold rotate. exact (H Hnd).
Qed.

(** X7: when the target row is one of the rendered rows and its desired
    position lies inside them, the engine fails on no DOM call, makes
    exactly |P - D| of them, leaves the target at its desired position and
    turns the rows as a ring: the cyclic order of the rows is kept, in
    index order or not. *)
Theorem reorder_puts_target_in_place :
  forall now g t,
    __mouseDown g = false ->
    NoDup (map rid (rows g)) ->
    targetRowOf g = Some t ->
    In t (rows g) ->
    0 <= targetPhysicalIndexOf g t < Z.of_nat (List.length (rows g)) ->
    let after := _reorderRows now g in
    threw after = false
    /\ indexOf t (rows (grid_after after)) = targetPhysicalIndexOf g t
    /\ Z.of_nat (List.length (dom_moves after))
       = Z.abs (indexOf t (rows g) - targetPhysicalIndexOf g t)
    /\ exists k, (k < List.length (rows g))%nat
                 /\ rows (grid_after after) = rotate k (rows g).
Proof.
  intros now g t Hmouse Hnd Ht Hin HD after.
  assert (Hne : rows g <> []) by (destruct (rows g); [contradiction|discriminate]).
  destruct (_reorderRows_unfold now g t Hmouse Hne Ht)
    as (Hrows & Hmoves & Hthrew & _).
  fold after in Hrows, Hmoves, Hthrew. rewrite Hrows, Hmoves, Hthrew.
  clear Hrows Hmoves Hthrew.
  destruct (In_indexOf (rows g) t Hnd Hin) as (p & Hp & HP & Hlt).
  rewrite HP.
  set (D := targetPhysicalIndexOf g t) in *.
  destruct (Z.gtb_spec (Z.of_nat p - D) 0) as [Hpos|Hnpos].
  - (* forwards *)
    set (d := Z.to_nat (Z.of_nat p - D)).
    rewrite (append_rotation (rows g) d Hnd) by (unfold d; lia).
    cbn [fst snd]. split; [reflexivity|]. split; [|split].
    + rewrite (indexOf_nth_error (rotate d (rows g)) (p - d) t).
      * unfold d. lia.
      * exact (Permutation_NoDup_rid _ _ (rotate_perm d (rows g)) Hnd).
      * rewrite nth_error_rotate_front by (unfold d; lia). exact Hp.
    + rewrite length_map, firstn_length_le by (unfold d; lia). unfold d. lia.
    + exists d. split; [unfold d; lia|reflexivity].
  - destruct (Z.ltb_spec (Z.of_nat p - D) 0) as [Hneg|Hzero].
    + (* backwards *)
      set (k := Z.to_nat (- (Z.of_nat p - D))).
      destruct (rows g) as [|a0 l'] eqn:El; [contradiction|].
      assert (Hk : (k <= List.length l')%nat)
        by (unfold k; cbn [List.length] in *; lia).
      replace (Z.of_nat (List.length (a0 :: l')) + (Z.of_nat p - D))
        with (Z.of_nat (List.length (a0 :: l') - k))
        by (unfold k; cbn [List.length] in *; lia).
      rewrite (insert_rotation a0 l' k Hnd Hk). cbn [fst snd].
      split; [reflexivity|]. split; [|split].
      * rewrite (indexOf_nth_error
                   (rotate (List.length (a0 :: l') - k) (a0 :: l'))
                   (List.length (a0 :: l')
                    - (List.length (a0 :: l') - k) + p) t).
        -- unfold k. cbn [List.length] in *. lia.
        -- exact (Permutation_NoDup_rid _ _ (rotate_perm _ _) Hnd).
        -- rewrite nth_error_rotate_back;
             [exact Hp|unfold k; cbn [List.length] in *; lia|lia].
      * rewrite length_map, length_skipn. unfold k.
        cbn [List.length] in *. lia.
      * exists (List.length (a0 :: l') - k)%nat.
        split; [unfold k; cbn [List.length] in *; lia|reflexivity].
    + (* already in place *)
      cbn [fst snd]. split; [reflexivity|]. split; [|split].
      * rewrite HP. lia.
      * simpl. lia.
      * exists 0%nat. split; [lia|].
        unfold rotate. simpl. rewrite app_nil_r. reflexivity.
Qed.

(** X8: the engine fails exactly when the target would have to travel
    further than there are rows: with N rows and delta = P - D, a DOM call
    throws if and only if delta > N or delta < -N.  Below -N the first call
    already throws and nothing has changed; above N all N rows have been
    moved once round before the call that throws. *)
Theorem reorder_fails_beyond_reach :
  forall now g t,
    __mouseDown g = false ->
    NoDup (map rid (rows g)) ->
    rows g <> [] ->
    targetRowOf g = Some t ->
    let N := Z.of_nat (List.length (rows g)) in
    let delta := indexOf t (rows g) - targetPhysicalIndexOf g t in
    let after := _reorderRows now g in
    (threw after = true <-> delta > N \/ delta < - N)
    /\ (delta < - N -> dom_moves after = [] /\ grid_after after = g)
    /\ (delta > N ->
        rows (grid_after after) = rows g
        /\ Z.of_nat (List.length (dom_moves after)) = N).
Proof.
  intros now g t Hmouse Hnd Hne Ht N delta after.
  destruct (_reorderRows_unfold now g t Hmouse Hne Ht)
    as (Hrows & Hmoves & Hthrew & Hgrid).
  fold after delta in Hrows, Hmoves, Hthrew, Hgrid.
  rewrite Hrows, Hmoves, Hthrew. clear Hrows Hmoves Hthrew.
  assert (Hstart : same_rows (rows g) (rows g, []))
    by (unfold same_rows; reflexivity).
  destruct (Z.gtb_spec delta 0) as [Hpos|Hnpos].
  - (* forwards *)
    destruct (Z_le_gt_dec delta N) as [Hle|Hgt].
    + assert (Hok : snd (for_range (Z.to_nat delta) 0 (appendStep (rows g))
                           (rows g, [])) = false).
      { apply (for_range_succeeds (same_rows (rows g))); [exact Hstart|].
        intros j s0 Hj Hs0.
        destruct (item_in_range (rows g) j) as [x Hx]; [unfold N in Hle; lia|].
        exists (appendChild x (fst s0), snd s0 ++ [AppendChild x]).
        assert (E : appendStep (rows g) j s0
                    = Some (appendChild x (fst s0), snd s0 ++ [AppendChild x]))
          by (unfold appendStep; rewrite Hx; reflexivity).
        split; [exact E|].
        exact (appendStep_same_rows _ _ _ _ Hnd Hs0 E). }
      rewrite Hok. split; [|split]; [|lia|lia].
      split; [discriminate|lia].
    + set (extra := (Z.to_nat delta - List.length (rows g))%nat).
      assert (Hsplit : Z.to_nat delta
                       = (List.length (rows g) + S (pred extra))%nat)
        by (unfold extra, N in *; lia).
      rewrite Hsplit, for_range_add.
      rewrite (append_rotation (rows g) (List.length (rows g)) Hnd)
        by lia.
      cbn [fst snd].
      rewrite for_range_fails_at_once.
      2:{ unfold appendStep.
          rewrite (item_out_of_range (rows g)) by lia. reflexivity. }
      cbn [fst snd]. split; [|split]; [|lia|].
      * split; [intros _; left; exact Hgt|reflexivity].
      * intros _. unfold rotate.
        rewrite skipn_all, firstn_all, length_map. split; reflexivity.
  - destruct (Z.ltb_spec delta 0) as [Hneg|Hzero].
    + (* backwards *)
      destruct (Z_le_gt_dec (- N) delta) as [Hge|Hlt].
      * assert (Hok : snd (for_range (Z.to_nat (- delta)) (N + delta)
                             (insertStep (rows g)) (rows g, [])) = false).
        { apply (for_range_succeeds (same_rows (rows g))); [exact Hstart|].
          intros j s0 Hj Hs0.
          destruct (item_in_range (rows g) j) as [x Hx]; [unfold N in *; lia|].
          destruct (item_in_range (rows g) 0) as [ref Href].
          { destruct (rows g); [contradiction|cbn [List.length]; lia]. }
          destruct (insertBefore_defined x ref (fst s0)) as [l' Hins].
          { apply (Permutation_in ref (Permutation_sym Hs0)).
            exact (item_In _ _ _ Href). }
          exists (l', snd s0 ++ [InsertBefore x ref]).
          assert (E : insertStep (rows g) j s0
                      = Some (l', snd s0 ++ [InsertBefore x ref]))
            by (unfold insertStep; rewrite Hx, Href, Hins; reflexivity).
          split; [exact E|].
          exact (insertStep_same_rows _ _ _ _ Hnd Hs0 E). }
        fold N. rewrite Hok. split; [|split]; [|lia|lia].
        split; [discriminate|lia].
      * fold N.
        assert (Hrounds : Z.to_nat (- delta)
                          = S (pred (Z.to_nat (- delta)))) by lia.
        rewrite Hrounds, for_range_fails_at_once.
        2:{ unfold insertStep.
            rewrite (item_out_of_range (rows g)) by (unfold N in *; lia).
            reflexivity. }
        cbn [fst snd]. split; [|split]; [| |lia].
        -- split; [intros _; right; lia|reflexivity].
        -- intros _. split; [reflexivity|].
           rewrite Hgrid.
           ++ rewrite Hrounds, for_range_fails_at_once.
              ** apply set_rows_same.
              ** unfold insertStep.
                 rewrite (item_out_of_range (rows g)) by (unfold N in *; lia).
                 reflexivity.
           ++ destruct (Z.gtb_spec delta 0); [lia|].
              destruct (Z.ltb_spec delta 0); [|lia].
              fold N. rewrite Hrounds, for_range_fails_at_once; [reflexivity|].
              unfold insertStep.
              rewrite (item_out_of_range (rows g)) by (unfold N in *; lia).
              reflexivity.
    + cbn [fst snd]. split; [|split]; [|lia|lia].
      split; [discriminate|lia].
Qed.

(** * Drag sessions *)

Section DragSessions.

Context {browser : Browser} {superClass : SuperClass}.

Lemma run_app (inputs1 inputs2 : list Input) :
  forall w,
    fst (run w (inputs1 ++ inputs2))
    = fst (run (fst (run w inputs1)) inputs2).
Proof.
  induction inputs1 as [|i rest IH]; intros w; [reflexivity|].
  cbn [app]. rewrite !run_cons. cbn [fst]. apply IH.
Qed.

Lemma run_requests_while_down (k : nat) :
  forall g now,
    __mouseDown g = true ->
    fst (run (mkWorld g now) (repeat ReorderRows k))
    = mkWorld (match k with
               | O => g
               | S _ => set___pendingReorder true g
               end) now.
Proof.
  induction k as [|k IH]; intros g now Hdown; [reflexivity|].
  cbn [repeat]. rewrite run_cons. cbn [fst step grid clock].
  unfold _reorderRows at 1. rewrite Hdown. cbn [grid_after].
  rewrite IH by exact Hdown.
  destruct k; reflexivity.
Qed.

(** X9: a drag session schedules at most one reorder, however many were
    asked for while the mouse was down: none without a request, exactly one
    (500ms after the release) with one or more; no row moves during the
    session and both drag flags are down at its end. *)
Theorem drag_session_schedules_one_reorder :
  forall w k,
    __pendingReorder (grid w) = false ->
    let w' := fst (run w (drag_session k)) in
    rows (grid w') = rows (grid w)
    /\ __mouseDown (grid w') = false
    /\ __pendingReorder (grid w') = false
    /\ timeouts (grid w')
       = match k with
         | O => timeouts (grid w)
         | S _ => enqueue (clock w + timeouts_ms.SCROLLING) TReorderRows
                    (timeouts (grid w))
         end
    /\ pending_reorders (timeouts (grid w'))
       = (pending_reorders (timeouts (grid w))
          + match k with O => 0 | S _ => 1 end)%nat.
Proof.
  intros [g now] k Hpending w'. cbn [grid clock] in *.
  unfold w', drag_session. rewrite run_cons. cbn [fst step grid clock].
  rewrite run_app, run_requests_while_down by reflexivity.
  rewrite run_cons. cbn [fst step grid clock run].
  unfold on_mouseup, on_mousedown. destruct k as [|k]; simpl.
  - rewrite Hpending. simpl. repeat split; [exact Hpending|lia].
  - repeat split. rewrite pending_reorders_enqueue. lia.
Qed.

Lemma _onWheel_drag (now : Z) (g : Grid) (e : WheelEvent) :
  keeps_rows _scrollHandler ->
  rows (fst (_onWheel now e g)) = rows g
  /\ __mouseDown (fst (_onWheel now e g)) = __mouseDown g
  /\ __pendingReorder (fst (_onWheel now e g)) = __pendingReorder g.
Proof.
  intros Hkeeps. unfold _onWheel.
  destruct (skipsWheel g e); [repeat split|].
  destruct (_wheelAnimationFrame g); [repeat split|].
  simpl.
  destruct (_canScroll (table g) (deltaX e)
              (add (normalizedDeltaY g e) (_deltaYAcc g))).
  - unfold applyWheel. simpl.
    match goal with
    | |- context [_scrollHandler ?g0] =>
        destruct (Hkeeps g0) as (Hr & Hm & Hp)
    end.
    rewrite Hr, Hm, Hp. repeat split.
  - destruct ((_hasResidualMomentum g && _) || _ignoreNewWheel g);
      [repeat split|].
    destruct (gt _ _); repeat split.
Qed.

Lemma expireIgnoreNewWheel_drag (now : Z) (g : Grid) :
  drag_view (expireIgnoreNewWheel now g) = drag_view g
  /\ __pendingReorder (expireIgnoreNewWheel now g) = __pendingReorder g.
Proof.
  unfold expireIgnoreNewWheel.
  destruct (_debouncerIgnoreNewWheel g) as [due|]; [|split; reflexivity].
  destruct (due <=? now); split; reflexivity.
Qed.

(** While the mouse is down, callbacks that come due move no row. *)
Lemma runDueTimeouts_while_down (now : Z) (g : Grid) :
  __mouseDown g = true ->
  drag_view (runDueTimeouts now g) = drag_view g
  /\ (__pendingReorder g = true ->
      __pendingReorder (runDueTimeouts now g) = true).
Proof.
  intros Hdown. unfold runDueTimeouts.
  assert (Hgen : forall due g0,
             __mouseDown g0 = true ->
             drag_view (fold_left (runTask now) due g0) = drag_view g0
             /\ (__pendingReorder g0 = true ->
                 __pendingReorder (fold_left (runTask now) due g0) = true)).
  { induction due as [|entry due IH]; intros g0 Hd; [split; auto|].
    cbn [fold_left].
    assert (Hone : drag_view (runTask now g0 entry) = drag_view g0
                   /\ (__pendingReorder g0 = true ->
                       __pendingReorder (runTask now g0 entry) = true)).
    { unfold runTask. destruct (snd entry).
      - unfold _reorderRows. rewrite Hd. split; reflexivity.
      - split; [reflexivity|auto]. }
    destruct Hone as [Hv Hp].
    assert (Hd' : __mouseDown (runTask now g0 entry) = true).
    { unfold drag_view in Hv. injection Hv as _ Hm. congruence. }
    destruct (IH (runTask now g0 entry) Hd') as [Hv' Hp'].
    split; [congruence|auto]. }
  exact (Hgen (filter (is_due now) (timeouts g))
           (set_timeouts
              (filter (fun entry => negb (is_due now entry)) (timeouts g)) g)
           Hdown).
Qed.

(** X10: for as long as the mouse is held on the scroll surface no row
    moves, whatever else happens (wheel events, animation frames, timeouts
    coming due, focus changes, requests to reorder); a request made in that
    time is remembered in the pending flag. *)
Theorem rows_rest_while_mouse_is_down :
  forall inputs w,
    keeps_rows _scrollHandler ->
    __mouseDown (grid w) = true ->
    ~ In MouseUp inputs ->
    rows (grid (fst (run w inputs))) = rows (grid w)
    /\ __mouseDown (grid (fst (run w inputs))) = true
    /\ (__pendingReorder (grid w) = true \/ In ReorderRows inputs ->
        __pendingReorder (grid (fst (run w inputs))) = true).
Proof.
  induction inputs as [|i rest IH]; intros w Hkeeps Hdown Hno.
  { simpl. repeat split; [exact Hdown|]. intros [H|[]]. exact H. }
  rewrite run_cons. cbn [fst].
  assert (Hstep : rows (grid (fst (step w i))) = rows (grid w)
                  /\ __mouseDown (grid (fst (step w i))) = true
                  /\ (__pendingReorder (grid w) = true \/ i = ReorderRows ->
                      __pendingReorder (grid (fst (step w i))) = true)).
  { destruct i as [e| |ms| | |below| |].
    - rewrite step_Wheel. cbn [fst grid].
      destruct (_onWheel_drag (clock w) (grid w) e Hkeeps) as (Hr & Hm & Hp).
      rewrite Hr, Hm, Hp. repeat split; [exact Hdown|].
      intros [H|H]; [exact H|discriminate].
    - simpl. unfold flushWheelAnimationFrame.
      destruct (_debouncerWheelAnimationFrame (grid w)); simpl;
        (repeat split; [exact Hdown|intros [H|H]; [exact H|discriminate]]).
    - cbn [step fst grid].
      destruct (expireIgnoreNewWheel_drag (clock w + Z.of_nat ms) (grid w))
        as [Hv Hp].
      assert (Hd : __mouseDown
                     (expireIgnoreNewWheel (clock w + Z.of_nat ms) (grid w))
                   = true).
      { unfold drag_view in Hv. injection Hv as _ Hm. congruence. }
      destruct (runDueTimeouts_while_down (clock w + Z.of_nat ms) _ Hd)
        as [Hv' Hp'].
      unfold drag_view in Hv, Hv'.
      injection Hv as Hr Hm. injection Hv' as Hr' Hm'.
      repeat split; [congruence|congruence|].
      intros [H|H]; [|discriminate]. apply Hp'. congruence.
    - simpl. repeat split. intros [H|H]; [exact H|discriminate].
    - exfalso. apply Hno. left. reflexivity.
    - simpl. repeat split; [exact Hdown|].
      intros [H|H]; [exact H|discriminate].
    - simpl. repeat split; [exact Hdown|].
      intros [H|H]; [exact H|discriminate].
    - cbn [step fst grid]. unfold _reorderRows. rewrite Hdown.
      repeat split. exact Hdown. }
  destruct Hstep as (Hr & Hm & Hp).
  assert (Hno' : ~ In MouseUp rest) by (intros H; apply Hno; right; exact H).
  destruct (IH (fst (step w i)) Hkeeps Hm Hno') as (Hr' & Hm' & Hp').
  split; [congruence|]. split; [exact Hm'|].
  intros [H|[H|H]].
  - apply Hp'. left. apply Hp. left. exact H.
  - apply Hp'. left. apply Hp. right. exact H.
  - apply Hp'. right. exact H.
Qed.

End DragSessions.

(** * The last frozen column *)

Module ColumnsFacts.
Import Columns.

Lemma insert_by_order_perm (heap : Heap) (ref : nat) (sorted : list nat) :
  Permutation (insert_by_order heap ref sorted) (ref :: sorted).
Proof.
  induction sorted as [|r rest IH]; simpl; [reflexivity|].
  destruct (_order (heap r) <=? _order (heap ref)); [|reflexivity].
  rewrite IH. apply perm_swap.
Qed.

Lemma sort_by_order_perm (heap : Heap) (columnsRow : list nat) :
  Permutation (sort_by_order heap columnsRow) columnsRow.
Proof.
  unfold sort_by_order.
  assert (Hgen : forall acc,
             Permutation
               (fold_left (fun sorted ref => insert_by_order heap ref sorted)
                  columnsRow acc)
               (columnsRow ++ acc)).
  { induction columnsRow as [|c rest IH]; intros acc; simpl; [reflexivity|].
    rewrite IH, insert_by_order_perm. symmetry. apply Permutation_middle. }
  rewrite Hgen, app_nil_r. reflexivity.
Qed.

Lemma insert_by_order_sorted (heap : Heap) (ref : nat) (sorted : list nat) :
  StronglySorted (by_order heap) sorted ->
  StronglySorted (by_order heap) (insert_by_order heap ref sorted).
Proof.
  induction 1 as [|r rest Hrest IH Hr]; simpl.
  - constructor; constructor.
  - destruct (Z.leb_spec (_order (heap r)) (_order (heap ref))).
    + constructor; [exact IH|].
      apply Forall_forall. intros x Hx.
      apply (Permutation_in x (insert_by_order_perm heap ref rest)) in Hx.
      destruct Hx as [<-|Hx]; [exact H|].
      rewrite Forall_forall in Hr. exact (Hr x Hx).
    + constructor; [constructor; assumption|].
      constructor; [unfold by_order; lia|].
      apply Forall_forall. intros x Hx.
      rewrite Forall_forall in Hr. specialize (Hr x Hx).
      unfold by_order in *. lia.
Qed.

Lemma sort_by_order_sorted (heap : Heap) (columnsRow : list nat) :
  StronglySorted (by_order heap) (sort_by_order heap columnsRow).
Proof.
  unfold sort_by_order.
  assert (Hgen : forall acc,
             StronglySorted (by_order heap) acc ->
             StronglySorted (by_order heap)
               (fold_left (fun sorted ref => insert_by_order heap ref sorted)
                  columnsRow acc)).
  { induction columnsRow as [|c rest IH]; intros acc Hacc; simpl;
      [exact Hacc|].
    apply IH, insert_by_order_sorted, Hacc. }
  apply Hgen. constructor.
Qed.

(** The sort looks at the [_order] fields only. *)
Lemma sort_by_order_ext (h1 h2 : Heap) (columnsRow : list nat) :
  (forall id, _order (h1 id) = _order (h2 id)) ->
  sort_by_order h1 columnsRow = sort_by_order h2 columnsRow.
Proof.
  intros Hext. unfold sort_by_order.
  generalize (@nil nat).
  induction columnsRow as [|c rest IH]; intros acc; simpl; [reflexivity|].
  rewrite IH. f_equal.
  induction acc as [|r acc IHacc]; simpl; [reflexivity|].
  rewrite !Hext, IHacc. reflexivity.
Qed.

Lemma write_lastFrozen_fields (ref : nat) (v : bool) (heap : Heap) (id : nat) :
  _order (write_lastFrozen ref v heap id) = _order (heap id)
  /\ frozen (write_lastFrozen ref v heap id) = frozen (heap id)
  /\ hidden (write_lastFrozen ref v heap id) = hidden (heap id).
Proof.
  unfold write_lastFrozen. destruct (Nat.eqb_spec id ref) as [->|];
    repeat split.
Qed.

(** The [reduce] in two parts. *)
Lemma reduce_lastFrozen_split (columnsRow : list nat) :
  forall index prev heap,
    fst (reduce_lastFrozen columnsRow index prev heap)
    = last_frozen_visible heap columnsRow index prev
    /\ same_heap (snd (reduce_lastFrozen columnsRow index prev heap))
         (unmarked columnsRow heap).
Proof.
  induction columnsRow as [|c rest IH]; intros index prev heap.
  - split; [reflexivity|]. intros id. reflexivity.
  - cbn [reduce_lastFrozen last_frozen_visible].
    destruct (IH (S index)
                (if frozen (write_lastFrozen c false heap c)
                    && negb (hidden (write_lastFrozen c false heap c))
                 then Some index else prev)
                (write_lastFrozen c false heap)) as [Hres Hheap].
    split.
    + rewrite Hres.
      destruct (write_lastFrozen_fields c false heap c) as (_ & Hf & Hh).
      rewrite Hf, Hh. fold (frozen_visible (heap c)).
      generalize (if frozen_visible (heap c) then Some index else prev).
      generalize (S index). clear.
      induction rest as [|r rest IH]; intros i p; [reflexivity|].
      cbn [last_frozen_visible].
      assert (E : frozen_visible (write_lastFrozen c false heap r)
                  = frozen_visible (heap r)).
      { destruct (write_lastFrozen_fields c false heap r) as (_ & Hf & Hh).
        unfold frozen_visible. rewrite Hf, Hh. reflexivity. }
      rewrite E. apply IH.
    + intros id. rewrite Hheap. unfold unmarked. cbn [existsb].
      destruct (write_lastFrozen_fields c false heap id) as (Ho & Hf & Hh).
      rewrite Ho, Hf, Hh. unfold write_lastFrozen.
      destruct (Nat.eqb_spec id c) as [->|Hne]; simpl.
      * destruct (existsb (Nat.eqb c) rest); reflexivity.
      * reflexivity.
Qed.

Lemma last_frozen_visible_none (heap : Heap) (columnsRow : list nat) :
  forall index prev,
    Forall (fun c => frozen_visible (heap c) = false) columnsRow ->
    last_frozen_visible heap columnsRow index prev = prev.
Proof.
  induction columnsRow as [|c rest IH]; intros index prev Hall;
    [reflexivity|].
  inversion Hall as [|? ? Hc Hrest]; subst. simpl. rewrite Hc.
  apply IH. exact Hrest.
Qed.

Lemma last_frozen_visible_some (heap : Heap) (before : list nat) :
  forall index prev winner after,
    frozen_visible (heap winner) = true ->
    Forall (fun c => frozen_visible (heap c) = false) after ->
    last_frozen_visible heap (before ++ winner :: after) index prev
    = Some (index + List.length before)%nat.
Proof.
  induction before as [|b before IH]; intros index prev winner after Hw Hafter.
  - simpl. rewrite Hw, Nat.add_0_r.
    apply last_frozen_visible_none. exact Hafter.
  - cbn [app last_frozen_visible]. rewrite (IH _ _ _ _ Hw Hafter).
    cbn [List.length]. f_equal. lia.
Qed.

(** Any row either holds no column that counts, or has a last one. *)
Lemma last_frozen_visible_cases (heap : Heap) (columnsRow : list nat) :
  Forall (fun c => frozen_visible (heap c) = false) columnsRow
  \/ exists before winner after,
       columnsRow = before ++ winner :: after
       /\ frozen_visible (heap winner) = true
       /\ Forall (fun c => frozen_visible (heap c) = false) after.
Proof.
  induction columnsRow as [|c rest IH]; [left; constructor|].
  destruct IH as [Hnone|(before & winner & after & -> & Hw & Hafter)].
  - destruct (frozen_visible (heap c)) eqn:Hc.
    + right. exists [], c, rest. repeat split; assumption.
    + left. constructor; assumption.
  - right. exists (c :: before), winner, after. repeat split; assumption.
Qed.

Lemma existsb_eqb_In (id : nat) (l : list nat) :
  existsb (Nat.eqb id) l = true <-> In id l.
Proof.
  rewrite existsb_exists. split.
  - intros (x & Hx & E). apply Nat.eqb_eq in E. subst. exact Hx.
  - intros H. exists id. split; [exact H|apply Nat.eqb_refl].
Qed.

Lemma unmarked_perm (l l' : list nat) (heap : Heap) :
  Permutation l l' -> same_heap (unmarked l heap) (unmarked l' heap).
Proof.
  intros Hp id. unfold unmarked.
  destruct (existsb (Nat.eqb id) l) eqn:E, (existsb (Nat.eqb id) l') eqn:E';
    try reflexivity; exfalso.
  - apply existsb_eqb_In in E. apply (Permutation_in id Hp) in E.
    apply existsb_eqb_In in E. congruence.
  - apply existsb_eqb_In in E'.
    apply (Permutation_in id (Permutation_sym Hp)) in E'.
    apply existsb_eqb_In in E'. congruence.
Qed.

Lemma write_lastFrozen_ext (ref : nat) (v : bool) (h1 h2 : Heap) :
  same_heap h1 h2 ->
  same_heap (write_lastFrozen ref v h1) (write_lastFrozen ref v h2).
Proof.
  intros H id. unfold write_lastFrozen. rewrite (H ref), (H id). reflexivity.
Qed.

Lemma StronglySorted_before (heap : Heap) (before : list nat) :
  forall x after,
    StronglySorted (by_order heap) (before ++ x :: after) ->
    forall y, In y before -> by_order heap y x.
Proof.
  induction before as [|b before IH]; intros x after Hs y Hy; [contradiction|].
  cbn [app] in Hs. inversion Hs as [|? ? Hrest Hb]; subst.
  destruct Hy as [<-|Hy].
  - rewrite Forall_forall in Hb. apply Hb. apply in_elt.
  - exact (IH x after Hrest y Hy).
Qed.

(** What the call leaves on the heap: the marks of the last row are taken
    off, and the last column in display order that is frozen and not hidden
    gets the mark. *)
Lemma _updateLastFrozen_spec (tree : list (list nat)) (lastRow : list nat)
    (heap : Heap) :
  nth_error tree (List.length tree - 1) = Some lastRow ->
  snd (_updateLastFrozen (Some tree) heap) = false
  /\ ((Forall (fun c => frozen_visible (heap c) = false) lastRow
       /\ same_heap (fst (_updateLastFrozen (Some tree) heap))
            (unmarked lastRow heap))
      \/ (exists k winner,
            nth_error (sort_by_order heap lastRow) k = Some winner
            /\ last_frozen_visible heap (sort_by_order heap lastRow) 0 None
               = Some k
            /\ In winner lastRow
            /\ frozen_visible (heap winner) = true
            /\ (forall c, In c lastRow -> frozen_visible (heap c) = true ->
                          by_order heap c winner)
            /\ same_heap (fst (_updateLastFrozen (Some tree) heap))
                 (write_lastFrozen winner true (unmarked lastRow heap)))).
Proof.
  intros Hlast. unfold _updateLastFrozen. rewrite Hlast.
  set (sorted := sort_by_order heap lastRow).
  pose proof (sort_by_order_perm heap lastRow) as Hperm. fold sorted in Hperm.
  pose proof (sort_by_order_sorted heap lastRow) as Hsorted.
  fold sorted in Hsorted. clearbody sorted.
  destruct (reduce_lastFrozen_split sorted 0 None heap) as [Hres Hheap].
  destruct (reduce_lastFrozen sorted 0 None heap) as [res heap'].
  cbn [fst snd] in Hres, Hheap. subst res.
  assert (Hheap' : same_heap heap' (unmarked lastRow heap)).
  { intros id. rewrite Hheap. apply unmarked_perm. exact Hperm. }
  destruct (last_frozen_visible_cases heap sorted)
    as [Hnone|(before & winner & after & Esorted & Hw & Hafter)].
  - rewrite (last_frozen_visible_none heap sorted 0 None Hnone).
    split; [reflexivity|]. left. split; [|exact Hheap'].
    apply Forall_forall. intros c Hc. rewrite Forall_forall in Hnone.
    apply Hnone. exact (Permutation_in c (Permutation_sym Hperm) Hc).
  - subst sorted.
    rewrite (last_frozen_visible_some heap before 0 None winner after Hw
               Hafter).
    cbn [Nat.add]. rewrite nth_error_middle.
    split; [reflexivity|]. right. exists (List.length before), winner.
    split; [apply nth_error_middle|]. split; [reflexivity|].
    assert (Hin : In winner lastRow).
    { apply (Permutation_in winner Hperm). apply in_elt. }
    split; [exact Hin|]. split; [exact Hw|]. split.
    + intros c Hc Hfv.
      apply (Permutation_in c (Permutation_sym Hperm)) in Hc.
      apply in_app_or in Hc as [Hc|[<-|Hc]].
      * exact (StronglySorted_before heap before winner after Hsorted c Hc).
      * unfold by_order. lia.
      * rewrite Forall_forall in Hafter. rewrite (Hafter c Hc) in Hfv.
        discriminate.
    + cbn [fst]. apply write_lastFrozen_ext. exact Hheap'.
Qed.

Lemma unmarked_fields (l : list nat) (heap : Heap) (id : nat) :
  _order (unmarked l heap id) = _order (heap id)
  /\ frozen (unmarked l heap id) = frozen (heap id)
  /\ hidden (unmarked l heap id) = hidden (heap id)
  /\ (In id l -> _lastFrozen (unmarked l heap id) = false)
  /\ (~ In id l -> unmarked l heap id = heap id).
Proof.
  unfold unmarked. destruct (existsb (Nat.eqb id) l) eqn:E.
  - apply existsb_eqb_In in E. repeat split. intros H. contradiction.
  - repeat split. intros H. apply existsb_eqb_In in H. congruence.
Qed.

Lemma _updateLastFrozen_last_row :
  forall rows lastRow heap,
    nth_error rows (List.length rows - 1) = Some lastRow ->
    snd (_updateLastFrozen (Some rows) heap) = false
    /\ (forall id,
           _order (fst (_updateLastFrozen (Some rows) heap) id)
           = _order (heap id)
           /\ frozen (fst (_updateLastFrozen (Some rows) heap) id)
              = frozen (heap id)
           /\ hidden (fst (_updateLastFrozen (Some rows) heap) id)
              = hidden (heap id))
    /\ forall id, ~ In id lastRow ->
                  fst (_updateLastFrozen (Some rows) heap) id = heap id.
Proof.
  intros rows lastRow heap Hrow.
  destruct (_updateLastFrozen_spec rows lastRow heap Hrow)
    as [Hok [[_ Hheap]|(k & w & _ & _ & Hin & _ & _ & Hheap)]];
    (split; [exact Hok|]); split; intros id.
  - rewrite (Hheap id).
    destruct (unmarked_fields lastRow heap id) as (Ho & Hf & Hh & _).
    repeat split; assumption.
  - intros Hnot. rewrite (Hheap id).
    exact (proj2 (proj2 (proj2 (proj2 (unmarked_fields lastRow heap id))))
             Hnot).
  - rewrite (Hheap id).
    destruct (write_lastFrozen_fields w true (unmarked lastRow heap) id)
      as (Ho & Hf & Hh).
    destruct (unmarked_fields lastRow heap id) as (Ho' & Hf' & Hh' & _).
    rewrite Ho, Hf, Hh. repeat split; assumption.
  - intros Hnot. rewrite (Hheap id). unfold write_lastFrozen.
    destruct (Nat.eqb_spec id w) as [->|_]; [contradiction|].
    exact (proj2 (proj2 (proj2 (proj2 (unmarked_fields lastRow heap id))))
             Hnot).
Qed.

(** X11: the call changes nothing but [_lastFrozen] marks, and those only
    on the columns of the last row of the tree; without a column tree it
    does nothing at all, and on a tree with no row it throws before
    touching a column. *)
Theorem lastFrozen_touches_only_marks :
  forall tree heap,
    (forall id,
        _order (fst (_updateLastFrozen tree heap) id) = _order (heap id)
        /\ frozen (fst (_updateLastFrozen tree heap) id) = frozen (heap id)
        /\ hidden (fst (_updateLastFrozen tree heap) id) = hidden (heap id))
    /\ (tree = None -> _updateLastFrozen tree heap = (heap, false))
    /\ (tree = Some [] -> _updateLastFrozen tree heap = (heap, true))
    /\ (forall rows lastRow,
          tree = Some rows ->
          nth_error rows (List.length rows - 1) = Some lastRow ->
          snd (_updateLastFrozen tree heap) = false
          /\ forall id, ~ In id lastRow ->
                        fst (_updateLastFrozen tree heap) id = heap id).
Proof.
  intros tree heap.
  split; [|split; [|split]].
  - intros id. destruct tree as [rows|]; [|repeat split].
    destruct (nth_error rows (List.length rows - 1)) as [lastRow|] eqn:Hrow.
    + exact (proj1 (proj2 (_updateLastFrozen_last_row rows lastRow heap Hrow))
               id).
    + unfold _updateLastFrozen. rewrite Hrow. repeat split.
  - intros ->. reflexivity.
  - intros ->. reflexivity.
  - intros rows lastRow -> Hrow.
    destruct (_updateLastFrozen_last_row rows lastRow heap Hrow)
      as (Hok & _ & Hrest).
    split; assumption.
Qed.

(** X12: after the call at most one column of the last row carries the
    mark; the marked column is frozen and not hidden, and no frozen, visible
    column of the row has a higher [_order]; and some column is marked
    exactly when the row has a frozen, visible column at all. *)
Theorem lastFrozen_marks_the_last_frozen_visible :
  forall tree lastRow heap,
    nth_error tree (List.length tree - 1) = Some lastRow ->
    let heap' := fst (_updateLastFrozen (Some tree) heap) in
    (forall id,
        In id lastRow -> _lastFrozen (heap' id) = true ->
        frozen_visible (heap id) = true
        /\ forall other,
             In other lastRow -> frozen_visible (heap other) = true ->
             _order (heap other) <= _order (heap id))
    /\ (forall id other,
          In id lastRow -> In other lastRow ->
          _lastFrozen (heap' id) = true -> _lastFrozen (heap' other) = true ->
          id = other)
    /\ ((exists id, In id lastRow /\ frozen_visible (heap id) = true)
        <-> (exists id, In id lastRow /\ _lastFrozen (heap' id) = true)).
Proof.
  intros tree lastRow heap Hrow heap'.
  assert (Hunmarked : forall id, In id lastRow ->
             _lastFrozen (unmarked lastRow heap id) = false).
  { intros id Hin.
    exact (proj1 (proj2 (proj2 (proj2 (unmarked_fields lastRow heap id))))
             Hin). }
  destruct (_updateLastFrozen_spec tree lastRow heap Hrow)
    as [_ [[Hnone Hheap]|(k & w & _ & _ & Hin & Hw & Hmax & Hheap)]];
    fold heap' in Hheap.
  - assert (Hno : forall id, In id lastRow -> _lastFrozen (heap' id) = false).
    { intros id Hid. rewrite (Hheap id). exact (Hunmarked id Hid). }
    split; [|split; [|split]].
    + intros id Hid Hm. rewrite (Hno id Hid) in Hm. discriminate.
    + intros id other Hid _ Hm. rewrite (Hno id Hid) in Hm. discriminate.
    + intros (id & Hid & Hfv). rewrite Forall_forall in Hnone.
      rewrite (Hnone id Hid) in Hfv. discriminate.
    + intros (id & Hid & Hm). rewrite (Hno id Hid) in Hm. discriminate.
  - assert (Hmark : forall id, In id lastRow ->
               _lastFrozen (heap' id) = true -> id = w).
    { intros id Hid Hm. rewrite (Hheap id) in Hm.
      unfold write_lastFrozen in Hm.
      destruct (Nat.eqb_spec id w) as [E|_]; [exact E|].
      rewrite (Hunmarked id Hid) in Hm. discriminate. }
    split; [|split; [|split]].
    + intros id Hid Hm. rewrite (Hmark id Hid Hm).
      split; [exact Hw|]. intros other Ho Hfv. exact (Hmax other Ho Hfv).
    + intros id other Hid Ho Hm Hm'.
      rewrite (Hmark id Hid Hm), (Hmark other Ho Hm'). reflexivity.
    + intros _. exists w. split; [exact Hin|].
      rewrite (Hheap w). unfold write_lastFrozen.
      rewrite Nat.eqb_refl. reflexivity.
    + intros _. exists w. split; assumption.
Qed.

Lemma last_frozen_visible_ext (h1 h2 : Heap) (l : list nat) :
  (forall id, frozen_visible (h1 id) = frozen_visible (h2 id)) ->
  forall index prev,
    last_frozen_visible h1 l index prev = last_frozen_visible h2 l index prev.
Proof.
  intros Hext. induction l as [|c rest IH]; intros index prev; [reflexivity|].
  simpl. rewrite Hext. apply IH.
Qed.

(** X13: the call is idempotent: run again on its own result, it leaves
    every column as it is. *)
Theorem lastFrozen_is_idempotent :
  forall tree heap,
    let once := fst (_updateLastFrozen tree heap) in
    same_heap (fst (_updateLastFrozen tree once)) once
    /\ snd (_updateLastFrozen tree once) = snd (_updateLastFrozen tree heap).
Proof.
  intros tree heap once.
  destruct tree as [rows|]; [|split; [intros id|]; reflexivity].
  destruct (nth_error rows (List.length rows - 1)) as [lastRow|] eqn:Hrow.
  2:{ assert (E : forall h, _updateLastFrozen (Some rows) h = (h, true))
        by (intros h; unfold _updateLastFrozen; rewrite Hrow; reflexivity).
      unfold once. repeat (rewrite E; cbn [fst snd]).
      split; [intros id|]; reflexivity. }
  destruct (_updateLastFrozen_last_row rows lastRow heap Hrow)
    as (_ & Hfields & _).
  fold once in Hfields.
  assert (Horder : forall id, _order (once id) = _order (heap id))
    by (intros id; exact (proj1 (Hfields id))).
  assert (Hfv : forall id,
             frozen_visible (once id) = frozen_visible (heap id)).
  { intros id. destruct (Hfields id) as (_ & Hf & Hh).
    unfold frozen_visible. rewrite Hf, Hh. reflexivity. }
  assert (Hcol : forall a b : Column,
             _order a = _order b -> frozen a = frozen b ->
             hidden a = hidden b -> _lastFrozen a = _lastFrozen b -> a = b).
  { intros [? ? ? ?] [? ? ? ?]; simpl; congruence. }
  destruct (_updateLastFrozen_spec rows lastRow heap Hrow)
    as [Hok [[Hnone Hheap]|(k & w & Hk & Hlastk & Hin & Hw & _ & Hheap)]];
    destruct (_updateLastFrozen_spec rows lastRow once Hrow)
      as [Hok' [[Hnone' Hheap']|(k' & w' & Hk' & Hlastk' & Hin' & Hw' & _
                                  & Hheap')]];
    fold once in Hheap;
    (split; [|congruence]); intros id.
  - rewrite (Hheap' id). unfold unmarked.
    destruct (existsb (Nat.eqb id) lastRow) eqn:E; [|reflexivity].
    apply Hcol; simpl; try reflexivity.
    rewrite (Hheap id). unfold unmarked. rewrite E. reflexivity.
  - exfalso. rewrite Forall_forall in Hnone.
    rewrite Hfv, (Hnone w' Hin') in Hw'. discriminate.
  - exfalso. rewrite Forall_forall in Hnone'.
    rewrite <- Hfv, (Hnone' w Hin) in Hw. discriminate.
  - assert (Ew : w' = w).
    { rewrite (sort_by_order_ext once heap lastRow Horder) in Hk', Hlastk'.
      rewrite (last_frozen_visible_ext once heap _ Hfv) in Hlastk'.
      congruence. }
    subst w'. rewrite (Hheap' id). unfold write_lastFrozen.
    destruct (Nat.eqb_spec id w) as [->|Hne].
    + apply Hcol; simpl.
      * destruct (unmarked_fields lastRow once w) as (H & _). exact H.
      * destruct (unmarked_fields lastRow once w) as (_ & H & _). exact H.
      * destruct (unmarked_fields lastRow once w) as (_ & _ & H & _). exact H.
      * rewrite (Hheap w). unfold write_lastFrozen. rewrite Nat.eqb_refl.
        reflexivity.
    + unfold unmarked.
      destruct (existsb (Nat.eqb id) lastRow) eqn:E; [|reflexivity].
      apply Hcol; simpl; try reflexivity.
      rewrite (Hheap id). unfold write_lastFrozen.
      destruct (Nat.eqb_spec id w); [contradiction|].
      unfold unmarked. rewrite E. reflexivity.
Qed.

End ColumnsFacts.

(** * The visual updates *)

Section OverflowAttribute.

Context {inherited : Inherited}.

Lemma applyOverflow_attribute (overflow value : string) (h : Host) :
  trim overflow = value ->
  overflow_attribute (applyOverflow overflow h)
  = if (0 <? String.length value)%nat then Some value else None.
Proof.
  intros <-. unfold applyOverflow.
  destruct (String.length (trim overflow)) as [|n] eqn:Hlen; simpl.
  - destruct (overflow_attribute h) eqn:Hcur; simpl;
      [reflexivity|exact Hcur].
  - destruct (overflow_attribute h) as [current|] eqn:Hcur; simpl;
      [|reflexivity].
    destruct (String.eqb_spec current (trim overflow)) as [->|]; simpl;
      [exact Hcur|reflexivity].
Qed.

Lemma applyOverflow_debounce (overflow : string) (h : Host) :
  _debounceOverflow (applyOverflow overflow (with__debounceOverflow None h))
  = None.
Proof.
  unfold applyOverflow.
  repeat match goal with
         | |- context [if ?c then _ else _] => destruct c
         end; reflexivity.
Qed.

(** X14: once the animation frame after [_updateOverflow] has passed, the
    host's [overflow] attribute names exactly the edges towards which the
    scroll surface could still move when the update was asked for, in the
    order bottom, top, right, left and separated by single spaces, and is
    absent when there is none, whatever the attribute was before. *)
Theorem overflow_attribute_names_the_open_edges :
  forall h,
    overflow_attribute (runFrame (_updateOverflow h))
    = overflow_for (table (core h))
    /\ _debounceOverflow (runFrame (_updateOverflow h)) = None.
Proof.
  intros h. unfold runFrame.
  set (h1 := match animationFrameRequests (_updateOverflow h) with
             | [] => _updateOverflow h
             | _ :: _ =>
                 with_animationFrameRequests []
                   (_toggleAttribute_scrolling true (_updateOverflow h))
             end).
  assert (E : _debounceOverflow h1 = Some (overflowOf (table (core h)))).
  { unfold h1. destruct (animationFrameRequests (_updateOverflow h));
      reflexivity. }
  rewrite E. cbn [overflow_attribute _debounceOverflow with_core].
  split; [|apply applyOverflow_debounce].
  unfold overflowOf, overflow_for, edges.
  destruct (scrollTop (table (core h))
            <? scrollHeight (table (core h)) - clientHeight (table (core h)));
    destruct (scrollTop (table (core h)) >? 0);
    destruct (scrollLeft (table (core h))
              <? scrollWidth (table (core h)) - clientWidth (table (core h)));
    destruct (scrollLeft (table (core h)) >? 0);
    (erewrite applyOverflow_attribute; [|reflexivity]); reflexivity.
Qed.

End OverflowAttribute.

(** X15: whenever the capacity test finds room on an element, the element
    has an open edge, so its overflow attribute is not absent, provided the
    element's box covers its client area; and room downwards or to the right
    shows as the bottom or right edge. *)
Theorem room_to_scroll_shows_as_overflow :
  forall el dx dy,
    box_covers_client el ->
    _canScroll el dx dy = true ->
    overflow_for el <> None
    /\ (gt dy (Num 0) = true -> dx = Num 0 ->
        In "bottom"%string (edges el))
    /\ (gt dx (Num 0) = true -> dy = Num 0 ->
        In "right"%string (edges el)).
Proof.
  intros el dx dy [Hh Hw] Hcan.
  unfold _canScroll in Hcan.
  rewrite !orb_true_iff, !andb_true_iff, !Z.ltb_lt, !Z.gtb_gt in Hcan.
  unfold overflow_for, edges.
  split; [|split].
  - destruct Hcan as [[[[_ H]|[_ H]]|[_ H]]|[_ H]].
    + destruct (Z.ltb_spec (scrollTop el) (scrollHeight el - clientHeight el));
        [discriminate|lia].
    + destruct (scrollTop el <? scrollHeight el - clientHeight el);
        (destruct (Z.gtb_spec (scrollTop el) 0); [discriminate|lia]).
    + destruct (scrollTop el <? scrollHeight el - clientHeight el);
        destruct (scrollTop el >? 0);
        (destruct (Z.ltb_spec (scrollLeft el)
                     (scrollWidth el - clientWidth el));
         [discriminate|lia]).
    + destruct (scrollTop el <? scrollHeight el - clientHeight el);
        destruct (scrollTop el >? 0);
        destruct (scrollLeft el <? scrollWidth el - clientWidth el);
        (destruct (Z.gtb_spec (scrollLeft el) 0); [discriminate|lia]).
  - intros Hpos ->. simpl in Hcan.
    destruct Hcan as [[[[_ H]|[Hn _]]|[Hn _]]|[Hn _]];
      try discriminate.
    + destruct (Z.ltb_spec (scrollTop el) (scrollHeight el - clientHeight el));
        [left; reflexivity|lia].
    + destruct dy as [y|]; simpl in Hpos, Hn; [|discriminate].
      apply Z.ltb_lt in Hpos. apply Z.ltb_lt in Hn. lia.
  - intros Hpos ->. simpl in Hcan.
    destruct Hcan as [[[[Hn _]|[Hn _]]|[_ H]]|[Hn _]];
      try discriminate.
    + apply in_or_app. right. apply in_or_app. right. apply in_or_app. left.
      destruct (Z.ltb_spec (scrollLeft el) (scrollWidth el - clientWidth el));
        [left; reflexivity|lia].
    + destruct dx as [x|]; simpl in Hpos, Hn; [|discriminate].
      apply Z.ltb_lt in Hpos. apply Z.ltb_lt in Hn. lia.
Qed.

(** * The scrolling-state scheduler *)

Section Scheduler.

Context {inherited : Inherited}.

Lemma _translateStationaryElements_views (h : Host) :
  scheduler_view (fst (_translateStationaryElements h)) = scheduler_view h
  /\ frozen_view (fst (_translateStationaryElements h)) = frozen_view h
  /\ rows (core (fst (_translateStationaryElements h))) = rows (core h)
  /\ table (core (fst (_translateStationaryElements h))) = table (core h)
  /\ _debounceOverflow (fst (_translateStationaryElements h))
     = _debounceOverflow h.
Proof.
  unfold _translateStationaryElements.
  destruct (negb (_useSticky h)); cbv zeta;
    (destruct (0 <? List.length _)%nat; [|repeat split]);
    cbn [_frozenCells __isRTL __scrollerMetrics with_items_style_transform
         with_footer_style_transform with_core];
    (destruct (__isRTL h); [destruct (__scrollerMetrics h)|]);
    repeat split.
Qed.

Lemma _translateStationaryElements_throws (h : Host) :
  snd (_translateStationaryElements h) = true
  <-> _frozenCells h <> [] /\ __isRTL h = true /\ __scrollerMetrics h = None.
Proof.
  unfold _translateStationaryElements.
  destruct (negb (_useSticky h)); cbv zeta;
    cbn [_frozenCells __isRTL __scrollerMetrics with_items_style_transform
         with_footer_style_transform with_core];
    (destruct (_frozenCells h) as [|r rest]; simpl;
     [split; [discriminate|intros [H _]; contradiction]|]);
    (destruct (__isRTL h); [destruct (__scrollerMetrics h)|]); simpl;
    (split; [try discriminate; intros _; repeat split; discriminate
            |intros (_ & H1 & H2); try discriminate; reflexivity]).
Qed.

Lemma translate_safe_ok (h : Host) :
  translate_safe h -> snd (_translateStationaryElements h) = false.
Proof.
  intros Hsafe.
  destruct (snd (_translateStationaryElements h)) eqn:E; [|reflexivity].
  apply _translateStationaryElements_throws in E as (Hf & Hr & Hm).
  destruct Hsafe as [H|[H|H]]; congruence.
Qed.

Lemma translate_safe_view (h h' : Host) :
  frozen_view h' = frozen_view h -> translate_safe h -> translate_safe h'.
Proof.
  unfold frozen_view, translate_safe. intros [= -> -> ->]. tauto.
Qed.

(** X16: [_afterScroll] throws exactly when there are frozen cells, the
    direction is right-to-left and no scroller metrics were taken, and then
    neither the settle timer nor the overflow update is scheduled;
    otherwise the overflow update is always scheduled, and the settle timer
    is set to 500ms from now unless the host carries the [reordering]
    attribute, in which case the scheduler is left alone. *)
Theorem afterScroll_schedules_unless_it_throws :
  forall now h,
    (snd (_afterScroll now h) = true
     <-> _frozenCells h <> [] /\ __isRTL h = true
         /\ __scrollerMetrics h = None)
    /\ (snd (_afterScroll now h) = true ->
        scheduler_view (fst (_afterScroll now h)) = scheduler_view h
        /\ _debounceOverflow (fst (_afterScroll now h)) = _debounceOverflow h)
    /\ (snd (_afterScroll now h) = false ->
        _debounceOverflow (fst (_afterScroll now h))
        = Some (overflowOf (table (core h)))
        /\ (reordering_attribute h = true ->
            scheduler_view (fst (_afterScroll now h)) = scheduler_view h)
        /\ (reordering_attribute h = false ->
            _debounceScrolling (fst (_afterScroll now h))
            = Some (now + timeouts_ms.SCROLLING))).
Proof.
  intros now h.
  pose proof (_translateStationaryElements_throws h) as Hthrows.
  destruct (_translateStationaryElements_views h)
    as (Hsched & _ & _ & Htable & Hover).
  unfold _afterScroll.
  destruct (_translateStationaryElements h) as [h' failed].
  cbn [fst snd] in *.
  destruct failed; cbn [fst snd].
  - split; [exact Hthrows|]. split; [|discriminate].
    intros _. split; assumption.
  - split; [exact Hthrows|]. split; [discriminate|].
    intros _. unfold _updateOverflow. simpl.
    assert (Hreord : reordering_attribute h' = reordering_attribute h).
    { unfold scheduler_view in Hsched. injection Hsched as _ _ _ _ _ H.
      exact H. }
    split; [|split].
    + destruct (negb (reordering_attribute h')); simpl;
        [unfold _scheduleScrolling; destruct (_scrollingFrame h'); simpl|];
        rewrite Htable; reflexivity.
    + intros Hr. rewrite Hreord, Hr. simpl. exact Hsched.
    + intros Hr. rewrite Hreord, Hr. reflexivity.
Qed.

(** One scroll, with the translation in order and no [reordering]
    attribute. *)
Lemma _afterScroll_scheduler (now : Z) (h : Host) :
  translate_safe h ->
  reordering_attribute h = false ->
  let h' := fst (_afterScroll now h) in
  _debounceScrolling h' = Some (now + timeouts_ms.SCROLLING)
  /\ reordering_attribute h' = false
  /\ frozen_view h' = frozen_view h
  /\ match _scrollingFrame h with
     | Some id =>
         _scrollingFrame h' = Some id
         /\ lastFrameHandle h' = lastFrameHandle h
         /\ animationFrameRequests h' = animationFrameRequests h
     | None =>
         _scrollingFrame h' = Some (S (lastFrameHandle h))
         /\ lastFrameHandle h' = S (lastFrameHandle h)
         /\ animationFrameRequests h'
            = animationFrameRequests h ++ [S (lastFrameHandle h)]
     end.
Proof.
  intros Hsafe Hreord h'. unfold h', _afterScroll.
  pose proof (translate_safe_ok h Hsafe) as Hok.
  destruct (_translateStationaryElements_views h)
    as (Hsched & Hfrozen & _ & _ & _).
  destruct (_translateStationaryElements h) as [h1 failed].
  cbn [fst snd] in *. subst failed. cbn [fst].
  unfold scheduler_view in Hsched.
  injection Hsched as Hf Hreq Hlast _ _ Hr.
  rewrite Hr, Hreord. cbn [negb].
  unfold _updateOverflow, _scheduleScrolling. rewrite Hf.
  destruct (_scrollingFrame h); simpl; unfold frozen_view in *; simpl;
    repeat split; congruence.
Qed.

Lemma applyOverflow_frame (overflow : string) (h : Host) :
  applyOverflow overflow h
  = with_overflow_attribute
      (overflow_attribute (applyOverflow overflow h)) h.
Proof.
  unfold applyOverflow.
  repeat match goal with
         | |- context [if ?c then _ else _] => destruct c
         end; try reflexivity.
  destruct h; reflexivity.
Qed.

Lemma runFrame_scheduler (h : Host) :
  _scrollingFrame (runFrame h) = _scrollingFrame h
  /\ lastFrameHandle (runFrame h) = lastFrameHandle h
  /\ _debounceScrolling (runFrame h) = _debounceScrolling h
  /\ reordering_attribute (runFrame h) = reordering_attribute h
  /\ frozen_view (runFrame h) = frozen_view h
  /\ animationFrameRequests (runFrame h) = [].
Proof.
  unfold runFrame.
  destruct (animationFrameRequests h) eqn:Hreq; cbv zeta;
    cbn [_debounceOverflow with_animationFrameRequests
         _toggleAttribute_scrolling with_scrolling_attribute];
    destruct (_debounceOverflow h) as [o|];
    try rewrite applyOverflow_frame;
    unfold frozen_view; simpl; repeat split; assumption.
Qed.

Lemma runTimers_early (now : Z) (h : Host) :
  (forall due, _debounceScrolling h = Some due -> now < due) ->
  scheduler_view (runTimers now h) = scheduler_view h
  /\ frozen_view (runTimers now h) = frozen_view h.
Proof.
  intros Hearly. unfold runTimers. simpl.
  destruct (_debounceScrolling h) as [due|] eqn:Hdue; [|split; reflexivity].
  specialize (Hearly due eq_refl).
  destruct (Z.leb_spec due now); [lia|]. split; reflexivity.
Qed.

Lemma host_run_app (inputs1 inputs2 : list HostInput) (w : HostWorld) :
  host_run w (inputs1 ++ inputs2) = host_run (host_run w inputs1) inputs2.
Proof. unfold host_run. apply fold_left_app. Qed.

Lemma scroll_burst_invariant (first : nat) (pauses : list (nat * bool)) :
  forall w,
    scrolling_since first w ->
    Forall (fun pause => Z.of_nat (fst pause) < timeouts_ms.SCROLLING) pauses ->
    scrolling_since first (host_run w (scroll_burst pauses))
    /\ time (host_run w (scroll_burst pauses)) = time w + total_pause pauses.
Proof.
  induction pauses as [|[gap frame] pauses IH];
    intros w Hinv Hall.
  { simpl. split; [exact Hinv|lia]. }
  inversion Hall as [|? ? Hgap Hrest]; subst. cbn [fst] in Hgap.
  cbn [scroll_burst flat_map fst snd]. fold (scroll_burst pauses).
  rewrite host_run_app.
  set (w1 := host_run w _).
  assert (Hw1 : scrolling_since first w1
                /\ time w1 = time w + Z.of_nat gap).
  { destruct Hinv as (Hdue & Hframe & Hlast & Hreord & Hsafe).
    (* the pause *)
    assert (Ha : exists wa,
               wa = host_step w (Wait gap)
               /\ scheduler_view (host wa) = scheduler_view (host w)
               /\ frozen_view (host wa) = frozen_view (host w)
               /\ time wa = time w + Z.of_nat gap).
    { eexists. split; [reflexivity|].
      destruct (runTimers_early (time w + Z.of_nat gap) (host w)) as [H1 H2].
      - intros due E. rewrite Hdue in E. injection E as <-. lia.
      - repeat split; assumption. }
    destruct Ha as (wa & Ewa & Hva & Hfa & Hta).
    unfold scheduler_view in Hva.
    injection Hva as Hfa1 Hreqa Hlasta Hduea _ Hreorda.
    (* the frame, if any *)
    assert (Hb : exists wb,
               wb = host_run wa (if frame then [Frame] else [])
               /\ _scrollingFrame (host wb) = Some first
               /\ lastFrameHandle (host wb) = first
               /\ reordering_attribute (host wb) = false
               /\ translate_safe (host wb)
               /\ time wb = time w + Z.of_nat gap).
    { eexists. split; [reflexivity|].
      destruct frame; cbn [host_run fold_left host_step host time].
      - destruct (runFrame_scheduler (host wa))
          as (H1 & H2 & _ & H4 & H5 & _).
        rewrite H1, H2, H4. repeat split; try congruence.
        apply (translate_safe_view (host w)); [congruence|exact Hsafe].
      - repeat split; try congruence.
        apply (translate_safe_view (host w)); [exact Hfa|exact Hsafe]. }
    destruct Hb as (wb & Ewb & Hfb & Hlb & Hrb & Hsb & Htb).
    (* the next scroll *)
    assert (Ew1 : w1 = host_step wb AfterScroll).
    { unfold w1. rewrite Ewb, Ewa. destruct frame; reflexivity. }
    rewrite Ew1. clear Ew1 Ewb Ewa. cbn [host_step host time].
    destruct (_afterScroll_scheduler (time wb) (host wb) Hsb Hrb)
      as (Hd & Hr & Hfv & Hmatch).
    rewrite Hfb in Hmatch. destruct Hmatch as (Hf' & Hl' & _).
    split; [|exact Htb].
    unfold scrolling_since. cbn [host time].
    repeat split; try congruence.
    apply (translate_safe_view (host wb)); assumption. }
  destruct Hw1 as [Hinv1 Ht1].
  destruct (IH w1 Hinv1 Hrest) as [Hinv' Ht'].
  split; [exact Hinv'|]. rewrite Ht', Ht1. cbn [total_pause fold_right fst].
  fold (total_pause pauses). lia.
Qed.

(** X17: a burst of scrolling keeps a single settle timer and a single
    animation-frame request: however many times [_afterScroll] runs, with
    pauses shorter than 500ms and animation frames in between, one frame
    handle is taken in all, and the settle timer stands at 500ms after the
    last call. *)
Theorem scroll_burst_keeps_one_settle_pending :
  forall pauses w,
    translate_safe (host w) ->
    reordering_attribute (host w) = false ->
    _scrollingFrame (host w) = None ->
    Forall (fun pause => Z.of_nat (fst pause) < timeouts_ms.SCROLLING) pauses ->
    let w' := host_run w (AfterScroll :: scroll_burst pauses) in
    time w' = time w + total_pause pauses
    /\ _debounceScrolling (host w') = Some (time w' + timeouts_ms.SCROLLING)
    /\ lastFrameHandle (host w') = S (lastFrameHandle (host w))
    /\ _scrollingFrame (host w') = Some (S (lastFrameHandle (host w))).
Proof.
  intros pauses w Hsafe Hreord Hidle Hall w'.
  unfold w'. change (AfterScroll :: scroll_burst pauses)
    with ([AfterScroll] ++ scroll_burst pauses).
  rewrite host_run_app.
  set (w0 := host_run w [AfterScroll]).
  assert (Hw0 : scrolling_since (S (lastFrameHandle (host w))) w0
                /\ time w0 = time w).
  { unfold w0. cbn [host_run fold_left host_step].
    destruct (_afterScroll_scheduler (time w) (host w) Hsafe Hreord)
      as (Hd & Hr & Hfv & Hmatch).
    rewrite Hidle in Hmatch. destruct Hmatch as (Hf & Hl & _).
    split; [|reflexivity]. unfold scrolling_since. cbn [host time].
    repeat split; try assumption.
    apply (translate_safe_view (host w)); assumption. }
  destruct Hw0 as [Hinv0 Ht0].
  destruct (scroll_burst_invariant _ pauses w0 Hinv0 Hall)
    as [(Hdue & Hframe & Hlast & _ & _) Ht].
  repeat split; [lia|exact Hdue|exact Hlast|exact Hframe].
Qed.

(** X18: when the settle timer comes due, the [scrolling] attribute is
    cleared, the frame handle is dropped and its request cancelled, so that
    the next animation frame cannot raise the attribute again, and the row
    reorder engine runs once, after the plain timeouts due in the same
    turn. *)
Theorem settle_clears_the_scrolling_state :
  forall w ms due,
    _debounceScrolling (host w) = Some due ->
    due <= time w + Z.of_nat ms ->
    (forall r, In r (animationFrameRequests (host w)) ->
               _scrollingFrame (host w) = Some r) ->
    let w' := host_step w (Wait ms) in
    scrolling_attribute (host w') = false
    /\ _scrollingFrame (host w') = None
    /\ _debounceScrolling (host w') = None
    /\ animationFrameRequests (host w') = []
    /\ scrolling_attribute (host (host_step w' Frame)) = false
    /\ core (host w')
       = grid_after
           (_reorderRows (time w')
              (runDueTimeouts (time w')
                 (expireIgnoreNewWheel (time w') (core (host w))))).
Proof.
  intros w ms due Hdue Hle Hreqs w'.
  assert (Hw' : host w'
                = settleScrolling (time w + Z.of_nat ms)
                    (with__debounceScrolling None
                       (with_core
                          (runDueTimeouts (time w + Z.of_nat ms)
                             (expireIgnoreNewWheel (time w + Z.of_nat ms)
                                (core (host w))))
                          (host w)))).
  { unfold w'. cbn [host_step host]. unfold runTimers.
    cbn [_debounceScrolling with_core]. rewrite Hdue.
    destruct (Z.leb_spec due (time w + Z.of_nat ms)); [reflexivity|lia]. }
  assert (Hnone : animationFrameRequests (host w') = []).
  { rewrite Hw'. unfold settleScrolling, cancelAnimationFrame. simpl.
    destruct (_scrollingFrame (host w)) as [id|] eqn:Hframe; simpl.
    - induction (animationFrameRequests (host w)) as [|r rest IH];
        [reflexivity|].
      simpl. assert (Er : Some id = Some r) by (apply Hreqs; left; reflexivity).
      injection Er as <-. rewrite Nat.eqb_refl. simpl.
      apply IH. intros r Hr. apply Hreqs. right. exact Hr.
    - destruct (animationFrameRequests (host w)) as [|r rest];
        [reflexivity|].
      specialize (Hreqs r (or_introl eq_refl)). discriminate. }
  assert (Hattr : scrolling_attribute (host w') = false).
  { rewrite Hw'. unfold settleScrolling, cancelAnimationFrame. simpl.
    destruct (_scrollingFrame (host w)); reflexivity. }
  split; [exact Hattr|].
  split; [rewrite Hw'; reflexivity|].
  split.
  { rewrite Hw'. unfold settleScrolling, cancelAnimationFrame. simpl.
    destruct (_scrollingFrame (host w)); reflexivity. }
  split; [exact Hnone|].
  split.
  - cbn [host_step host]. unfold runFrame. rewrite Hnone. cbv zeta.
    destruct (_debounceOverflow (host w')) as [o|].
    + rewrite applyOverflow_frame. simpl. exact Hattr.
    + simpl. exact Hattr.
  - rewrite Hw'. unfold settleScrolling, cancelAnimationFrame. simpl.
    destruct (_scrollingFrame (host w)); reflexivity.
Qed.

(** X19: a settle timer that comes due while the scroll bar handle is held
    moves no row: the attribute is cleared and the reorder is left pending;
    the release then schedules it, once. *)
Theorem settle_during_a_drag_defers_the_reorder :
  forall w ms due,
    _debounceScrolling (host w) = Some due ->
    due <= time w + Z.of_nat ms ->
    __mouseDown (core (host w)) = true ->
    let w' := host_step w (Wait ms) in
    let w'' := host_step w' Release in
    rows (core (host w')) = rows (core (host w))
    /\ __pendingReorder (core (host w')) = true
    /\ scrolling_attribute (host w') = false
    /\ rows (core (host w'')) = rows (core (host w))
    /\ __mouseDown (core (host w'')) = false
    /\ __pendingReorder (core (host w'')) = false
    /\ pending_reorders (timeouts (core (host w'')))
       = S (pending_reorders (timeouts (core (host w')))).
Proof.
  intros w ms due Hdue Hle Hdown w' w''.
  set (now := time w + Z.of_nat ms).
  set (g1 := runDueTimeouts now (expireIgnoreNewWheel now (core (host w)))).
  assert (Hg1 : rows g1 = rows (core (host w)) /\ __mouseDown g1 = true).
  { destruct (expireIgnoreNewWheel_drag now (core (host w))) as [Hv _].
    unfold drag_view in Hv. injection Hv as Hr Hm.
    destruct (runDueTimeouts_while_down now
                (expireIgnoreNewWheel now (core (host w))))
      as [Hv' _]; [congruence|].
    unfold drag_view in Hv'. injection Hv' as Hr' Hm'.
    unfold g1. split; congruence. }
  destruct Hg1 as [Hrows1 Hdown1].
  assert (Hcore : core (host w') = set___pendingReorder true g1
                  /\ scrolling_attribute (host w') = false).
  { unfold w'. cbn [host_step host]. unfold runTimers.
    cbn [_debounceScrolling with_core]. rewrite Hdue. fold now.
    destruct (Z.leb_spec due now); [|unfold now in *; lia].
    unfold settleScrolling, cancelAnimationFrame. simpl. fold g1.
    destruct (_scrollingFrame (host w)); simpl;
      unfold _reorderRows; rewrite Hdown1; split; reflexivity. }
  destruct Hcore as [Hcore Hattr].
  split; [rewrite Hcore; exact Hrows1|].
  split; [rewrite Hcore; reflexivity|].
  split; [exact Hattr|].
  assert (Hcore2 : core (host w'') = on_mouseup (time w') (core (host w')))
    by reflexivity.
  rewrite Hcore2, Hcore. unfold on_mouseup. simpl.
  repeat split; [exact Hrows1|].
  apply pending_reorders_enqueue.
Qed.

(** *** Frozen cells *)

Lemma write_cell_transform_nth (t : string) :
  forall cs ref i,
    nth_error (write_cell_transform ref t cs) i
    = if Nat.eqb i ref then option_map (translated t) (nth_error cs i)
      else nth_error cs i.
Proof.
  induction cs as [|c rest IH]; intros ref i.
  - destruct ref as [|ref], i as [|i]; simpl;
      try destruct (Nat.eqb i ref); reflexivity.
  - destruct ref as [|ref], i as [|i]; simpl; try reflexivity.
    apply IH.
Qed.

Lemma write_all_nth (t : string) (refs : list nat) :
  forall cs i,
    nth_error
      (fold_left (fun cs ref => write_cell_transform ref t cs) refs cs)
      i
    = if existsb (Nat.eqb i) refs
      then option_map (translated t) (nth_error cs i)
      else nth_error cs i.
Proof.
  induction refs as [|r refs IH]; intros cs i; [reflexivity|].
  cbn [fold_left existsb]. rewrite IH, write_cell_transform_nth.
  destruct (Nat.eqb i r); simpl.
  - destruct (existsb (Nat.eqb i) refs); [|reflexivity].
    destruct (nth_error cs i); reflexivity.
  - reflexivity.
Qed.

Lemma translation_cells (h : Host) :
  exists transform,
    forall i,
      nth_error (cells (fst (_translateStationaryElements h))) i
      = if existsb (Nat.eqb i) (_frozenCells h)
           && negb (snd (_translateStationaryElements h))
        then option_map (translated transform) (nth_error (cells h) i)
        else nth_error (cells h) i.
Proof.
  unfold _translateStationaryElements.
  destruct (negb (_useSticky h)); cbv zeta;
    cbn [_frozenCells __isRTL __scrollerMetrics cells
         with_items_style_transform with_footer_style_transform with_core];
    (destruct (0 <? List.length (_frozenCells h))%nat eqn:Hlen;
     [|exists EmptyString; intros i;
       destruct (_frozenCells h); [reflexivity|discriminate]]);
    (destruct (__isRTL h); [destruct (__scrollerMetrics h)|]);
    cbn [fst snd negb];
    try (eexists; intros i; rewrite andb_true_r; apply write_all_nth);
    (exists EmptyString; intros i; rewrite andb_false_r; reflexivity).
Qed.

(** X20: the translation writes one and the same transform to every cell
    that [_frozenCells] refers to and leaves every other cell as it is; it
    fails exactly when there are frozen cells, the direction is
    right-to-left and no scroller metrics were taken, and then no cell has
    been written. *)
Theorem translation_moves_exactly_the_frozen_cells :
  forall h,
    let h' := fst (_translateStationaryElements h) in
    (snd (_translateStationaryElements h) = true
     <-> _frozenCells h <> [] /\ __isRTL h = true
         /\ __scrollerMetrics h = None)
    /\ (snd (_translateStationaryElements h) = true -> cells h' = cells h)
    /\ exists transform,
         forall i,
           nth_error (cells h') i
           = if existsb (Nat.eqb i) (_frozenCells h)
                && negb (snd (_translateStationaryElements h))
             then option_map (translated transform) (nth_error (cells h) i)
             else nth_error (cells h) i.
Proof.
  intros h h'. split; [apply _translateStationaryElements_throws|].
  destruct (translation_cells h) as [transform Hcells]. fold h' in Hcells.
  split; [|exists transform; exact Hcells].
  intros Hthrew. apply nth_error_ext. intros i.
  rewrite Hcells, Hthrew, andb_false_r. reflexivity.
Qed.

Lemma frozen_refs_In (cs : list Cell) :
  forall at_ i,
    In i (frozen_refs at_ cs)
    <-> (at_ <= i)%nat
        /\ exists c, nth_error cs (i - at_) = Some c
                     /\ cell_frozen c = true.
Proof.
  induction cs as [|c rest IH]; intros at_ i.
  - simpl. split; [contradiction|].
    intros (_ & c & H & _). destruct (i - at_)%nat; discriminate.
  - cbn [frozen_refs].
    assert (Hrest : In i (frozen_refs (S at_) rest)
                    <-> (at_ < i)%nat
                        /\ exists c0, nth_error (c :: rest) (i - at_) = Some c0
                                      /\ cell_frozen c0 = true).
    { rewrite IH. split.
      - intros (Hle & c0 & Hn & Hf). split; [lia|]. exists c0.
        replace (i - at_)%nat with (S (i - S at_)) by lia. split; assumption.
      - intros (Hlt & c0 & Hn & Hf). split; [lia|]. exists c0.
        replace (i - at_)%nat with (S (i - S at_)) in Hn by lia.
        split; assumption. }
    destruct (cell_frozen c) eqn:Hc.
    + cbn [In]. rewrite Hrest. split.
      * intros [<-|(Hlt & Hex)].
        -- split; [lia|]. exists c. rewrite Nat.sub_diag. split;
             [reflexivity|exact Hc].
        -- split; [lia|exact Hex].
      * intros (Hle & Hex).
        destruct (Nat.eq_dec at_ i) as [E|Hne]; [left; exact E|].
        right. split; [lia|exact Hex].
    + rewrite Hrest. split.
      * intros (Hlt & Hex). split; [lia|exact Hex].
      * intros (Hle & c0 & Hn & Hf).
        destruct (Nat.eq_dec at_ i) as [E|Hne].
        -- subst. rewrite Nat.sub_diag in Hn. injection Hn as <-. congruence.
        -- split; [lia|]. exists c0. split; assumption.
Qed.

Lemma rebuildFrozenCells_cells :
  forall h,
    let h' := fst (rebuildFrozenCells h) in
    snd (rebuildFrozenCells h) = false
    /\ (forall i,
          In i (_frozenCells h')
          <-> exists c, nth_error (cells h) i = Some c
                       /\ cell_frozen c = true)
    /\ exists transform,
         forall i c,
           nth_error (cells h) i = Some c ->
           nth_error (cells h') i
           = Some (translated
                     (if cell_frozen c then transform else EmptyString) c).
Proof.
  intros h h'.
  set (cleared := map (fun c => mkCell (cell_frozen c) EmptyString) (cells h)).
  set (h1 := with__frozenCells (frozen_refs 0 cleared) (with_cells cleared h)).
  set (h2 := _updateScrollerMeasurements h1).
  assert (Eh : rebuildFrozenCells h = _translateStationaryElements h2)
    by reflexivity.
  assert (Hh2 : cells h2 = cleared
                /\ _frozenCells h2 = frozen_refs 0 cleared
                /\ translate_safe h2).
  { unfold h2, _updateScrollerMeasurements, translate_safe.
    destruct (0 <? List.length (_frozenCells h1))%nat eqn:Hlen;
      destruct (__isRTL h1) eqn:Hrtl; simpl;
      repeat split; try reflexivity.
    - right. right. discriminate.
    - right. left. exact Hrtl.
    - left. change (_frozenCells h1) with (frozen_refs 0 cleared) in Hlen.
      destruct (frozen_refs 0 cleared); [reflexivity|discriminate].
    - right. left. exact Hrtl. }
  destruct Hh2 as (Hcells2 & Hfrozen2 & Hsafe2).
  assert (Hrefs : forall i,
             In i (frozen_refs 0 cleared)
             <-> exists c, nth_error (cells h) i = Some c
                          /\ cell_frozen c = true).
  { intros i. rewrite frozen_refs_In, Nat.sub_0_r. unfold cleared.
    rewrite nth_error_map. split.
    - intros (_ & c & Hn & Hf).
      destruct (nth_error (cells h) i) as [c0|]; [|discriminate].
      injection Hn as <-. exists c0. split; [reflexivity|exact Hf].
    - intros (c & Hn & Hf). split; [lia|]. rewrite Hn. eexists.
      split; [reflexivity|exact Hf]. }
  pose proof (translate_safe_ok h2 Hsafe2) as Hok.
  destruct (_translateStationaryElements_views h2) as (_ & Hfv & _).
  destruct (translation_cells h2) as [transform Hcellsafter].
  unfold h'. rewrite Eh.
  split; [exact Hok|]. split.
  - intros i. unfold frozen_view in Hfv. injection Hfv as Hf _ _.
    rewrite Hf, Hfrozen2. apply Hrefs.
  - exists transform. intros i c Hn.
    rewrite Hcellsafter, Hok, andb_true_r, Hfrozen2, Hcells2.
    unfold cleared. rewrite nth_error_map, Hn. cbn [option_map].
    destruct (existsb (Nat.eqb i) (frozen_refs 0 _)) eqn:Hex.
    + apply ColumnsFacts.existsb_eqb_In in Hex. apply Hrefs in Hex.
      destruct Hex as (c' & Hn' & Hf'). rewrite Hn in Hn'.
      injection Hn' as <-. unfold translated. cbn [cell_frozen].
      rewrite Hf'. reflexivity.
    + unfold translated. destruct (cell_frozen c) eqn:Hf; [|reflexivity].
      exfalso.
      assert (Hin : In i (frozen_refs 0 cleared))
        by (apply Hrefs; exists c; split; assumption).
      apply ColumnsFacts.existsb_eqb_In in Hin. fold cleared in Hex.
      congruence.
Qed.

Lemma _translateStationaryElements_debouncer (h : Host) :
  _debouncerCacheElements (fst (_translateStationaryElements h))
  = _debouncerCacheElements h.
Proof.
  unfold _translateStationaryElements.
  destruct (negb (_useSticky h)); cbv zeta;
    cbn [_frozenCells __isRTL __scrollerMetrics cells
         with_items_style_transform with_footer_style_transform with_core];
    destruct (0 <? List.length (_frozenCells h))%nat;
    try reflexivity;
    (destruct (__isRTL h); [destruct (__scrollerMetrics h)|]); reflexivity.
Qed.

Lemma rebuildFrozenCells_debouncer (h : Host) :
  _debouncerCacheElements (fst (rebuildFrozenCells h))
  = _debouncerCacheElements h.
Proof.
  unfold rebuildFrozenCells. cbv zeta.
  rewrite _translateStationaryElements_debouncer.
  unfold _updateScrollerMeasurements.
  destruct (_ && _); reflexivity.
Qed.

Lemma frozenCellsChanged_pending :
  forall k w,
    let p := host_run w (repeat FrozenCellsChanged k) in
    cells (host p) = cells (host w)
    /\ _frozenCells (host p) = _frozenCells (host w)
    /\ time p = time w
    /\ _debouncerCacheElements (host p)
       = match k with
         | O => _debouncerCacheElements (host w)
         | S _ => true
         end.
Proof.
  induction k as [|k IH]; intros w p; [repeat split|].
  unfold p. cbn [repeat host_run fold_left].
  fold (host_run (host_step w FrozenCellsChanged) (repeat FrozenCellsChanged k)).
  destruct (IH (host_step w FrozenCellsChanged)) as (Hc & Hf & Ht & Hd).
  assert (Hstep : cells (host (host_step w FrozenCellsChanged)) = cells (host w)
                  /\ _frozenCells (host (host_step w FrozenCellsChanged))
                     = _frozenCells (host w)
                  /\ _debouncerCacheElements
                       (host (host_step w FrozenCellsChanged)) = true).
  { cbn [host_step host]. unfold _frozenCellsChanged, host_updateLastFrozen.
    destruct (Columns._updateLastFrozen _ _) as [heap failed].
    repeat split. }
  destruct Hstep as (Hc1 & Hf1 & Hd1).
  split; [congruence|]. split; [congruence|]. split; [exact Ht|].
  rewrite Hd. destruct k; [exact Hd1|reflexivity].
Qed.

(** X21: however often the frozen cells are reported as changed within one
    task, and whether or not settling the last frozen column throws, until
    the microtask checkpoint the cache and the cells stay as they were and
    one rebuild is pending; the rebuild does not throw, right-to-left or
    not; after it [_frozenCells] refers to exactly the cells that carry the
    [frozen] attribute, those cells all have one and the same transform and
    every other cell has none; and a second checkpoint does nothing. *)
Theorem frozen_cell_changes_coalesce :
  forall k w,
    let pending := host_run w (repeat FrozenCellsChanged (S k)) in
    let w' := host_step pending Microtasks in
    (_debouncerCacheElements (host pending) = true
     /\ cells (host pending) = cells (host w)
     /\ _frozenCells (host pending) = _frozenCells (host w))
    /\ snd (rebuildFrozenCells
              (with__debouncerCacheElements false (host pending))) = false
    /\ (forall i,
          In i (_frozenCells (host w'))
          <-> exists c, nth_error (cells (host w)) i = Some c
                       /\ cell_frozen c = true)
    /\ (exists transform,
          forall i c,
            nth_error (cells (host w)) i = Some c ->
            nth_error (cells (host w')) i
            = Some (translated
                      (if cell_frozen c then transform else EmptyString) c))
    /\ host_step w' Microtasks = w'.
Proof.
  intros k w pending w'.
  destruct (frozenCellsChanged_pending (S k) w) as (Hc & Hf & _ & Hd).
  fold pending in Hc, Hf, Hd.
  set (h := with__debouncerCacheElements false (host pending)).
  assert (Hw' : w' = mkHostWorld (fst (rebuildFrozenCells h)) (time pending)).
  { unfold w'. cbn [host_step]. rewrite Hd. reflexivity. }
  assert (Hcells : cells h = cells (host w)) by exact Hc.
  destruct (rebuildFrozenCells_cells h) as (Hok & Hrefs & transform & Hcs).
  rewrite Hcells in Hrefs, Hcs.
  split; [repeat split; assumption|].
  split; [exact Hok|].
  rewrite Hw'. cbn [host].
  split; [exact Hrefs|].
  split; [exists transform; exact Hcs|].
  cbn [host_step host time]. rewrite rebuildFrozenCells_debouncer.
  reflexivity.
Qed.

End Scheduler.

(** * The further properties on sample data *)

Lemma burst_within_a_frame_accumulates_witness :
  let g := armed sample_grid in
  let result := @run Cssom.browser plainSuper (mkWorld g 0)
                  (map Wheel [pixels_down; down 20]) in
  grid (fst result) = set__deltaYAcc (Num 120) g
  /\ table (grid (fst result)) = sample_table.
Proof.
  intros g result.
  assert (Hskip : Forall (fun e => skipsWheel g e = false)
                    [pixels_down; down 20])
    by (repeat constructor).
  destruct (@burst_within_a_frame_accumulates Cssom.browser plainSuper 0
              [pixels_down; down 20] g eq_refl Hskip)
    as (_ & Hgrid & Htable & _).
  split; [exact Hgrid|exact Htable].
Defined.

Lemma decaying_momentum_is_swallowed_witness :
  let w := mkWorld rested_grid 600 in
  let inputs := [Wheel (down 80); Elapse 20; Wheel (down 60)] in
  Forall handled (snd (@run Cssom.browser plainSuper w inputs))
  /\ table (grid (fst (@run Cssom.browser plainSuper w inputs)))
     = bottomed_table.
Proof.
  intros w inputs.
  assert (Heach : @each_wheel Cssom.browser plainSuper decaying_at_capacity w
                    inputs)
    by (repeat split; intros _; reflexivity).
  destruct (@decaying_momentum_is_swallowed Cssom.browser plainSuper inputs w
              eq_refl Heach)
    as (Hhandled & Htable & _).
  split; [exact Hhandled|exact Htable].
Defined.

Lemma incomparable_momentum_passes_through_witness :
  snd (@_onWheel Cssom.browser plainSuper 0 (down 120) fresh_bottomed_grid)
  = false
  /\ _previousMomentum
       (fst (@_onWheel Cssom.browser plainSuper 0 (down 120)
               fresh_bottomed_grid))
     = numeric (Num 120).
Proof.
  assert (Hfull : beyond_capacity fresh_bottomed_grid (down 120))
    by (split; reflexivity).
  destruct (@incomparable_momentum_passes_through Cssom.browser plainSuper 0
              fresh_bottomed_grid (down 120) Hfull eq_refl eq_refl
              (or_intror eq_refl))
    as (Hout & _ & Hprev).
  split; [exact Hout|exact Hprev].
Defined.

Lemma cooldown_ends_after_500ms_witness :
  let w := mkWorld sample_grid 0 in
  let w2 := fst (@step Cssom.browser plainSuper
                   (fst (@step Cssom.browser plainSuper w (Wheel pixels_down)))
                   (Elapse 500)) in
  _ignoreNewWheel (grid w2) = false
  /\ _debouncerIgnoreNewWheel (grid w2) = None.
Proof.
  intros w w2.
  assert (Hover : timeouts_ms.IGNORE_WHEEL <= Z.of_nat 500)
    by (vm_compute; discriminate).
  exact (proj2 (@cooldown_ends_after_500ms Cssom.browser plainSuper w
                  pixels_down 500 eq_refl eq_refl eq_refl) Hover).
Defined.

Lemma reorder_keeps_the_rows_witness :
  Permutation (rows (grid_after (_reorderRows 0 rotated_grid)))
    (rows rotated_grid)
  /\ List.length (rows (grid_after (_reorderRows 0 rotated_grid))) = 5%nat.
Proof.
  assert (Hnd : NoDup (map rid (rows rotated_grid))).
  { simpl. repeat constructor; simpl; intuition discriminate. }
  destruct (reorder_keeps_the_rows 0 rotated_grid Hnd) as (Hperm & _ & Hlen).
  split; [exact Hperm|exact Hlen].
Defined.

Lemma reorder_puts_target_in_place_witness :
  threw (_reorderRows 0 rotated_grid) = false
  /\ indexOf (row 3) (rows (grid_after (_reorderRows 0 rotated_grid))) = 3
  /\ Z.of_nat (List.length (dom_moves (_reorderRows 0 rotated_grid))) = 3.
Proof.
  assert (Hnd : NoDup (map rid (rows rotated_grid))).
  { simpl. repeat constructor; simpl; intuition discriminate. }
  assert (Hin : In (row 3) (rows rotated_grid)) by (left; reflexivity).
  assert (Hrange : 0 <= targetPhysicalIndexOf rotated_grid (row 3)
                   < Z.of_nat (List.length (rows rotated_grid)))
    by (vm_compute; split; [discriminate|reflexivity]).
  destruct (reorder_puts_target_in_place 0 rotated_grid (row 3)
              eq_refl Hnd eq_refl Hin Hrange)
    as (Hok & Hindex & Hmoves & _).
  split; [exact Hok|]. split; [exact Hindex|exact Hmoves].
Defined.

Lemma reorder_fails_beyond_reach_witness :
  threw (_reorderRows 0 stale_focus_grid) = true
  /\ dom_moves (_reorderRows 0 stale_focus_grid) = []
  /\ grid_after (_reorderRows 0 stale_focus_grid) = stale_focus_grid.
Proof.
  assert (Hnd : NoDup (map rid (rows stale_focus_grid))).
  { simpl. repeat constructor; simpl; intuition discriminate. }
  assert (Hrows : rows stale_focus_grid <> []) by discriminate.
  destruct (reorder_fails_beyond_reach 0 stale_focus_grid (row 7)
              eq_refl Hnd Hrows eq_refl)
    as (Hthrew & Hbelow & _).
  assert (Hfar : indexOf (row 7) (rows stale_focus_grid)
                 - targetPhysicalIndexOf stale_focus_grid (row 7)
                 < - Z.of_nat (List.length (rows stale_focus_grid)))
    by (vm_compute; reflexivity).
  split; [exact (proj2 Hthrew (or_intror Hfar))|exact (Hbelow Hfar)].
Defined.

Lemma drag_session_schedules_one_reorder_witness :
  let w' := fst (@run Cssom.browser plainSuper (mkWorld rotated_grid 0)
                   (drag_session 3)) in
  rows (grid w') = rows rotated_grid
  /\ timeouts (grid w') = [(timeouts_ms.SCROLLING, TReorderRows)].
Proof.
  intros w'.
  destruct (@drag_session_schedules_one_reorder Cssom.browser plainSuper
              (mkWorld rotated_grid 0) 3 eq_refl)
    as (Hrows & _ & _ & Htimeouts & _).
  split; [exact Hrows|exact Htimeouts].
Defined.

Lemma rows_rest_while_mouse_is_down_witness :
  let inputs := [ReorderRows; Elapse 600; Wheel pixels_down] in
  let w := mkWorld dragged_grid 0 in
  rows (grid (fst (@run Cssom.browser plainSuper w inputs)))
  = rows dragged_grid
  /\ __pendingReorder (grid (fst (@run Cssom.browser plainSuper w inputs)))
     = true.
Proof.
  intros inputs w.
  assert (Hsuper : keeps_rows (@_scrollHandler plainSuper))
    by (intros g; repeat split).
  assert (Hheld : ~ In MouseUp inputs).
  { intros [H|[H|[H|[]]]]; discriminate. }
  destruct (@rows_rest_while_mouse_is_down Cssom.browser plainSuper inputs w
              Hsuper eq_refl Hheld)
    as (Hrows & _ & Hpending).
  split; [exact Hrows|].
  apply Hpending. right. left. reflexivity.
Defined.

Lemma lastFrozen_marks_the_last_frozen_visible_witness :
  exists id,
    In id [0; 1; 2; 3]%nat
    /\ Columns._lastFrozen
         (fst (Columns._updateLastFrozen Columns.sample_tree
                 Columns.sample_heap) id) = true.
Proof.
  apply (proj2 (proj2 (ColumnsFacts.lastFrozen_marks_the_last_frozen_visible
                         [[0; 1]; [0; 1; 2; 3]]%nat [0; 1; 2; 3]%nat
                         Columns.sample_heap eq_refl))).
  exists 3%nat. split; [right; right; right; left; reflexivity|reflexivity].
Defined.

Lemma room_to_scroll_shows_as_overflow_witness :
  overflow_for sample_table <> None
  /\ In "bottom"%string (edges sample_table).
Proof.
  assert (Hbox : box_covers_client sample_table)
    by (split; vm_compute; discriminate).
  destruct (@room_to_scroll_shows_as_overflow sample_table (Num 0) (Num 100)
              Hbox eq_refl)
    as (Hsome & Hbottom & _).
  split; [exact Hsome|exact (Hbottom eq_refl eq_refl)].
Defined.

Lemma scroll_burst_keeps_one_settle_pending_witness :
  let w' := @host_run plainInherited (mkHostWorld sample_host 0)
              (AfterScroll :: scroll_burst [(100%nat, true); (200%nat, false)])
  in
  time w' = 300
  /\ _debounceScrolling (host w') = Some 800
  /\ _scrollingFrame (host w') = Some 1%nat.
Proof.
  intros w'.
  assert (Hsafe : translate_safe sample_host) by (right; left; reflexivity).
  assert (Hshort : Forall (fun pause : nat * bool =>
                             Z.of_nat (fst pause) < timeouts_ms.SCROLLING)
                     [(100%nat, true); (200%nat, false)])
    by (repeat constructor).
  destruct (@scroll_burst_keeps_one_settle_pending plainInherited
              [(100%nat, true); (200%nat, false)] (mkHostWorld sample_host 0)
              Hsafe eq_refl eq_refl Hshort)
    as (Htime & Hdue & _ & Hframe).
  split; [exact Htime|]. split; [exact Hdue|exact Hframe].
Defined.

Lemma settle_clears_the_scrolling_state_witness :
  let w' := @host_step plainInherited (mkHostWorld scrolling_host 0)
              (Wait 500) in
  scrolling_attribute (host w') = false
  /\ animationFrameRequests (host w') = []
  /\ rows (core (host w')) = [row 0; row 1; row 2; row 3; row 4].
Proof.
  intros w'.
  assert (Hdue : 500 <= time (mkHostWorld scrolling_host 0) + Z.of_nat 500)
    by (vm_compute; discriminate).
  assert (Hreqs : forall r,
             In r (animationFrameRequests scrolling_host) ->
             _scrollingFrame scrolling_host = Some r).
  { intros r [<-|[]]. reflexivity. }
  destruct (@settle_clears_the_scrolling_state plainInherited
              (mkHostWorld scrolling_host 0) 500 500 eq_refl Hdue Hreqs)
    as (Hattr & _ & _ & Hnone & _ & Hcore).
  split; [exact Hattr|]. split; [exact Hnone|].
  fold w' in Hcore. rewrite Hcore. reflexivity.
Defined.

Lemma settle_during_a_drag_defers_the_reorder_witness :
  let w' := @host_step plainInherited (mkHostWorld dragged_host 0)
              (Wait 500) in
  rows (core (host w')) = [row 3; row 4; row 0; row 1; row 2]
  /\ __pendingReorder (core (host w')) = true
  /\ __mouseDown (core (host (@host_step plainInherited w' Release)))
     = false.
Proof.
  intros w'.
  assert (Hdue : 500 <= time (mkHostWorld dragged_host 0) + Z.of_nat 500)
    by (vm_compute; discriminate).
  destruct (@settle_during_a_drag_defers_the_reorder plainInherited
              (mkHostWorld dragged_host 0) 500 500 eq_refl Hdue eq_refl)
    as (Hrows & Hpending & _ & _ & Hup & _).
  split; [exact Hrows|]. split; [exact Hpending|exact Hup].
Defined.
